(** * btc-recovery-bot: a shallow embedding of [bot.js]

    The development follows the structure of [bot.js]: global flags,
    the admin notification, the long-operation gate of the polling loop,
    the balance-checking handlers and their helper functions.  The
    libraries under [lib/] ([bitcoin], [balance-checker], [session],
    [settings], [telegram], [topics], [word-engine], [ai-suggest]) are the
    collaborators of the handlers: they are fields of one record
    ([Collaborators]) and every handler is a function of it. *)

From Stdlib Require Import ZArith String Ascii List Lia Bool DecimalString.
From stdpp Require Import gmap strings list.
Import ListNotations.

Local Open Scope string_scope.
Local Open Scope list_scope.
Local Open Scope Z_scope.

(* ===================================================================== *)
(** ** Strings as JavaScript uses them *)
(* ===================================================================== *)

(** A JavaScript string is modelled by its UTF-8 bytes. *)

Module Js.

(** [String(n)] and template interpolation of a non-negative integer. *)
Definition showNat (n : nat) : string :=
  NilEmpty.string_of_uint (Nat.to_uint n).

(** Template interpolation of an integer. *)
Definition showZ (z : Z) : string :=
  NilEmpty.string_of_int (Z.to_int z).

(** [s.replace(/c/g, by)] for a one-character pattern. *)
Fixpoint replaceAll (c : ascii) (by_ : string) (s : string) : string :=
  match s with
  | EmptyString => EmptyString
  | String a rest =>
      if Ascii.eqb a c then by_ +:+ replaceAll c by_ rest
      else String a (replaceAll c by_ rest)
  end.

(** [s.slice(0, n)]. *)
Definition sliceTo (n : nat) (s : string) : string := substring 0 n s.

(** [s.slice(-n)]. *)
Definition sliceLast (n : nat) (s : string) : string :=
  substring (String.length s - n) n s.

(** [s.slice(n)]. *)
Definition sliceFrom (n : nat) (s : string) : string :=
  substring n (String.length s - n) s.

(** [s.indexOf(c)] for a one-character needle; [None] is JavaScript's -1. *)
Fixpoint indexOf (c : ascii) (s : string) : option nat :=
  match s with
  | EmptyString => None
  | String a rest =>
      if Ascii.eqb a c then Some O
      else match indexOf c rest with
           | Some i => Some (S i)
           | None => None
           end
  end.

(** [s.startsWith(p)]. *)
Definition startsWith (p s : string) : bool := String.prefix p s.

(** [parts.join(sep)]. *)
Fixpoint join (sep : string) (parts : list string) : string :=
  match parts with
  | [] => EmptyString
  | [p] => p
  | p :: rest => p +:+ sep +:+ join sep rest
  end.

(** [xs.slice(-n)] on arrays. *)
Definition lastN {A} (n : nat) (xs : list A) : list A :=
  skipn (length xs - n) xs.

(** [t] occurs inside [s] ([s.includes(t)]). *)
Definition includes (s t : string) : Prop :=
  exists pre post, s = pre +:+ t +:+ post.

(** ASCII lower-casing, [s.toLowerCase()] on ASCII text. *)
Definition lowerAscii (a : ascii) : ascii :=
  let n := nat_of_ascii a in
  if (Nat.leb 65 n && Nat.leb n 90)%bool then ascii_of_nat (n + 32) else a.

Fixpoint toLowerCase (s : string) : string :=
  match s with
  | EmptyString => EmptyString
  | String a rest => String (lowerAscii a) (toLowerCase rest)
  end.

(** White space as the model knows it: the blank, the tab, the line
    feed and the carriage return.  JavaScript's [trim] and [\s] also
    take the vertical tab, the form feed and the white space outside
    ASCII; on text without these the two agree. *)
Definition isSpace (a : ascii) : bool :=
  let n := nat_of_ascii a in
  (Nat.eqb n 32 || Nat.eqb n 9 || Nat.eqb n 10 || Nat.eqb n 13)%bool.

Fixpoint trimStart (s : string) : string :=
  match s with
  | EmptyString => EmptyString
  | String a rest => if isSpace a then trimStart rest else s
  end.

Fixpoint rev (s : string) : string :=
  match s with
  | EmptyString => EmptyString
  | String a rest => rev rest +:+ String a EmptyString
  end.

(** [s.trim()]. *)
Definition trim (s : string) : string := rev (trimStart (rev (trimStart s))).

End Js.

(** [escHtml] (bot.js, HTML escaping): three successive global replaces. *)
Definition escHtml (text : string) : string :=
  Js.replaceAll ">" "&gt;"
    (Js.replaceAll "<" "&lt;"
       (Js.replaceAll "&" "&amp;" text)).

(* ===================================================================== *)
(** ** lib/bitcoin: brain-wallet derivation *)
(* ===================================================================== *)

(** SHA-256 (FIPS 180-4) on 32-bit words held in [Z], wrap-around written
    out with [mod 2^32]. *)
Module Sha256.

Definition add32 (a b : Z) : Z := (a + b) mod 2 ^ 32.
Definition rotr (n x : Z) : Z :=
  Z.lor (Z.shiftr x n) (Z.shiftl x (32 - n) mod 2 ^ 32).
Definition shr (n x : Z) : Z := Z.shiftr x n.
Definition not32 (x : Z) : Z := Z.lxor x (2 ^ 32 - 1).
Definition xor3 (a b c : Z) : Z := Z.lxor (Z.lxor a b) c.

Definition ch (x y z : Z) : Z := Z.lxor (Z.land x y) (Z.land (not32 x) z).
Definition maj (x y z : Z) : Z :=
  xor3 (Z.land x y) (Z.land x z) (Z.land y z).
Definition bsig0 (x : Z) : Z := xor3 (rotr 2 x) (rotr 13 x) (rotr 22 x).
Definition bsig1 (x : Z) : Z := xor3 (rotr 6 x) (rotr 11 x) (rotr 25 x).
Definition ssig0 (x : Z) : Z := xor3 (rotr 7 x) (rotr 18 x) (shr 3 x).
Definition ssig1 (x : Z) : Z := xor3 (rotr 17 x) (rotr 19 x) (shr 10 x).

(** The round constants and the initial hash value, in decimal. *)
Definition K : list Z :=
  [
    1116352408; 1899447441; 3049323471; 3921009573; 961987163; 1508970993;
    2453635748; 2870763221; 3624381080; 310598401; 607225278; 1426881987;
    1925078388; 2162078206; 2614888103; 3248222580; 3835390401; 4022224774;
    264347078; 604807628; 770255983; 1249150122; 1555081692; 1996064986;
    2554220882; 2821834349; 2952996808; 3210313671; 3336571891; 3584528711;
    113926993; 338241895; 666307205; 773529912; 1294757372; 1396182291;
    1695183700; 1986661051; 2177026350; 2456956037; 2730485921; 2820302411;
    3259730800; 3345764771; 3516065817; 3600352804; 4094571909; 275423344;
    430227734; 506948616; 659060556; 883997877; 958139571; 1322822218;
    1537002063; 1747873779; 1955562222; 2024104815; 2227730452; 2361852424;
    2428436474; 2756734187; 3204031479; 3329325298 ].

Definition H0 : list Z :=
  [
    1779033703; 3144134277; 1013904242; 2773480762; 1359893119; 2600822924;
    528734635; 1541459225 ].

(** The bytes of a string, each in [0, 256). *)
Fixpoint bytesOf (s : string) : list Z :=
  match s with
  | EmptyString => []
  | String a rest => Z.of_nat (nat_of_ascii a) :: bytesOf rest
  end.

(** Big-endian bytes of [x], [n] of them. *)
Fixpoint bigEndian (n : nat) (x : Z) : list Z :=
  match n with
  | O => []
  | S k => (Z.shiftr x (8 * Z.of_nat k)) mod 256 :: bigEndian k x
  end.

(** Padding: a one bit, zeros up to 56 mod 64, then the bit length. *)
Definition pad (msg : list Z) : list Z :=
  let len := Z.of_nat (length msg) in
  let zeros := Z.to_nat ((55 - len) mod 64) in
  msg ++ [0x80] ++ repeat 0 zeros ++ bigEndian 8 (8 * len).

(** Big-endian 32-bit words of a byte sequence. *)
Fixpoint wordsOf (fuel : nat) (bs : list Z) : list Z :=
  match fuel, bs with
  | S k, b0 :: b1 :: b2 :: b3 :: rest =>
      (((b0 * 256 + b1) * 256 + b2) * 256 + b3) :: wordsOf k rest
  | _, _ => []
  end.

(** Blocks of sixteen words. *)
Fixpoint blocksOf (fuel : nat) (ws : list Z) : list (list Z) :=
  match fuel, ws with
  | S k, _ :: _ => firstn 16 ws :: blocksOf k (skipn 16 ws)
  | _, _ => []
  end.

(** The message schedule, most recent word first while it is extended. *)
Fixpoint extend (n : nat) (revW : list Z) : list Z :=
  match n with
  | O => revW
  | S k =>
      let w := add32 (add32 (ssig1 (nth 1 revW 0)) (nth 6 revW 0))
                     (add32 (ssig0 (nth 14 revW 0)) (nth 15 revW 0)) in
      extend k (w :: revW)
  end.

Definition schedule (block : list Z) : list Z :=
  List.rev (extend 48 (List.rev block)).

Record Regs := { ra : Z; rb : Z; rc : Z; rd : Z; re : Z; rf : Z; rg : Z; rh : Z }.

Definition round (r : Regs) (kw : Z * Z) : Regs :=
  let t1 := add32 (add32 (add32 (rh r) (bsig1 (re r)))
                         (add32 (ch (re r) (rf r) (rg r)) (fst kw)))
                  (snd kw) in
  let t2 := add32 (bsig0 (ra r)) (maj (ra r) (rb r) (rc r)) in
  {| ra := add32 t1 t2; rb := ra r; rc := rb r; rd := rc r;
     re := add32 (rd r) t1; rf := re r; rg := rf r; rh := rg r |}.

Definition regsOf (h : list Z) : Regs :=
  {| ra := nth 0 h 0; rb := nth 1 h 0; rc := nth 2 h 0; rd := nth 3 h 0;
     re := nth 4 h 0; rf := nth 5 h 0; rg := nth 6 h 0; rh := nth 7 h 0 |}.

Definition listOf (r : Regs) : list Z :=
  [ra r; rb r; rc r; rd r; re r; rf r; rg r; rh r].

Definition compress (h : list Z) (block : list Z) : list Z :=
  let r := fold_left round (combine K (schedule block)) (regsOf h) in
  List.map (fun p : Z * Z => add32 (fst p) (snd p)) (combine h (listOf r)).

(** The digest as eight words. *)
Definition digestWords (msg : list Z) : list Z :=
  let padded := pad msg in
  let ws := wordsOf (length padded) padded in
  fold_left compress (blocksOf (length ws) ws) H0.

(** The digest as a 256-bit number, big-endian. *)
Definition digest (s : string) : Z :=
  fold_left (fun acc w => acc * 2 ^ 32 + w) (digestWords (bytesOf s)) 0.

Definition hexDigit (d : Z) : ascii :=
  if d <? 10 then ascii_of_nat (Z.to_nat (48 + d))
  else ascii_of_nat (Z.to_nat (87 + d)).

(** Lower-case hexadecimal, [n] digits. *)
Fixpoint hex (n : nat) (x : Z) : string :=
  match n with
  | O => EmptyString
  | S k => String (hexDigit ((Z.shiftr x (4 * Z.of_nat k)) mod 16)) (hex k x)
  end.



End Sha256.

(* ===================================================================== *)
(** ** Data of the bot *)
(* ===================================================================== *)

Definition nl : string := String (ascii_of_nat 10) EmptyString.

Definition ChatId := Z.
Definition MsgId := Z.

(** A thrown JavaScript error carries its [message]. *)
Inductive Result (A : Type) : Type :=
| Ok (a : A)
| Throw (message : string).
Arguments Ok {A} a.
Arguments Throw {A} message.

(** Inline keyboard buttons: [{t, d}] (callback data) or [{t, web_app}]. *)
Inductive Button : Type :=
| Btn (t d : string)
| WebBtn (t url : string).

Definition Keyboard := list (list Button).

(** [STOP_KEYBOARD] *)
Definition STOP_KEYBOARD : Keyboard := [[Btn "⏹️ Stop" "stop:go"]].

(** The value the balance checker stores per address: [{balance, api}].
    Balances are integers (satoshi units). *)
Record BalanceRecord := { balance : Z; api : string }.

(** A JavaScript [Map] from address to record, in insertion order. *)
Definition BalanceMap := list (string * BalanceRecord).

(** [map.set(k, v)]: overwrite in place, or append. *)
Fixpoint mapSet (m : BalanceMap) (k : string) (v : BalanceRecord) : BalanceMap :=
  match m with
  | [] => [(k, v)]
  | (k', v') :: rest =>
      if String.eqb k' k then (k', v) :: rest else (k', v') :: mapSet rest k v
  end.

(** [[...new Set(xs)]]: first occurrences, in order. *)
Fixpoint dedupeAcc (seen xs : list string) : list string :=
  match xs with
  | [] => []
  | x :: rest =>
      if existsb (String.eqb x) seen then dedupeAcc seen rest
      else x :: dedupeAcc (x :: seen) rest
  end.
Definition dedupe (xs : list string) : list string := dedupeAcc [] xs.

(** What [bitcoin.deriveBrainWallet] returns. *)
Record Addresses := {
  legacy_compressed : string;
  legacy_uncompressed : string;
  segwit : string;
  nativeSegwit : string
}.

Record BrainResult := {
  privateKey : string;
  wifCompressed : string;
  wifUncompressed : string;
  addresses : Addresses
}.

(** What [bitcoin.deriveRepeatedWordSeed] returns: [pathResults] is an
    object from path name to the per-index entries, in key order. *)
Record SeedAddr := {
  index : nat;
  path : string;
  legacy : string;
  seedNativeSegwit : string;
  wif : option string
}.

Record SeedResult := { pathResults : list (string * list SeedAddr) }.

(** One entry of [derivationDetails] in [handleWordCheck]. *)
Inductive DetailResult : Type :=
| BrainDetail (r : BrainResult)
| SeedDetail (r : SeedResult).

Record Detail := { mode : string; variant : string; result : DetailResult }.

(** [settings.getExplorerApiKeys(chatId)] *)
Record ExplorerKeys := {
  blockchain_key : option string;
  blockcypher_key : option string;
  blockstream_key : option string
}.

(** The settings the handlers read with [settings.get(chatId, key)]. *)
Record Settings := {
  variations : bool;
  var_depth : string;
  brain : bool;
  bip39 : bool;
  repeats : list nat;
  paths : list string;
  indices : nat;
  api_pref : string;            (* key 'api' *)
  ai_provider : string;
  auto_topic : bool;
  batch_limit : nat;
  preferred_api : option string;
  max_addresses : option nat;
  explorerApiKeys : ExplorerKeys
}.

(** [CachedWordResult] of lib/session. *)
Record CachedWordResult := {
  hasBalance : bool;
  balanceTotal : Z;
  addressCount : nat
}.

(** What one [checkBalances] call does, seen from its caller: the
    [onProgress] invocations it makes (each with the value [Date.now()]
    has at that moment, and its two arguments), and how its promise
    settles. *)
Record OracleReply := {
  progress : list (Z * (nat * nat));
  outcome : Result BalanceMap
}.

(** The state a handler runs in: the module-level flags of bot.js, the
    global word cache of lib/session, and what the outside will do while
    the handler runs: how the balance checker answers its n-th query
    (for the address list it is given), and, for each suspension point
    ([await]) still to come, whether the polling loop processes a stop
    request during it. *)
Record World := {
  stopCurrentBatch : bool;
  longRunning : bool;
  testNotifyMode : bool;
  wordCache : gmap string CachedWordResult;
  oracleCalls : nat;
  checkBalancesReply : nat -> list string -> OracleReply;
  hasAnyBalanceReply : nat -> list string -> Result bool;
  incoming : list bool
}.

Definition setStop (b : bool) (w : World) : World :=
  {| stopCurrentBatch := b; longRunning := longRunning w;
     testNotifyMode := testNotifyMode w; wordCache := wordCache w;
     oracleCalls := oracleCalls w;
     checkBalancesReply := checkBalancesReply w;
     hasAnyBalanceReply := hasAnyBalanceReply w; incoming := incoming w |}.

Definition setLongRunning (b : bool) (w : World) : World :=
  {| stopCurrentBatch := stopCurrentBatch w; longRunning := b;
     testNotifyMode := testNotifyMode w; wordCache := wordCache w;
     oracleCalls := oracleCalls w;
     checkBalancesReply := checkBalancesReply w;
     hasAnyBalanceReply := hasAnyBalanceReply w; incoming := incoming w |}.

Definition setTestNotifyMode (b : bool) (w : World) : World :=
  {| stopCurrentBatch := stopCurrentBatch w; longRunning := longRunning w;
     testNotifyMode := b; wordCache := wordCache w;
     oracleCalls := oracleCalls w;
     checkBalancesReply := checkBalancesReply w;
     hasAnyBalanceReply := hasAnyBalanceReply w; incoming := incoming w |}.

Definition setWordCache (c : gmap string CachedWordResult) (w : World) : World :=
  {| stopCurrentBatch := stopCurrentBatch w; longRunning := longRunning w;
     testNotifyMode := testNotifyMode w; wordCache := c;
     oracleCalls := oracleCalls w;
     checkBalancesReply := checkBalancesReply w;
     hasAnyBalanceReply := hasAnyBalanceReply w; incoming := incoming w |}.

Definition setOracleCalls (n : nat) (w : World) : World :=
  {| stopCurrentBatch := stopCurrentBatch w; longRunning := longRunning w;
     testNotifyMode := testNotifyMode w; wordCache := wordCache w;
     oracleCalls := n;
     checkBalancesReply := checkBalancesReply w;
     hasAnyBalanceReply := hasAnyBalanceReply w; incoming := incoming w |}.

Definition setIncoming (l : list bool) (w : World) : World :=
  {| stopCurrentBatch := stopCurrentBatch w; longRunning := longRunning w;
     testNotifyMode := testNotifyMode w; wordCache := wordCache w;
     oracleCalls := oracleCalls w;
     checkBalancesReply := checkBalancesReply w;
     hasAnyBalanceReply := hasAnyBalanceReply w; incoming := l |}.

(** What a handler does to the outside, in order. *)
Inductive Event : Type :=
| SendMessage (chatId : ChatId) (text : string)
| SendMessageWithKeyboard (chatId : ChatId) (text : string) (keyboard : Keyboard)
| EditMessageText (chatId : ChatId) (messageId : MsgId) (text : string)
                  (keyboard : option Keyboard)
| DeleteMessage (chatId : ChatId) (messageId : MsgId)
| CheckBalances (addrs : list string) (providerPreference : string)
                (maxAddresses : nat) (shouldStop : World -> bool)
                (hasOnProgress : bool) (providerApiKeys : ExplorerKeys)
| HasAnyBalance (addrs : list string) (providerPreference : string)
| CacheWordResult (phrase : string) (hasBal : bool) (balTotal : Z) (addrCount : nat)
| RecordCheck (chatId : ChatId) (word : string) (addrs : list string)
              (balances : list BalanceRecord) (checkMode : string)
| RecordTopicExplored (chatId : ChatId) (topicKey : string)
| RecordTopicFailed (chatId : ChatId) (topicKey : string).

(** Topic data the exploration handler reads. *)
Record TopicInfo := {
  label : string;
  category : option string;
  topicWords : list string
}.

(** What [aiSuggest.getTopicWords] resolves to. *)
Record AIResult := {
  ai_ok : bool;
  ai_words : list string;
  ai_provider_name : string;
  ai_fallbackUsed : bool;
  ai_triedProviders : list string;
  ai_rateLimited : bool;
  ai_error : option string
}.

(* ===================================================================== *)
(** ** Handlers as state transformers with a trace *)
(* ===================================================================== *)

Record Out (A : Type) := {
  value : Result A;
  after : World;
  trace : list Event
}.
Arguments value {A} _.
Arguments after {A} _.
Arguments trace {A} _.

Definition Bot (A : Type) := World -> Out A.

Definition ret {A} (a : A) : Bot A :=
  fun w => {| value := Ok a; after := w; trace := [] |}.

Definition throw {A} (msg : string) : Bot A :=
  fun w => {| value := Throw msg; after := w; trace := [] |}.

Definition bind {A B} (m : Bot A) (k : A -> Bot B) : Bot B :=
  fun w =>
    let o := m w in
    match value o with
    | Ok a =>
        let o' := k a (after o) in
        {| value := value o'; after := after o'; trace := trace o ++ trace o' |}
    | Throw e => {| value := Throw e; after := after o; trace := trace o |}
    end.

Declare Scope bot_scope.
Delimit Scope bot_scope with bot.
Notation "x <- m ;; k" := (bind m (fun x => k))
  (at level 100, m at next level, right associativity) : bot_scope.
Notation "m ;; k" := (bind m (fun _ => k))
  (at level 100, right associativity) : bot_scope.
Local Open Scope bot_scope.

(** Read and write the world. *)
Definition get : Bot World :=
  fun w => {| value := Ok w; after := w; trace := [] |}.
Definition modify (f : World -> World) : Bot unit :=
  fun w => {| value := Ok tt; after := f w; trace := [] |}.
Definition emit (e : Event) : Bot unit :=
  fun w => {| value := Ok tt; after := w; trace := [e] |}.

(** An [await]: the polling loop may run; the only thing it does to a
    running handler is to set [stopCurrentBatch] on a stop request. *)
Definition suspend : Bot unit :=
  modify (fun w =>
    match incoming w with
    | [] => w
    | stopRequested :: rest =>
        setIncoming rest (if stopRequested then setStop true w else w)
    end).

(** [stopCurrentBatch], read now. *)
Definition readStop : Bot bool :=
  fun w => {| value := Ok (stopCurrentBatch w); after := w; trace := [] |}.

(** The libraries under lib/ and the configuration constants. *)
Record Collaborators := {
  TELEGRAM_CHAT_ID : option ChatId;
  WEBAPP_URL : option string;
  (* lib/settings *)
  settings_get : ChatId -> Settings;
  settings_global : Settings;
  (* lib/bitcoin *)
  deriveBrainWallet : string -> Result BrainResult;
  getBrainWalletAddresses : BrainResult -> list string;
  deriveRepeatedWordSeed : string -> nat -> list string -> nat -> Result SeedResult;
  getRepeatedSeedAddresses : SeedResult -> list string;
  isInBIP39Wordlist : string -> bool;
  getBIP39Wordlist : list string;
  fullWordCheck : string -> Settings -> list string;
  (* crypto.randomBytes(32) fed to bitcoin.deriveRawPrivateKey, per draw *)
  deriveRandomKey : nat -> Result BrainResult;
  (* lib/word-engine *)
  generateVariations : string -> string -> list string;
  (* lib/telegram *)
  progressBar : nat -> nat -> string;
  messageId : ChatId -> string -> option MsgId;
  (* lib/topics, lib/ai-suggest: the answer to the n-th AI request *)
  getTopicInfo : string -> option TopicInfo;
  searchTopics : string -> list (string * string);
  getTopicWords : nat -> TopicInfo -> AIResult;
  (* lib/session: fields of the per-chat session object *)
  detectedTopic : ChatId -> option string;
  lastWord : ChatId -> option string;
  keyhuntTotal : ChatId -> nat;
  hasFallbacks : ChatId -> bool;
  (* lib/word-engine: topic detection for a word (text and button rows),
     and the progressive next steps (pivot message and button rows); both
     are computed from topics, history and settings only *)
  topicDetection : ChatId -> string -> string * Keyboard;
  pivotMessage : ChatId -> option string;
  progressiveButtons : ChatId -> Keyboard;
  (* "Feeling Lucky": the size of the session history, the AI pick, and
     the pick made without AI (words and the line naming their source) *)
  checkedWordsCount : ChatId -> nat;
  checkedTopicsCount : ChatId -> nat;
  getLuckyPick : ChatId -> AIResult;
  luckyFallback : ChatId -> list string * string;
  (* Math.random picks *)
  randomFluff : string;
  randomEncouragement : string;
  (* number formatting *)
  (* lib/session, lib/word-engine: word lists for the batch wrappers *)
  sessionState : ChatId -> string;
  smartWords : ChatId -> list string;
  aiSuggestionWords : ChatId -> option (list string);
  interviewExtracted : ChatId -> list string;
  randomBatch : ChatId -> list string * bool;
  oldContextValue : ChatId -> string -> option string;
  (* the handlers of bot.js that only show menus, settings, help,
     history, memory prompts, interviews or AI suggestions, by name *)
  orchestration : string -> ChatId -> string -> World -> Out unit;
  encodeURIComponent : string -> string;
  showBtc : Z -> string;
  toLocaleString : nat -> string
}.

Definition dq : string := String (ascii_of_nat 34) EmptyString.

Section Bot.

Variable E : Collaborators.

(* ------------------------------------------------------------------- *)
(** *** lib/telegram calls *)
(* ------------------------------------------------------------------- *)

(** Each call is recorded when it is issued.  An awaited call is a
    suspension point; [.catch(() => {})] calls that are not awaited
    are only recorded. *)

Definition sendMessage (chatId : ChatId) (text : string) : Bot (option MsgId) :=
  emit (SendMessage chatId text) ;;
  suspend ;;
  ret (messageId E chatId text).

Definition sendMessageWithKeyboard (chatId : ChatId) (text : string)
    (kb : Keyboard) : Bot (option MsgId) :=
  emit (SendMessageWithKeyboard chatId text kb) ;;
  suspend ;;
  ret (messageId E chatId text).

Definition editMessageText (chatId : ChatId) (id : MsgId) (text : string)
    (kb : option Keyboard) : Bot unit :=
  emit (EditMessageText chatId id text kb) ;;
  suspend.

Definition deleteMessage (chatId : ChatId) (id : MsgId) : Bot unit :=
  emit (DeleteMessage chatId id) ;;
  suspend.

(** [if (id) await telegram.deleteMessage(chatId, id)] *)
Definition deleteIfSent (chatId : ChatId) (id : option MsgId) : Bot unit :=
  match id with
  | Some i => deleteMessage chatId i
  | None => ret tt
  end.

(* ------------------------------------------------------------------- *)
(** *** lib/session: the global word cache *)
(* ------------------------------------------------------------------- *)

(** Modelled from the spec: lib/session is not among the sources.  The
    cache is keyed by the normalized phrase (case and surrounding
    whitespace), [cacheWordResult] is an upsert that overwrites the
    earlier summary, and the size is the number of distinct phrases
    recorded. *)
Definition normalizePhrase (phrase : string) : string :=
  Js.toLowerCase (Js.trim phrase).

(** Modelled from the spec: [getCachedWordResult(phrase)] is the record
    stored under the normalized phrase, or absent. *)
Definition getCachedWordResult (phrase : string) : Bot (option CachedWordResult) :=
  fun w => {| value := Ok (wordCache w !! normalizePhrase phrase);
              after := w; trace := [] |}.

(** Modelled from the spec: [cacheWordResult(phrase, hasBalance,
    balanceTotal, addressCount)] is an upsert; the call itself is an
    event of the trace. *)
Definition cacheWordResult (phrase : string) (hasBal : bool) (total : Z)
    (count : nat) : Bot unit :=
  emit (CacheWordResult phrase hasBal total count) ;;
  modify (fun w =>
    setWordCache
      (<[ normalizePhrase phrase :=
            {| hasBalance := hasBal; balanceTotal := total;
               addressCount := count |} ]> (wordCache w)) w).

(** Modelled from the spec: [getWordCacheSize()] is the number of
    distinct phrases recorded. *)
Definition getWordCacheSize : Bot nat :=
  fun w => {| value := Ok (size (wordCache w)); after := w; trace := [] |}.

(** [cached && !cached.hasBalance] *)
Definition knownEmpty (cached : option CachedWordResult) : bool :=
  match cached with
  | Some c => negb (hasBalance c)
  | None => false
  end.

Definition recordCheck (chatId : ChatId) (word : string) (addrs : list string)
    (balances : list BalanceRecord) (checkMode : string) : Bot unit :=
  emit (RecordCheck chatId word addrs balances checkMode).

(* ------------------------------------------------------------------- *)
(** *** lib/balance-checker calls *)
(* ------------------------------------------------------------------- *)

(** An [onProgress] closure: from the closed-over time of the last edit
    and one invocation ([Date.now()], [checked], [total]) to the edits
    issued and the new time of the last edit. *)
Definition ProgressCallback := Z -> Z * (nat * nat) -> list Event * Z.

Fixpoint runProgress (cb : ProgressCallback) (last : Z)
    (calls : list (Z * (nat * nat))) : list Event * Z :=
  match calls with
  | [] => ([], last)
  | c :: rest =>
      let r := cb last c in
      let r' := runProgress cb (snd r) rest in
      (fst r ++ fst r', snd r')
  end.

(** [await balanceChecker.checkBalances(addresses, api, max, shouldStop,
    onProgress, keys)]: the query is recorded with its arguments, the
    callback runs as the checker invokes it, and the caller gets the
    settled promise together with the callback's variable. *)
Definition checkBalances (addrs : list string) (pref : string) (cap : nat)
    (shouldStop : World -> bool) (onProgress : option ProgressCallback)
    (last : Z) (keys : ExplorerKeys) : Bot (Result BalanceMap * Z) :=
  fun w =>
    let reply := checkBalancesReply w (oracleCalls w) addrs in
    let ran := match onProgress with
               | Some cb => runProgress cb last (progress reply)
               | None => ([], last)
               end in
    let o := suspend (setOracleCalls (S (oracleCalls w)) w) in
    {| value := Ok (outcome reply, snd ran);
       after := after o;
       trace := CheckBalances addrs pref cap shouldStop
                  (match onProgress with Some _ => true | None => false end)
                  keys :: fst ran |}.

(** [await balanceChecker.hasAnyBalance(addresses, api)] *)
Definition hasAnyBalance (addrs : list string) (pref : string) : Bot (Result bool) :=
  fun w =>
    let o := suspend (setOracleCalls (S (oracleCalls w)) w) in
    {| value := Ok (hasAnyBalanceReply w (oracleCalls w) addrs);
       after := after o;
       trace := [HasAnyBalance addrs pref] |}.

(** [d.balance > 0] *)
Definition positive (d : BalanceRecord) : bool := 0 <? balance d.

(** [for (const [_, data] of balances) if (data.balance > 0) ...] *)
Definition anyPositive (m : BalanceMap) : bool :=
  existsb (fun e => positive (snd e)) m.

(** [for (const [a, d] of balances) map.set(a, d)] *)
Definition copyInto (m : BalanceMap) (balances : BalanceMap) : BalanceMap :=
  fold_left (fun acc e => mapSet acc (fst e) (snd e)) balances m.

(** The map a handler has filled once its query settled: the entries
    of the returned map, or nothing when the promise was rejected. *)
Definition collected (settled : Result BalanceMap) : BalanceMap :=
  match settled with
  | Ok balances => copyInto [] balances
  | Throw _ => []
  end.

(** The flag a handler has set once its query settled. *)
Definition foundAmong (settled : Result BalanceMap) : bool :=
  match settled with
  | Ok balances => anyPositive balances
  | Throw _ => false
  end.

(* ------------------------------------------------------------------- *)
(** *** isAdmin, notifyAdmin, notifyAdminTestMode *)
(* ------------------------------------------------------------------- *)

Definition isAdmin (chatId : ChatId) : bool :=
  match TELEGRAM_CHAT_ID E with
  | Some admin => Z.eqb chatId admin
  | None => false
  end.

(** [addrs[0].wif || 'N/A'] *)
Definition wifOrNA (a : SeedAddr) : string :=
  match wif a with
  | Some s => if String.eqb s EmptyString then "N/A" else s
  | None => "N/A"
  end.

(** The BIP39 part of the alert: one block per repeat count whose seed
    derivation does not throw. *)
Definition seedKeysText (word : string) : string :=
  String.concat EmptyString
    (List.map
       (fun count =>
          match deriveRepeatedWordSeed E word count (paths (settings_global E)) 1 with
          | Ok seedResult =>
              "🌱 <b>BIP39 " +:+ Js.showNat count +:+ "x Seed Keys:</b>" +:+ nl +:+
              String.concat EmptyString
                (List.map
                   (fun pa : string * list SeedAddr =>
                      match snd pa with
                      | a0 :: _ =>
                          "  " +:+ fst pa +:+ "/0: <code>" +:+ wifOrNA a0 +:+
                          "</code>" +:+ nl
                      | [] => EmptyString
                      end)
                   (pathResults seedResult)) +:+
              nl
          | Throw _ => EmptyString
          end)
       (repeats (settings_global E))).

Definition foundEntryText (e : string * BalanceRecord) : string :=
  "🏦 <code>" +:+ fst e +:+ "</code>" +:+ nl +:+
  "   💰 <b>" +:+ Js.showZ (balance (snd e)) +:+ " BTC</b>" +:+ nl +:+ nl.

Definition brainKeysText (brainResult : BrainResult) : string :=
  "🧠 <b>Brain Wallet Keys:</b>" +:+ nl +:+
  "  Hex: <code>" +:+ privateKey brainResult +:+ "</code>" +:+ nl +:+
  "  WIF (c): <code>" +:+ wifCompressed brainResult +:+ "</code>" +:+ nl +:+
  "  WIF (u): <code>" +:+ wifUncompressed brainResult +:+ "</code>" +:+ nl +:+ nl.

Definition allAddressesText (brainResult : BrainResult) : string :=
  "🏠 <b>All Addresses:</b>" +:+ nl +:+
  "  Legacy (c): <code>" +:+ legacy_compressed (addresses brainResult) +:+ "</code>" +:+ nl +:+
  "  Legacy (u): <code>" +:+ legacy_uncompressed (addresses brainResult) +:+ "</code>" +:+ nl +:+
  "  SegWit: <code>" +:+ segwit (addresses brainResult) +:+ "</code>" +:+ nl +:+
  "  Native: <code>" +:+ nativeSegwit (addresses brainResult) +:+ "</code>" +:+ nl.

(** The text [notifyAdmin] assembles. *)
Definition notifyAdminText (word : string) (entries : BalanceMap)
    (brainResult : BrainResult) (mode_ : string) : string :=
  "🚨🚨🚨 <b>BALANCE FOUND</b> 🚨🚨🚨" +:+ nl +:+ nl +:+
  "🔑 Word: <code>" +:+ escHtml word +:+ "</code>" +:+ nl +:+
  "🛠️ Mode: " +:+ mode_ +:+ nl +:+ nl +:+
  String.concat EmptyString (List.map foundEntryText entries) +:+
  brainKeysText brainResult +:+
  seedKeysText word +:+
  allAddressesText brainResult.

(** [notifyAdmin(word, balanceResults, mode)].  Every failure inside
    is caught and logged. *)
Definition notifyAdmin (word : string) (balanceResults : BalanceMap)
    (mode_ : string) : Bot unit :=
  match TELEGRAM_CHAT_ID E with
  | None => ret tt
  | Some admin =>
      let entries := List.filter (fun e => positive (snd e)) balanceResults in
      match entries with
      | [] => ret tt
      | _ :: _ =>
          match deriveBrainWallet E word with
          | Throw _ => ret tt
          | Ok brainResult =>
              sendMessage admin (notifyAdminText word entries brainResult mode_) ;;
              ret tt
          end
      end
  end.

Definition testModeEntryText (e : string * BalanceRecord) : string :=
  "  <code>" +:+ Js.sliceTo 20 (fst e) +:+ "...</code> ‚Äî " +:+
  (if positive (snd e) then "⚠️ " +:+ Js.showZ (balance (snd e)) +:+ " BTC"
   else "0 BTC") +:+ nl.

Definition notifyAdminTestModeText (word : string) (entries : BalanceMap)
    (brainResult : BrainResult) (userChatId : ChatId) (mode_ : string) : string :=
  let withBalance := List.filter (fun e => positive (snd e)) entries in
  let shown := firstn 6 entries in
  "🧪 <b>[TEST MODE] Word checked by user " +:+ Js.showZ userChatId +:+ "</b>" +:+ nl +:+
  "🔑 Word: <code>" +:+ escHtml word +:+ "</code>" +:+ nl +:+
  "🛠️ Mode: " +:+ mode_ +:+ nl +:+
  "💰 Balance found: " +:+
  (match withBalance with
   | _ :: _ => "✅ YES (" +:+ Js.showNat (length withBalance) +:+ " addresses)"
   | [] => "❌ NO"
   end) +:+ nl +:+ nl +:+
  (match shown with
   | [] => EmptyString
   | _ :: _ =>
       "🏦 <b>Addresses checked:</b>" +:+ nl +:+
       String.concat EmptyString (List.map testModeEntryText shown) +:+
       (if Nat.ltb 6 (length entries)
        then "  <i>...and " +:+ Js.showNat (length entries - 6) +:+ " more</i>" +:+ nl
        else EmptyString) +:+
       nl
   end) +:+
  "🧠 <b>Brain Wallet Keys:</b>" +:+ nl +:+
  "  WIF (c): <code>" +:+ wifCompressed brainResult +:+ "</code>" +:+ nl +:+ nl +:+
  "<i>This is a test mode preview. Real alerts only send when balance > 0.</i>".

(** [notifyAdminTestMode(word, balanceResults, userChatId, mode)] *)
Definition notifyAdminTestMode (word : string) (balanceResults : BalanceMap)
    (userChatId : ChatId) (mode_ : string) : Bot unit :=
  w <- get ;;
  match TELEGRAM_CHAT_ID E with
  | None => ret tt
  | Some admin =>
      if negb (testNotifyMode w) then ret tt
      else if isAdmin userChatId then ret tt
      else
        match deriveBrainWallet E word with
        | Throw _ => ret tt
        | Ok brainResult =>
            sendMessage admin
              (notifyAdminTestModeText word balanceResults brainResult
                 userChatId mode_) ;;
            ret tt
        end
  end.

(* ------------------------------------------------------------------- *)
(** *** Web-app rows and hints *)
(* ------------------------------------------------------------------- *)

(** [webCheckerRow(url, label)] *)
Definition webCheckerRow (url : option string) (label_ : string) : Keyboard :=
  let finalUrl := match url with Some u => Some u | None => WEBAPP_URL E end in
  match finalUrl with
  | Some u => [[WebBtn label_ u]]
  | None => []
  end.

(** [webWordUrl(word, mode)] *)
Definition webWordUrl (word mode_ : string) : option string :=
  match WEBAPP_URL E with
  | None => None
  | Some base =>
      Some (base +:+ "?word=" +:+ encodeURIComponent E word +:+ "&mode=" +:+ mode_)
  end.

(** [webWordsUrl(words, mode)] *)
Definition webWordsUrl (words : list string) (mode_ : string) : option string :=
  match WEBAPP_URL E, words with
  | Some base, _ :: _ =>
      Some (base +:+ "?words=" +:+
            encodeURIComponent E (Js.join nl (firstn 40 words)) +:+
            "&mode=" +:+ mode_ +:+ "&tab=batch")
  | _, _ => None
  end.

(** [sendWebHint(chatId, url)]: fire and forget. *)
Definition sendWebHint (chatId : ChatId) (url : option string) : Bot unit :=
  match url with
  | None => ret tt
  | Some u =>
      emit (SendMessageWithKeyboard chatId
              "‚ö° <i>Too slow or getting rate limited? Run the same check in your browser ‚Äî no bot needed.</i>"
              [[WebBtn "üåê Open in Web App" u]])
  end.

(* ------------------------------------------------------------------- *)
(** *** buildResultsMessage *)
(* ------------------------------------------------------------------- *)

Definition detailText (detail : Detail) : string :=
  "🛠️ <b>" +:+ mode detail +:+ ":</b>" +:+ nl +:+
  match result detail with
  | BrainDetail r =>
      "  🏛️ Legacy: <code>" +:+ Js.sliceTo 16 (legacy_compressed (addresses r)) +:+
      "...</code>" +:+ nl +:+
      "  🔵 Native: <code>" +:+ Js.sliceTo 20 (nativeSegwit (addresses r)) +:+
      "...</code>" +:+ nl
  | SeedDetail r =>
      match pathResults r with
      | (_, firstAddr :: _) :: _ =>
          "  📍 " +:+ path firstAddr +:+ ": <code>" +:+
          Js.sliceTo 16 (legacy firstAddr) +:+ "...</code>" +:+ nl
      | _ => EmptyString
      end
  end.

(** [buildResultsMessage(word, varCount, addrCount, details,
    balanceResults, foundBalance)] *)
Definition buildResultsMessage (word : string) (varCount addrCount : nat)
    (details : list Detail) (balanceResults : BalanceMap)
    (foundBalance : bool) : string :=
  let isInBIP39 := isInBIP39Wordlist E word in
  "🔍 <b>Results for " +:+ dq +:+ escHtml word +:+ dq +:+ "</b>" +:+ nl +:+
  "🎰 " +:+ Js.showNat varCount +:+ " variations • 🏠 " +:+
  Js.showNat addrCount +:+ " addresses" +:+ nl +:+ nl +:+
  "📖 BIP39 wordlist: " +:+ (if isInBIP39 then "✅ YES" else "❌ NO") +:+ nl +:+
  (if isInBIP39 then EmptyString
   else "   <i>(PBKDF2 still processes it as a seed)</i>" +:+ nl) +:+
  nl +:+
  String.concat EmptyString (List.map detailText (firstn 2 details)) +:+
  nl +:+ "💰 <b>Balances:</b>" +:+ nl +:+
  "  ❌ All 0 BTC" +:+ nl.

(* ------------------------------------------------------------------- *)
(** *** handleWordCheck *)
(* ------------------------------------------------------------------- *)

(** The three accumulators of the derivation loop. *)
Record Derived := {
  allAddresses : list string;
  derivationDetails : list Detail;
  checkedVariants : nat
}.

(** [variant === word.toLowerCase() || variant === word] *)
Definition isBaseVariant (variant word : string) : bool :=
  (String.eqb variant (Js.toLowerCase word) || String.eqb variant word)%bool.

(** The BIP39 part of one loop iteration. *)
Definition deriveSeeds (st : Settings) (word variant : string) (s : Derived) : Derived :=
  fold_left
    (fun acc count =>
       match deriveRepeatedWordSeed E variant count (paths st) (indices st) with
       | Ok seedResult =>
           {| allAddresses := allAddresses acc ++ getRepeatedSeedAddresses E seedResult;
              derivationDetails :=
                if isBaseVariant variant word
                then derivationDetails acc ++
                     [{| mode := "BIP39 " +:+ Js.showNat count +:+ "x";
                         variant := variant; result := SeedDetail seedResult |}]
                else derivationDetails acc;
              checkedVariants := checkedVariants acc |}
       | Throw _ => acc
       end)
    (repeats st) s.

(** The brain-wallet part of one loop iteration. *)
Definition deriveBrain (word variant : string) (s : Derived) : Derived :=
  match deriveBrainWallet E variant with
  | Ok brainResult =>
      {| allAddresses := allAddresses s ++ getBrainWalletAddresses E brainResult;
         derivationDetails :=
           if isBaseVariant variant word
           then derivationDetails s ++
                [{| mode := "Brain Wallet"; variant := variant;
                    result := BrainDetail brainResult |}]
           else derivationDetails s;
         checkedVariants := checkedVariants s |}
  | Throw _ => s
  end.

Definition deriveVariant (st : Settings) (word variant : string) (s : Derived) : Derived :=
  let s1 := if bip39 st then deriveSeeds st word variant s else s in
  let s2 := if brain st then deriveBrain word variant s1 else s1 in
  {| allAddresses := allAddresses s2;
     derivationDetails := derivationDetails s2;
     checkedVariants := S (checkedVariants s2) |}.

Definition derivingText (word : string) (checked_ total : nat) (nAddr : nat) : string :=
  "🔍 <b>Checking " +:+ dq +:+ escHtml word +:+ dq +:+ "</b>" +:+ nl +:+ nl +:+
  progressBar E checked_ total +:+ " variations" +:+ nl +:+
  "🏠 " +:+ Js.showNat nAddr +:+ " addresses generated".

(** [for (const variant of variations)] with its [break] on the stop
    flag and its awaited status edit every tenth variant. *)
Fixpoint deriveLoop (chatId : ChatId) (st : Settings) (word : string)
    (statusMsgId : option MsgId) (total : nat) (variants : list string)
    (s : Derived) : Bot Derived :=
  match variants with
  | [] => ret s
  | variant :: rest =>
      stop <- readStop ;;
      if stop then ret s
      else
        let s' := deriveVariant st word variant s in
        (match statusMsgId with
         | Some id =>
             if Nat.eqb (Nat.modulo (checkedVariants s') 10) 0
             then editMessageText chatId id
                    (derivingText word (checkedVariants s') total
                       (length (allAddresses s')))
                    (Some STOP_KEYBOARD)
             else ret tt
         | None => ret tt
         end) ;;
        deriveLoop chatId st word statusMsgId total rest s'
  end.

Definition checkingText (st : Settings) (word : string) (nVar : nat) : string :=
  "🔍 <b>Checking " +:+ dq +:+ escHtml word +:+ dq +:+ "</b>" +:+ nl +:+ nl +:+
  "🎰 " +:+ Js.showNat nVar +:+ " variations to test" +:+ nl +:+
  "🛠️ " +:+ (if bip39 st then "BIP39 Seed" else EmptyString) +:+
  (if (bip39 st && brain st)%bool then " + " else EmptyString) +:+
  (if brain st then "Brain Wallet" else EmptyString) +:+ nl +:+
  "🔁 Repeats: " +:+ Js.join "x, " (List.map Js.showNat (repeats st)) +:+
  "x | 📍 Paths: " +:+ Js.showNat (length (paths st)) +:+
  " | 🔢 Indices: " +:+ Js.showNat (indices st).

Definition derivedText (word : string) (nVar nAddr : nat) : string :=
  "🔍 <b>" +:+ dq +:+ escHtml word +:+ dq +:+ "</b> — " +:+ Js.showNat nVar +:+
  " variations done" +:+ nl +:+
  "🏠 " +:+ Js.showNat nAddr +:+ " unique addresses" +:+ nl +:+
  "🌐 Checking balances (top 50)...".

Definition balanceProgressText (word : string) (nVar nAddr checked_ total : nat) : string :=
  "🔍 <b>" +:+ dq +:+ escHtml word +:+ dq +:+ "</b> — " +:+ Js.showNat nVar +:+
  " variations" +:+ nl +:+
  "🏠 " +:+ Js.showNat nAddr +:+ " unique addresses" +:+ nl +:+
  "🌐 Checking balances: " +:+ Js.showNat checked_ +:+ "/" +:+ Js.showNat total.

(** The [onProgress] closure of [handleWordCheck]; [last] is its
    [lastWordProgress]. *)
Definition handleWordCheck_onProgress (chatId : ChatId) (statusMsgId : option MsgId)
    (word : string) (nVar nAddr : nat) : ProgressCallback :=
  fun last call =>
    let now := fst call in
    match statusMsgId with
    | Some id =>
        if now - last <? 2000 then ([], last)
        else ([EditMessageText chatId id
                 (balanceProgressText word nVar nAddr (fst (snd call)) (snd (snd call)))
                 (Some STOP_KEYBOARD)],
              now)
    | None => ([], last)
    end.

(** [balanceResults.values().reduce((s, b) => s + (b?.balance || 0), 0)] *)
Definition sumBalances (m : BalanceMap) : Z :=
  fold_left (fun s e => s + balance (snd e)) m 0.

Definition wordCheckButtons (chatId : ChatId) (word : string) : Keyboard :=
  let st := settings_get E chatId in
  ([Btn "🔍 Deep Scan" ("deep:" +:+ word); Btn "🔑 Keys" ("keys:" +:+ word)] ++
   (if String.eqb (ai_provider st) "none" then []
    else [Btn "🤖 AI" ("aisuggest:" +:+ word)])) ::
  webCheckerRow
    (webWordUrl word (if String.eqb (api_pref st) "bip39" then "bip39" else "brainwallet"))
    "üåê Try in Web App (faster)" ++
  [[Btn "🏠 Menu" "menu:main"]].

(** The balance query of [handleWordCheck] and what follows it inside
    the [else] branch: the results are copied into [balanceResults],
    a rejected promise is caught and logged, and the outcome is cached
    and recorded either way. *)
Definition checkAndCache (chatId : ChatId) (st : Settings) (word : string)
    (statusMsgId : option MsgId) (nVar : nat) (addrs : list string)
    : Bot (BalanceMap * bool) :=
  r <- checkBalances addrs (api_pref st) 50 (fun w => stopCurrentBatch w)
         (Some (handleWordCheck_onProgress chatId statusMsgId word nVar (length addrs)))
         0 (explorerApiKeys st) ;;
  let balanceResults := collected (fst r) in
  let foundBalance := foundAmong (fst r) in
  cacheWordResult word foundBalance (sumBalances balanceResults) (length addrs) ;;
  recordCheck chatId word addrs (List.map snd balanceResults) "full" ;;
  ret (balanceResults, foundBalance).

(** The body of [handleWordCheck(chatId, word)], for the settings [st]
    in force.  The fields of the session object it sets ([state],
    [lastWord], [lastResults], the detected topic) are not part of the
    model. *)
Definition wordCheck (st : Settings) (chatId : ChatId) (word : string) : Bot unit :=
  let variations_ :=
    if variations st then generateVariations E word (var_depth st) else [word] in
  let nVar := length variations_ in
  statusMsgId <- sendMessageWithKeyboard chatId (checkingText st word nVar) STOP_KEYBOARD ;;
  d <- deriveLoop chatId st word statusMsgId nVar variations_
         {| allAddresses := []; derivationDetails := []; checkedVariants := O |} ;;
  let addrs := dedupe (allAddresses d) in
  stopped <- readStop ;;
  found <-
    (if stopped then ret ([], false)
     else
       (match statusMsgId with
        | Some id =>
            editMessageText chatId id (derivedText word nVar (length addrs))
              (Some STOP_KEYBOARD)
        | None => ret tt
        end) ;;
       cached <- getCachedWordResult word ;;
       if knownEmpty cached
       then recordCheck chatId word addrs [] "full_cached" ;; ret ([], false)
       else checkAndCache chatId st word statusMsgId nVar addrs) ;;
  let balanceResults := fst found in
  let foundBalance := snd found in
  let resultText :=
    buildResultsMessage word nVar (length addrs) (derivationDetails d)
      balanceResults foundBalance in
  let topic := topicDetection E chatId word in
  deleteIfSent chatId statusMsgId ;;
  sendMessageWithKeyboard chatId (resultText +:+ fst topic)
    (snd topic ++ wordCheckButtons chatId word) ;;
  (if foundBalance then notifyAdmin word balanceResults "word_check" else ret tt) ;;
  notifyAdminTestMode word balanceResults chatId "word_check".

Definition handleWordCheck (chatId : ChatId) (word : string) : Bot unit :=
  wordCheck (settings_get E chatId) chatId word.

(** [handleDeepCheck(chatId, word)]: the same check with [var_depth]
    set to ['extreme'] for its duration. *)
Definition setVarDepth (d : string) (st : Settings) : Settings :=
  {| variations := variations st; var_depth := d; brain := brain st;
     bip39 := bip39 st; repeats := repeats st; paths := paths st;
     indices := indices st; api_pref := api_pref st;
     ai_provider := ai_provider st; auto_topic := auto_topic st;
     batch_limit := batch_limit st; preferred_api := preferred_api st;
     max_addresses := max_addresses st;
     explorerApiKeys := explorerApiKeys st |}.

Definition handleDeepCheck (chatId : ChatId) (word : string) : Bot unit :=
  sendMessage chatId
    ("🔍 <b>Deep scan</b> on " +:+ dq +:+ escHtml word +:+ dq +:+
     " with extreme variations...") ;;
  wordCheck (setVarDepth "extreme" (settings_get E chatId)) chatId word.


(* ------------------------------------------------------------------- *)
(** *** handleBrainWallet *)
(* ------------------------------------------------------------------- *)

(** One line of [balanceText] per entry of the returned map. *)
Definition brainBalanceLine (e : string * BalanceRecord) : string :=
  "  ⚪ " +:+ Js.sliceTo 8 (fst e) +:+ "..." +:+ Js.sliceLast 6 (fst e) +:+
  ": 0 BTC" +:+ nl.

Definition brainWalletText (phrase : string) (r : BrainResult)
    (balanceText : string) : string :=
  "🧠 <b>Brain Wallet</b>: " +:+ dq +:+ escHtml phrase +:+ dq +:+ nl +:+
  "🔐 SHA256 → <code>" +:+ Js.sliceTo 16 (privateKey r) +:+ "...</code>" +:+ nl +:+ nl +:+
  "🏠 <b>Addresses:</b>" +:+ nl +:+
  "  🏛️ Legacy (c): <code>" +:+ legacy_compressed (addresses r) +:+ "</code>" +:+ nl +:+
  "  🟢 SegWit:     <code>" +:+ segwit (addresses r) +:+ "</code>" +:+ nl +:+
  "  🔵 Native:     <code>" +:+ nativeSegwit (addresses r) +:+ "</code>" +:+ nl +:+
  "  ⚪ Legacy (u): <code>" +:+ legacy_uncompressed (addresses r) +:+ "</code>" +:+ nl +:+ nl +:+
  "💰 <b>Balances:</b>" +:+ nl +:+ balanceText.

(** [phrase.split(' ')[0]] *)
Fixpoint firstWord (s : string) : string :=
  match s with
  | EmptyString => EmptyString
  | String a rest =>
      if Ascii.eqb a " " then EmptyString else String a (firstWord rest)
  end.

(** [handleBrainWallet(chatId, phrase)] *)
Definition handleBrainWallet (chatId : ChatId) (phrase : string) : Bot unit :=
  let st := settings_get E chatId in
  msg <- sendMessage chatId
           ("🧠 Checking brain wallet: " +:+ dq +:+ "<b>" +:+ escHtml phrase +:+
            "</b>" +:+ dq +:+ "...") ;;
  match deriveBrainWallet E phrase with
  | Throw e => throw e
  | Ok r =>
      let addrs := getBrainWalletAddresses E r in
      q <- checkBalances addrs (api_pref st) 50 (fun w => stopCurrentBatch w)
             None 0 (explorerApiKeys st) ;;
      let balanceText :=
        match fst q with
        | Ok balances => String.concat EmptyString (List.map brainBalanceLine balances)
        | Throw e => "  ⚠️ Balance check failed: " +:+ escHtml e
        end in
      let brainBalanceResults := collected (fst q) in
      let brainFoundBalance := foundAmong (fst q) in
      (if brainFoundBalance
       then notifyAdmin phrase brainBalanceResults "brain_wallet"
       else ret tt) ;;
      deleteIfSent chatId msg ;;
      sendMessageWithKeyboard chatId (brainWalletText phrase r balanceText)
        [[Btn "🔑 Show WIF Keys" ("keys:brain:" +:+ Js.sliceTo 50 phrase);
          Btn "🔍 Check Variations" ("deep:" +:+ firstWord phrase)];
         [Btn "🏠 Menu" "menu:main"]] ;;
      recordCheck chatId phrase addrs [] "brain"
  end.

(* ------------------------------------------------------------------- *)
(** *** showAIError *)
(* ------------------------------------------------------------------- *)

Definition showAIError (chatId : ChatId) (res : AIResult)
    (retryCallback : string) : Bot unit :=
  let text :=
    "⚠️ " +:+ escHtml (match ai_error res with Some e => e | None => "undefined" end) +:+
    (if Nat.ltb 1 (length (ai_triedProviders res))
     then nl +:+ nl +:+ "Tried: " +:+ Js.join " → " (ai_triedProviders res)
     else EmptyString) +:+
    (if ai_rateLimited res
     then if hasFallbacks E chatId
          then nl +:+ nl +:+ "💡 All providers rate limited. Add another or wait and retry."
          else nl +:+ nl +:+ "💡 Add a backup AI provider to auto-switch when rate limited."
     else EmptyString) in
  let buttons :=
    (if ai_rateLimited res then [[Btn "➕ Add Backup Provider" "ai_fb_add:start"]] else []) ++
    (if String.eqb retryCallback EmptyString then []
     else [[Btn "🔄 Retry" retryCallback]]) ++
    [[Btn "⚙️ AI Settings" "settings:ai"; Btn "⬅️ Menu" "menu:main"]] in
  sendMessageWithKeyboard chatId text buttons ;;
  ret tt.

(* ------------------------------------------------------------------- *)
(** *** The per-word loops of the multi-word handlers *)
(* ------------------------------------------------------------------- *)

(** An entry of a handler's [results] array. *)
Record WordResult := {
  wr_word : string;
  wr_hasBalance : bool;
  wr_addressCount : nat
}.

(** [`${r.hasBalance ? '💰' : '❌'} ${r.word}`] over [results.slice(-6)] *)
Definition recentLines (sep : string) (results : list WordResult) : string :=
  Js.join sep
    (List.map (fun r => (if wr_hasBalance r then "💰" else "❌") +:+ " " +:+ wr_word r)
       (Js.lastN 6 results)).

(** [cached && !cached.hasBalance] over a word list: the words to check. *)
Fixpoint filterUncached (ws : list string) : Bot (list string) :=
  match ws with
  | [] => ret []
  | w :: rest =>
      cached <- getCachedWordResult w ;;
      rest' <- filterUncached rest ;;
      ret (if knownEmpty cached then rest' else w :: rest')
  end.

(** What the [try] block of a loop body does once the query settled:
    scan for a positive balance, copy the map, notify. *)
Definition afterQuery (chatId : ChatId) (word mode_ : string)
    (settled : Result BalanceMap) : Bot bool :=
  match settled with
  | Ok _ =>
      let hasBal := foundAmong settled in
      let bMap := collected settled in
      (if hasBal then notifyAdmin word bMap mode_ else ret tt) ;;
      notifyAdminTestMode word bMap chatId mode_ ;;
      ret hasBal
  | Throw _ => ret false
  end.

(* ------------------------------------------------------------------- *)
(** *** handleAITopicExpand *)
(* ------------------------------------------------------------------- *)

(** The accumulators of a per-word loop: the [results] array, the
    closed-over time of the last throttled edit, and [foundAny]. *)
Record LoopState := {
  results : list WordResult;
  lastProgress : Z;
  foundAny : bool
}.

Definition doneBlock (rs : list WordResult) : string :=
  match rs with
  | [] => EmptyString
  | _ :: _ => nl +:+ nl +:+ "<b>Done:</b>" +:+ nl +:+ recentLines nl rs
  end.

Definition aiCheckingText (info : TopicInfo) (i n : nat) (word : string)
    (addressCount_ : nat) (rs : list WordResult) : string :=
  "🤖 <b>" +:+ label info +:+ " ‚Äî AI</b>" +:+ nl +:+ nl +:+
  progressBar E i n +:+ nl +:+
  "🔍 <b>" +:+ escHtml word +:+ "</b> ‚Äî checking " +:+
  Js.showNat (Nat.min addressCount_ 50) +:+ " addresses..." +:+
  doneBlock rs.

Definition aiProgressText (info : TopicInfo) (i n : nat) (word : string)
    (checked_ total : nat) (rs : list WordResult) : string :=
  "🤖 <b>" +:+ label info +:+ " ‚Äî AI</b>" +:+ nl +:+ nl +:+
  progressBar E i n +:+ nl +:+
  "🔍 <b>" +:+ escHtml word +:+ "</b> ‚Äî " +:+ Js.showNat checked_ +:+ "/" +:+
  Js.showNat total +:+ " addresses" +:+
  doneBlock rs.

(** The [onProgress] closure of [handleAITopicExpand]; [last] is its
    [lastAIProgress]. *)
Definition handleAITopicExpand_onProgress (chatId : ChatId)
    (progressMsgId : option MsgId) (info : TopicInfo) (i n : nat)
    (word : string) (rs : list WordResult) : ProgressCallback :=
  fun last call =>
    let now := fst call in
    match progressMsgId with
    | Some id =>
        if now - last <? 2000 then ([], last)
        else ([EditMessageText chatId id
                 (aiProgressText info i n word (fst (snd call)) (snd (snd call)) rs)
                 (Some STOP_KEYBOARD)],
              now)
    | None => ([], last)
    end.

(** One iteration of the loop of [handleAITopicExpand], after the
    stop-flag test. *)
Definition aiTopicWord (chatId : ChatId) (st : Settings)
    (progressMsgId : option MsgId) (info : TopicInfo) (n i : nat)
    (word : string) (s : LoopState) : Bot LoopState :=
  let addrs := fullWordCheck E word st in
  let addressCount_ := length addrs in
  (match progressMsgId with
   | Some id =>
       editMessageText chatId id
         (aiCheckingText info i n word addressCount_ (results s))
         (Some STOP_KEYBOARD)
   | None => ret tt
   end) ;;
  q <- checkBalances addrs (api_pref st) 50 (fun w => stopCurrentBatch w)
         (Some (handleAITopicExpand_onProgress chatId progressMsgId info i n word
                  (results s)))
         (lastProgress s) (explorerApiKeys st) ;;
  hasBal <- afterQuery chatId word "ai_topic_expand" (fst q) ;;
  cacheWordResult word hasBal 0 addressCount_ ;;
  recordCheck chatId word addrs [] "ai_topic_expand" ;;
  ret {| results := results s ++
                    [{| wr_word := word; wr_hasBalance := false;
                        wr_addressCount := addressCount_ |}];
         lastProgress := snd q;
         foundAny := (foundAny s || hasBal)%bool |}.

(** [for (let i = 0; i < newWords.length; i++)] with its [break]. *)
Fixpoint aiTopicLoop (chatId : ChatId) (st : Settings)
    (progressMsgId : option MsgId) (info : TopicInfo) (n i : nat)
    (words : list string) (s : LoopState) : Bot LoopState :=
  match words with
  | [] => ret s
  | word :: rest =>
      stop <- readStop ;;
      if stop then ret s
      else
        s' <- aiTopicWord chatId st progressMsgId info n i word s ;;
        aiTopicLoop chatId st progressMsgId info n (S i) rest s'
  end.

(** [s.charAt(0).toUpperCase() + s.slice(1)] on ASCII text. *)
Definition upperAscii (a : ascii) : ascii :=
  let n := nat_of_ascii a in
  if (Nat.leb 97 n && Nat.leb n 122)%bool then ascii_of_nat (n - 32) else a.

Definition capitalize (s : string) : string :=
  match s with
  | EmptyString => EmptyString
  | String a rest => String (upperAscii a) rest
  end.

Definition aiProviderLine (res : AIResult) : string :=
  ai_provider_name res +:+
  (if ai_fallbackUsed res
   then " (fallback, tried: " +:+ Js.join " → " (ai_triedProviders res) +:+ ")"
   else EmptyString).

(** [handleAITopicExpand(chatId, topicKey)]; [round] counts the AI
    requests made so far by the running handler. *)
Definition handleAITopicExpand (round : nat) (chatId : ChatId)
    (topicKey : string) : Bot unit :=
  let st := settings_get E chatId in
  match getTopicInfo E topicKey with
  | None => sendMessage chatId "❌ Topic not found." ;; ret tt
  | Some info =>
      if String.eqb (ai_provider st) "none"
      then
        sendMessageWithKeyboard chatId
          ("🤖 Set up an AI provider to generate more words." +:+ nl +:+ nl +:+
           "/settings ai_provider [name]" +:+ nl +:+ "/settings ai_key [key]")
          [[Btn "⚙️ Settings" "settings:main"]] ;;
        ret tt
      else
        waitMsg <- sendMessage chatId
                     ("🤖 Asking <b>" +:+ escHtml (ai_provider st) +:+ "</b> for more <b>" +:+
                      label info +:+ "</b> words..." +:+ nl +:+ "⏳ Please wait...") ;;
        suspend ;;
        let res := getTopicWords E round info in
        deleteIfSent chatId waitMsg ;;
        if negb (ai_ok res)
        then showAIError chatId res ("ai_topic:" +:+ topicKey)
        else
          newWords <- filterUncached (ai_words res) ;;
          match newWords with
          | [] =>
              globalTotal <- getWordCacheSize ;;
              sendMessageWithKeyboard chatId
                ("🤖 <b>" +:+ label info +:+ "</b>" +:+ nl +:+ nl +:+
                 "AI generated " +:+ Js.showNat (length (ai_words res)) +:+
                 " words ‚Äî all already covered." +:+ nl +:+
                 "🌐 <b>" +:+ toLocaleString E globalTotal +:+
                 "</b> words checked globally." +:+ nl +:+ nl +:+
                 "Try a different topic or let AI generate another round:")
                [[Btn "🤖 Regenerate" ("ai_topic:" +:+ topicKey)];
                 [Btn "⬅️ Categories" "topics_page:0";
                  Btn "🧠 Memory Guide" "memory:main"]] ;;
              ret tt
          | _ :: _ =>
              let n := length newWords in
              progressMsgId <-
                sendMessageWithKeyboard chatId
                  ("🤖 <b>AI: " +:+ Js.showNat n +:+ " new " +:+ label info +:+
                   " words</b>" +:+ nl +:+
                   "<i>" +:+ aiProviderLine res +:+ "</i>" +:+ nl +:+ nl +:+
                   progressBar E 0 n)
                  STOP_KEYBOARD ;;
              sendWebHint chatId (webWordsUrl newWords "brainwallet") ;;
              s <- aiTopicLoop chatId st progressMsgId info n 0 newWords
                     {| results := []; lastProgress := 0; foundAny := false |} ;;
              globalTotal <- getWordCacheSize ;;
              let summary :=
                "🤖 <b>" +:+ label info +:+ " ‚Äî AI complete</b>" +:+ nl +:+ nl +:+
                "✅ " +:+ Js.showNat (length (results s)) +:+ " words checked this round" +:+ nl +:+
                "🌐 <b>" +:+ toLocaleString E globalTotal +:+ "</b> words checked globally" +:+ nl +:+
                "💰 Found: 0" +:+ nl +:+
                nl +:+ "❌ No balances found." in
              let buttons :=
                [[Btn ("🤖 AI: More " +:+ Js.sliceTo 18 (label info) +:+ " Words")
                      ("ai_topic:" +:+ topicKey)]] ++
                (match category info with
                 | Some c => [[Btn ("📂 More " +:+ capitalize c +:+ " Topics") ("cat:" +:+ c)]]
                 | None => []
                 end) ++
                [[Btn "📚 Browse Topics" "topics_page:0";
                  Btn "💬 Memory Guide" "memory:main"];
                 [Btn "🏠 Menu" "menu:main"]] in
              deleteIfSent chatId progressMsgId ;;
              sendMessageWithKeyboard chatId summary buttons ;;
              ret tt
          end
  end.

(* ------------------------------------------------------------------- *)
(** *** handleTopicExplore *)
(* ------------------------------------------------------------------- *)

Definition topicCheckingText (info : TopicInfo) (aiUsed : bool) (i n : nat)
    (word : string) (addressCount_ : nat) (rs : list WordResult) : string :=
  "🎮 <b>" +:+ label info +:+ "</b>" +:+ (if aiUsed then " (AI)" else EmptyString) +:+
  nl +:+ nl +:+
  progressBar E i n +:+ nl +:+
  "🔍 <b>" +:+ escHtml word +:+ "</b> ‚Äî checking " +:+
  Js.showNat (Nat.min addressCount_ 50) +:+ " addresses..." +:+
  doneBlock rs.

Definition topicProgressText (info : TopicInfo) (aiUsed : bool) (i n : nat)
    (word : string) (checked_ total : nat) (rs : list WordResult) : string :=
  "🎮 <b>" +:+ label info +:+ "</b>" +:+ (if aiUsed then " (AI)" else EmptyString) +:+
  nl +:+ nl +:+
  progressBar E i n +:+ nl +:+
  "🔍 <b>" +:+ escHtml word +:+ "</b> ‚Äî " +:+ Js.showNat checked_ +:+ "/" +:+
  Js.showNat total +:+ " addresses" +:+
  doneBlock rs.

(** The [onProgress] closure of [handleTopicExplore]; [last] is its
    [lastProgressUpdate]. *)
Definition handleTopicExplore_onProgress (chatId : ChatId)
    (progressMsgId : option MsgId) (info : TopicInfo) (aiUsed : bool)
    (i n : nat) (word : string) (rs : list WordResult) : ProgressCallback :=
  fun last call =>
    let now := fst call in
    match progressMsgId with
    | Some id =>
        if now - last <? 2000 then ([], last)
        else ([EditMessageText chatId id
                 (topicProgressText info aiUsed i n word
                    (fst (snd call)) (snd (snd call)) rs)
                 (Some STOP_KEYBOARD)],
              now)
    | None => ([], last)
    end.

(** One iteration of the loop of [handleTopicExplore], after the
    stop-flag test. *)
Definition topicWord (chatId : ChatId) (st : Settings)
    (progressMsgId : option MsgId) (info : TopicInfo) (aiUsed : bool)
    (n i : nat) (word : string) (s : LoopState) : Bot LoopState :=
  let addrs := fullWordCheck E word st in
  let addressCount_ := length addrs in
  (match progressMsgId with
   | Some id =>
       editMessageText chatId id
         (topicCheckingText info aiUsed i n word addressCount_ (results s))
         (Some STOP_KEYBOARD)
   | None => ret tt
   end) ;;
  q <- checkBalances addrs (api_pref st) 50 (fun w => stopCurrentBatch w)
         (Some (handleTopicExplore_onProgress chatId progressMsgId info aiUsed
                  i n word (results s)))
         (lastProgress s) (explorerApiKeys st) ;;
  hasBal <- afterQuery chatId word "topic_explore" (fst q) ;;
  cacheWordResult word hasBal 0 addressCount_ ;;
  recordCheck chatId word addrs [] (if aiUsed then "ai_topic" else "topic_explore") ;;
  ret {| results := results s ++
                    [{| wr_word := word; wr_hasBalance := false;
                        wr_addressCount := addressCount_ |}];
         lastProgress := snd q;
         foundAny := (foundAny s || hasBal)%bool |}.

Fixpoint topicLoop (chatId : ChatId) (st : Settings)
    (progressMsgId : option MsgId) (info : TopicInfo) (aiUsed : bool)
    (n i : nat) (words : list string) (s : LoopState) : Bot LoopState :=
  match words with
  | [] => ret s
  | word :: rest =>
      stop <- readStop ;;
      if stop then ret s
      else
        s' <- topicWord chatId st progressMsgId info aiUsed n i word s ;;
        topicLoop chatId st progressMsgId info aiUsed n (S i) rest s'
  end.

(** The summary [handleTopicExplore] sends when its loop is over. *)
Definition topicSummary (chatId : ChatId) (info : TopicInfo)
    (nChecked globalTotal : nat) (foundAny_ : bool) : string :=
  "🎮 <b>" +:+ label info +:+ "</b> — Complete!" +:+ nl +:+ nl +:+
  "✅ " +:+ Js.showNat nChecked +:+ " words checked this round" +:+ nl +:+
  "🌐 <b>" +:+ toLocaleString E globalTotal +:+ "</b> words checked globally" +:+ nl +:+
  "💰 Found: 0" +:+ nl +:+
  (if foundAny_ then EmptyString
   else match pivotMessage E chatId with
        | Some m => nl +:+ "💡 " +:+ m
        | None => nl +:+ "❌ No balances found."
        end).

Definition topicButtons (chatId : ChatId) (topicKey : string) (info : TopicInfo)
    (hasAI : bool) : Keyboard :=
  (if hasAI
   then [[Btn ("🤖 AI: More " +:+ Js.sliceTo 18 (label info) +:+ " Words")
              ("ai_topic:" +:+ topicKey)]]
   else []) ++
  [(match category info with
    | Some c => [Btn ("📂 More " +:+ capitalize c +:+ " Topics") ("cat:" +:+ c)]
    | None => []
    end) ++ [Btn "📚 Browse All Topics" "topics_page:0"]] ++
  progressiveButtons E chatId ++
  [[Btn "🏠 Menu" "menu:main"]].

(** [handleTopicExplore(chatId, topicKey)] *)
Definition handleTopicExplore (chatId : ChatId) (topicKey : string) : Bot unit :=
  let st := settings_get E chatId in
  match getTopicInfo E topicKey with
  | None =>
      match searchTopics E topicKey with
      | (_ :: _) as found =>
          sendMessageWithKeyboard chatId
            ("Found " +:+ Js.showNat (length found) +:+ " topics matching " +:+ dq +:+
             "<b>" +:+ escHtml topicKey +:+ "</b>" +:+ dq +:+ ":")
            (List.map (fun r => [Btn (snd r) ("explore:" +:+ fst r)]) (firstn 9 found)) ;;
          ret tt
      | [] =>
          sendMessage chatId
            ("❌ Topic not found: " +:+ dq +:+ escHtml topicKey +:+ dq +:+
             ". Use /topic to browse.") ;;
          ret tt
      end
  | Some info =>
      emit (RecordTopicExplored chatId topicKey) ;;
      if String.eqb (ai_provider st) "none"
      then
        sendMessageWithKeyboard chatId
          ("🎮 <b>" +:+ label info +:+ "</b>" +:+ nl +:+ nl +:+
           "To explore this topic, set up an AI provider — it generates hundreds of targeted words automatically." +:+ nl +:+ nl +:+
           "<b>Free options:</b>" +:+ nl +:+
           "• <b>Groq</b> — fast &amp; free, get a key at groq.com" +:+ nl +:+
           "• <b>Ollama</b> — runs locally, no key needed" +:+ nl +:+ nl +:+
           "<code>/settings ai_provider groq</code>" +:+ nl +:+
           "<code>/settings ai_key YOUR_KEY</code>")
          [[Btn "⚙️ Settings" "settings:main"];
           [Btn "⬅️ Categories" "topics_page:0"; Btn "⬅️ Menu" "menu:main"]] ;;
        ret tt
      else
        waitMsg <- sendMessage chatId
                     ("🎮 <b>" +:+ label info +:+ "</b>" +:+ nl +:+ nl +:+
                      "🤖 Generating comprehensive word list with AI..." +:+ nl +:+
                      "⏳ This takes a few seconds") ;;
        suspend ;;
        let res := getTopicWords E 0 info in
        deleteIfSent chatId waitMsg ;;
        let aiUsed := (ai_ok res && negb (Nat.eqb (length (ai_words res)) 0))%bool in
        if (negb aiUsed && ai_rateLimited res)%bool
        then showAIError chatId res ("explore:" +:+ topicKey)
        else
          let wordList := if aiUsed then ai_words res else topicWords info in
          newWords <- filterUncached wordList ;;
          match newWords with
          | [] => handleAITopicExpand 1 chatId topicKey
          | _ :: _ =>
              let n := length newWords in
              progressMsgId <-
                sendMessageWithKeyboard chatId
                  ("🎮 <b>" +:+ label info +:+ "</b>" +:+ nl +:+
                   (if aiUsed then "🤖 " +:+ aiProviderLine res +:+ " • " else EmptyString) +:+
                   Js.showNat n +:+ " words to check" +:+
                   nl +:+ nl +:+ progressBar E 0 n)
                  STOP_KEYBOARD ;;
              sendWebHint chatId (webWordsUrl newWords "brainwallet") ;;
              s <- topicLoop chatId st progressMsgId info aiUsed n 0 newWords
                     {| results := []; lastProgress := 0; foundAny := false |} ;;
              emit (RecordTopicFailed chatId topicKey) ;;
              globalTotal <- getWordCacheSize ;;
              deleteIfSent chatId progressMsgId ;;
              sendMessageWithKeyboard chatId
                (topicSummary chatId info (length (results s)) globalTotal (foundAny s))
                (topicButtons chatId topicKey info true) ;;
              ret tt
          end
  end.

(* ------------------------------------------------------------------- *)
(** *** handleBatch *)
(* ------------------------------------------------------------------- *)

(** [args.split(/[,\s]+/).map(w => w.trim()).filter(w => w.length > 0)]:
    the maximal runs of characters that are neither commas nor
    white space. *)
Definition isSeparator (a : ascii) : bool :=
  (Ascii.eqb a "," || Js.isSpace a)%bool.

Fixpoint splitWordsAcc (cur : string) (s : string) : list string :=
  match s with
  | EmptyString =>
      if String.eqb cur EmptyString then [] else [cur]
  | String a rest =>
      if isSeparator a
      then if String.eqb cur EmptyString then splitWordsAcc EmptyString rest
           else cur :: splitWordsAcc EmptyString rest
      else splitWordsAcc (cur +:+ String a EmptyString) rest
  end.

Definition splitWords (args : string) : list string :=
  splitWordsAcc EmptyString args.

Definition batchCheckingText (i n : nat) (word : string) (addressCount_ : nat)
    (rs : list WordResult) : string :=
  let recent := recentLines " | " rs in
  "📦 <b>Batch</b>" +:+ nl +:+ nl +:+
  progressBar E i n +:+ nl +:+
  "🔍 <b>" +:+ escHtml word +:+ "</b> ‚Äî checking " +:+
  Js.showNat (Nat.min addressCount_ 50) +:+ " addresses..." +:+
  (if String.eqb recent EmptyString then EmptyString else nl +:+ nl +:+ recent).

Definition batchProgressText (i n : nat) (word : string) (checked_ total : nat)
    (rs : list WordResult) : string :=
  let recent := recentLines " | " rs in
  "📦 <b>Batch</b>" +:+ nl +:+ nl +:+
  progressBar E i n +:+ nl +:+
  "🔍 <b>" +:+ escHtml word +:+ "</b> ‚Äî " +:+ Js.showNat checked_ +:+ "/" +:+
  Js.showNat total +:+ " addresses" +:+
  (if String.eqb recent EmptyString then EmptyString else nl +:+ nl +:+ recent).

(** The [onProgress] closure of [handleBatch]; [last] is its
    [lastBatchProgress]. *)
Definition handleBatch_onProgress (chatId : ChatId)
    (progressMsgId : option MsgId) (i n : nat) (word : string)
    (rs : list WordResult) : ProgressCallback :=
  fun last call =>
    let now := fst call in
    match progressMsgId with
    | Some id =>
        if now - last <? 2000 then ([], last)
        else ([EditMessageText chatId id
                 (batchProgressText i n word (fst (snd call)) (snd (snd call)) rs)
                 (Some STOP_KEYBOARD)],
              now)
    | None => ([], last)
    end.

(** One iteration of the loop of [handleBatch], after the stop-flag
    test. *)
Definition batchWord (chatId : ChatId) (st : Settings)
    (progressMsgId : option MsgId) (n i : nat) (word : string)
    (s : LoopState) : Bot LoopState :=
  let addrs := fullWordCheck E word st in
  let addressCount_ := length addrs in
  (match progressMsgId with
   | Some id =>
       editMessageText chatId id
         (batchCheckingText i n word addressCount_ (results s))
         (Some STOP_KEYBOARD)
   | None => ret tt
   end) ;;
  q <- checkBalances addrs (api_pref st) 50 (fun w => stopCurrentBatch w)
         (Some (handleBatch_onProgress chatId progressMsgId i n word (results s)))
         (lastProgress s) (explorerApiKeys st) ;;
  hasBal <- afterQuery chatId word "batch" (fst q) ;;
  cacheWordResult word hasBal 0 addressCount_ ;;
  ret {| results := results s ++
                    [{| wr_word := word; wr_hasBalance := false;
                        wr_addressCount := addressCount_ |}];
         lastProgress := snd q;
         foundAny := foundAny s (* handleBatch has no such variable *) |}.

Fixpoint batchLoop (chatId : ChatId) (st : Settings)
    (progressMsgId : option MsgId) (n i : nat) (words : list string)
    (s : LoopState) : Bot LoopState :=
  match words with
  | [] => ret s
  | word :: rest =>
      stop <- readStop ;;
      if stop then ret s
      else
        s' <- batchWord chatId st progressMsgId n i word s ;;
        batchLoop chatId st progressMsgId n (S i) rest s'
  end.

Definition batchSummary (rs : list WordResult) (globalTotal : nat) : string :=
  "📦 <b>Batch Complete</b>" +:+ nl +:+ nl +:+
  "✅ " +:+ Js.showNat (length rs) +:+ " words checked this round" +:+ nl +:+
  "🌐 <b>" +:+ toLocaleString E globalTotal +:+ "</b> words checked globally" +:+ nl +:+
  "💰 Found: 0" +:+ nl +:+ nl +:+
  Js.join nl (List.map (fun r => "❌ " +:+ wr_word r +:+ ": 0 BTC") rs).

Definition batchButtons (chatId : ChatId) : Keyboard :=
  let st := settings_get E chatId in
  let row1 :=
    (if String.eqb (ai_provider st) "none" then []
     else [Btn "🤖 AI: Similar Words" "batch_ai_more:go"]) ++
    (match detectedTopic E chatId with
     | Some t =>
         match getTopicInfo E t with
         | Some info => [Btn ("🎮 More " +:+ Js.sliceTo 14 (label info)) ("ai_topic:" +:+ t)]
         | None => []
         end
     | None => []
     end) in
  (match row1 with [] => [] | _ :: _ => [row1] end) ++
  [[Btn "💬 Memory Guide" "memory:main"; Btn "📂 Browse Topics" "topics_page:0"];
   [Btn "🎲 Random Batch" "batch_random:go"; Btn "🔑 Common Passwords" "common:passwords"]] ++
  webCheckerRow None "üåê Web Checker" ++
  [[Btn "🏠 Menu" "menu:main"]].

(** [handleBatch(chatId, args)] *)
Definition handleBatch (chatId : ChatId) (args : string) : Bot unit :=
  let st := settings_get E chatId in
  match splitWords args with
  | [] =>
      sendMessage chatId "📦 No words provided. Usage: /batch word1, word2, word3" ;;
      ret tt
  | (_ :: _) as splitted =>
      let limit := batch_limit st in
      (if Nat.ltb limit (length splitted)
       then sendMessage chatId
              ("⚠️ Too many words (" +:+ Js.showNat (length splitted) +:+ "). Max: " +:+
               Js.showNat limit +:+ ". Truncating.") ;; ret tt
       else ret tt) ;;
      let allWords :=
        if Nat.ltb limit (length splitted) then firstn limit splitted else splitted in
      words <- filterUncached allWords ;;
      match words with
      | [] =>
          globalTotal <- getWordCacheSize ;;
          match (if String.eqb (ai_provider st) "none" then None
                 else detectedTopic E chatId) with
          | Some t => handleAITopicExpand 0 chatId t
          | None =>
              sendMessageWithKeyboard chatId
                ("📦 All " +:+ Js.showNat (length allWords) +:+ " words already covered." +:+ nl +:+
                 "🌐 <b>" +:+ toLocaleString E globalTotal +:+ "</b> words checked globally.")
                ((if String.eqb (ai_provider st) "none" then []
                  else [[Btn "🤖 AI Suggestions" "aisuggest:"]]) ++
                 [[Btn "⬅️ Menu" "menu:main"]]) ;;
              ret tt
          end
      | _ :: _ =>
          let n := length words in
          progressMsgId <-
            sendMessageWithKeyboard chatId
              ("📦 <b>Batch checking " +:+ Js.showNat n +:+ " words</b>" +:+ nl +:+ nl +:+
               progressBar E 0 n)
              STOP_KEYBOARD ;;
          sendWebHint chatId (webWordsUrl words "brainwallet") ;;
          s <- batchLoop chatId st progressMsgId n 0 words
                 {| results := []; lastProgress := 0; foundAny := false |} ;;
          globalTotal <- getWordCacheSize ;;
          deleteIfSent chatId progressMsgId ;;
          sendMessageWithKeyboard chatId (batchSummary (results s) globalTotal)
            (batchButtons chatId) ;;
          ret tt
      end
  end.

(* ------------------------------------------------------------------- *)
(** *** handleDictionary *)
(* ------------------------------------------------------------------- *)

(** [for (const a of addrs) bMap.set(a, { balance: 1 })] *)
Definition placeholderMap (addrs : list string) : BalanceMap :=
  fold_left (fun acc a => mapSet acc a {| balance := 1; api := EmptyString |})
    addrs [].

(** The body of [for (const count of settings.get(chatId, 'repeats'))].
    The derivation is outside the [try]; the counter [found] is never
    read and is left out. *)
Definition dictionaryCount (st : Settings) (word : string) (count : nat) : Bot unit :=
  match deriveRepeatedWordSeed E word count ["bip44"%string] 3 with
  | Throw e => throw e
  | Ok res =>
      let addrs := getRepeatedSeedAddresses E res in
      q <- hasAnyBalance addrs (api_pref st) ;;
      match q with
      | Ok true =>
          cacheWordResult word true 0 (length addrs) ;;
          notifyAdmin word (placeholderMap addrs)
            ("bip39_dict_" +:+ Js.showNat count +:+ "x")
      | _ => ret tt
      end
  end.

Fixpoint forEach {A} (f : A -> Bot unit) (xs : list A) : Bot unit :=
  match xs with
  | [] => ret tt
  | x :: rest => f x ;; forEach f rest
  end.

(** One iteration of the loop of [handleDictionary], after the
    stop-flag test. *)
Definition dictionaryWord (chatId : ChatId) (st : Settings)
    (progressMsgId : option MsgId) (n i : nat) (word : string) : Bot unit :=
  cached <- getCachedWordResult word ;;
  if knownEmpty cached then ret tt
  else
    forEach (dictionaryCount st word) (repeats st) ;;
    (match cached with
     | None => cacheWordResult word false 0 0
     | Some _ => ret tt
     end) ;;
    match progressMsgId with
    | Some id =>
        if Nat.eqb (Nat.modulo (i + 1) 20) 0
        then editMessageText chatId id
               ("📖 Dictionary: " +:+ progressBar E (i + 1) n)
               (Some STOP_KEYBOARD)
        else ret tt
    | None => ret tt
    end.

Fixpoint dictionaryLoop (chatId : ChatId) (st : Settings)
    (progressMsgId : option MsgId) (n i : nat) (words : list string) : Bot unit :=
  match words with
  | [] => ret tt
  | word :: rest =>
      stop <- readStop ;;
      if stop then ret tt
      else
        dictionaryWord chatId st progressMsgId n i word ;;
        dictionaryLoop chatId st progressMsgId n (S i) rest
  end.

(** [handleDictionary(chatId)] *)
Definition handleDictionary (chatId : ChatId) : Bot unit :=
  let st := settings_get E chatId in
  let wordlist := getBIP39Wordlist E in
  let n := length wordlist in
  progressMsgId <-
    sendMessageWithKeyboard chatId
      ("📖 <b>BIP39 Dictionary Check</b>" +:+ nl +:+ nl +:+
       "📚 " +:+ Js.showNat n +:+ " words to check" +:+ nl +:+
       "🔁 Each word repeated 12x and 24x as seed" +:+ nl +:+ nl +:+
       progressBar E 0 n)
      STOP_KEYBOARD ;;
  dictionaryLoop chatId st progressMsgId n 0 wordlist ;;
  deleteIfSent chatId progressMsgId ;;
  sendMessageWithKeyboard chatId
    ("📖 <b>Dictionary check complete!</b>" +:+ nl +:+ nl +:+
     "✅ Checked: " +:+ Js.showNat n +:+ " BIP39 words" +:+ nl +:+
     "💰 Found: 0")
    ((if String.eqb (ai_provider st) "none" then []
      else [[Btn "🤖 AI Suggest Words"
               ("aisuggest:" +:+
                match lastWord E chatId with Some l => l | None => EmptyString end)]]) ++
     [[Btn "💬 Memory Guide" "memory:main"; Btn "📚 Browse Topics" "topics_page:0"];
      [Btn "🔑 Common Passwords" "common:passwords";
       Btn "⌨️ Keyboard Patterns" "common:keyboard"];
      [Btn "🏠 Menu" "menu:main"]]) ;;
  ret tt.

(* ------------------------------------------------------------------- *)
(** *** handleFeelingLucky *)
(* ------------------------------------------------------------------- *)

(** [results] and [jackpot] of the lottery loop. *)
Record LuckyState := {
  luckyResults : list (string * Z);
  jackpot : option (string * Z)
}.

(** [for (const bal of bMap.values()) wordBalance += (bal?.balance || 0)] *)
Definition wordBalanceOf (m : BalanceMap) : Z := sumBalances m.

Definition luckyHeader (source : string) : string :=
  "🍀 <b>Feeling Lucky!</b>" +:+ nl +:+ nl +:+ source +:+ nl +:+ nl.

(** [displayLines]: line [j] of the live update while word [i] has just
    been checked. *)
Fixpoint displayLines (i j : nat) (rs : list (string * Z)) (ws : list string)
    : list string :=
  match ws with
  | [] => []
  | word2 :: rest =>
      (match rs with
       | r :: _ =>
           if 0 <? snd r
           then "🏆 <code>" +:+ escHtml word2 +:+ "</code> — <b>" +:+
                showBtc E (snd r) +:+ " BTC FOUND!</b>"
           else "❌ <code>" +:+ escHtml word2 +:+ "</code>"
       | [] =>
           if Nat.eqb j i
           then "🔄 <code>" +:+ escHtml word2 +:+ "</code> (checking...)"
           else "⏳ <code>" +:+ escHtml word2 +:+ "</code>"
       end) :: displayLines i (S j) (tl rs) rest
  end.

(** [finalLines] *)
Fixpoint finalLines (rs : list (string * Z)) (ws : list string) : list string :=
  match ws with
  | [] => []
  | w :: rest =>
      (match rs with
       | [] => "⏸️ <code>" +:+ escHtml w +:+ "</code>"
       | r :: _ =>
           if 0 <? snd r
           then "🏆 <code>" +:+ escHtml w +:+ "</code> — <b>" +:+
                showBtc E (snd r) +:+ " BTC!</b>"
           else "❌ <code>" +:+ escHtml w +:+ "</code>"
       end) :: finalLines (tl rs) rest
  end.

(** One iteration of the lottery loop, after the stop-flag test. *)
Definition luckyWord (chatId : ChatId) (st : Settings) (lotteryMsgId : option MsgId)
    (source : string) (luckyWords : list string) (i : nat) (w : string)
    (s : LuckyState) : Bot LuckyState :=
  match deriveBrainWallet E w with
  | Throw e => throw e
  | Ok brainResult =>
      let addrs := getBrainWalletAddresses E brainResult in
      q <- checkBalances addrs
             (match preferred_api st with Some a => a | None => "auto" end)
             (match max_addresses st with
              | Some m => if Nat.eqb m 0 then 150%nat else m
              | None => 150%nat
              end)
             (fun w => stopCurrentBatch w) None 0 (explorerApiKeys st) ;;
      let wordBalance :=
        match fst q with
        | Ok bMap => wordBalanceOf bMap
        | Throw _ => 0
        end in
      let hit :=
        match fst q, jackpot s with
        | Ok _, None => 0 <? wordBalance
        | _, _ => false
        end in
      (if hit
       then match fst q with
            | Ok bMap => notifyAdmin w bMap "feeling_lucky"
            | Throw _ => ret tt
            end
       else ret tt) ;;
      let s' := {| luckyResults := luckyResults s ++ [(w, wordBalance)];
                   jackpot := if hit then Some (w, wordBalance) else jackpot s |} in
      recordCheck chatId w addrs [] "lucky" ;;
      (match lotteryMsgId with
       | Some id =>
           editMessageText chatId id
             (luckyHeader source +:+
              "🎰 Checking " +:+ Js.showNat (i + 1) +:+ "/" +:+
              Js.showNat (length luckyWords) +:+ "..." +:+ nl +:+ nl +:+
              Js.join nl (displayLines i 0 (luckyResults s') luckyWords))
             None
       | None => ret tt
       end) ;;
      ret s'
  end.

Fixpoint luckyLoop (chatId : ChatId) (st : Settings) (lotteryMsgId : option MsgId)
    (source : string) (luckyWords : list string) (i : nat) (ws : list string)
    (s : LuckyState) : Bot LuckyState :=
  match ws with
  | [] => ret s
  | w :: rest =>
      stop <- readStop ;;
      if stop then ret s
      else
        s' <- luckyWord chatId st lotteryMsgId source luckyWords i w s ;;
        luckyLoop chatId st lotteryMsgId source luckyWords (S i) rest s'
  end.

Fixpoint numbered (i : nat) (ws : list string) : list string :=
  match ws with
  | [] => []
  | w :: rest =>
      (Js.showNat (i + 1) +:+ ". ❓ <code>" +:+ escHtml w +:+ "</code>")
      :: numbered (S i) rest
  end.

(** The part of [handleFeelingLucky] that follows the word selection. *)
Definition luckyCheck (chatId : ChatId) (luckyWords : list string)
    (source : string) : Bot unit :=
  let st := settings_get E chatId in
  match luckyWords with
  | [] =>
      sendMessageWithKeyboard chatId
        ("🍀 Nothing new to suggest — you’ve checked everything!" +:+ nl +:+ nl +:+
         "Try browsing more topics or generating AI topics for new ideas.")
        [[Btn "📚 Browse Topics" "topics_page:0"]; [Btn "⬅️ Menu" "menu:main"]] ;;
      ret tt
  | _ :: _ =>
      lotteryMsgId <-
        sendMessageWithKeyboard chatId
          (luckyHeader source +:+
           "🎰 <b>" +:+ Js.showNat (length luckyWords) +:+ " lucky candidates:</b>" +:+
           nl +:+ nl +:+
           Js.join nl (numbered 0 luckyWords) +:+
           nl +:+ nl +:+ "⏳ Checking all of them now...")
          STOP_KEYBOARD ;;
      suspend ;;
      s <- luckyLoop chatId st lotteryMsgId source luckyWords 0 luckyWords
             {| luckyResults := []; jackpot := None |} ;;
      (match lotteryMsgId with
       | Some id =>
           editMessageText chatId id
             (luckyHeader source +:+
              Js.join nl (finalLines (luckyResults s) luckyWords) +:+
              nl +:+ nl +:+
              (match jackpot s with
               | Some _ => "🏆 JACKPOT! Balance found!"
               | None => randomEncouragement E
               end))
             None
       | None => ret tt
       end) ;;
      sendMessageWithKeyboard chatId
        (match jackpot s with
         | Some j =>
             "🎉 Found balance on " +:+ dq +:+ "<b>" +:+ escHtml (fst j) +:+ "</b>" +:+
             dq +:+ "!"
         | None =>
             "🍀 Checked " +:+ Js.showNat (length (luckyResults s)) +:+
             " picks. Spin again or try another approach!"
         end)
        [[Btn "🍀 Spin Again" "lucky:go"];
         [Btn "🎰 Random Key Hunt" "keyhunt:5"];
         [Btn "📚 Browse Topics" "topics_page:0"; Btn "⬅️ Menu" "menu:main"]] ;;
      ret tt
  end.

(** [handleFeelingLucky(chatId)] *)
Definition handleFeelingLucky (chatId : ChatId) : Bot unit :=
  let st := settings_get E chatId in
  let hasAI := negb (String.eqb (ai_provider st) "none") in
  if (hasAI && (Nat.ltb 0 (checkedWordsCount E chatId) ||
                Nat.ltb 0 (checkedTopicsCount E chatId)))%bool
  then
    waitMsg <- sendMessage chatId
                 ("🍀 <b>Feeling Lucky</b>" +:+ nl +:+ nl +:+
                  "🔮 Analyzing " +:+ Js.showNat (checkedWordsCount E chatId) +:+
                  " checked words..." +:+ nl +:+
                  "✨ The oracle is picking your best candidates...") ;;
    suspend ;;
    let res := getLuckyPick E chatId in
    deleteIfSent chatId waitMsg ;;
    if negb (ai_ok res) then showAIError chatId res "lucky:go"
    else luckyCheck chatId (ai_words res)
           ("🤖 <i>" +:+ ai_provider_name res +:+ "</i> analyzed your history")
  else
    luckyCheck chatId (fst (luckyFallback E chatId)) (snd (luckyFallback E chatId)).

(* ------------------------------------------------------------------- *)
(** *** handleRandomKeyHunt *)
(* ------------------------------------------------------------------- *)

(** [for (let i = 0; i < count; i++) try { keyData.push(...) } catch {}] *)
Fixpoint drawKeys (i count : nat) : list BrainResult :=
  match count with
  | O => []
  | S k =>
      match deriveRandomKey E i with
      | Ok key => key :: drawKeys (S i) k
      | Throw _ => drawKeys (S i) k
      end
  end.

(** The two addresses collected per key, skipping empty ones. *)
Definition huntAddressesOf (key : BrainResult) : list string :=
  List.filter (fun a => negb (String.eqb a EmptyString))
    [legacy_compressed (addresses key); nativeSegwit (addresses key)].

(** [addrToKey.get(addr)]: the last key that was stored for [addr]. *)
Definition addrToKey (keyData : list BrainResult) (addr : string) : option BrainResult :=
  List.find (fun key => existsb (String.eqb addr) (huntAddressesOf key))
    (List.rev keyData).

(** [balanceMap.get(addr)] *)
Definition mapGet (m : BalanceMap) (addr : string) : option BalanceRecord :=
  option_map snd (List.find (fun e => String.eqb (fst e) addr) m).

Definition keyLine (balanceMap : BalanceMap) (k : BrainResult) : string :=
  let addr := legacy_compressed (addresses k) in
  let short := Js.sliceTo 8 addr +:+ "…" +:+ Js.sliceLast 5 addr in
  match mapGet balanceMap addr with
  | Some bal =>
      if positive bal
      then "🏆 <code>" +:+ short +:+ "</code> → " +:+ showBtc E (balance bal) +:+ " BTC 🏆"
      else "🔑 <code>" +:+ short +:+ "</code> → 0 BTC"
  | None => "🔑 <code>" +:+ short +:+ "</code> → 0 BTC"
  end.

(** [handleRandomKeyHunt(chatId, count)] *)
Definition handleRandomKeyHunt (chatId : ChatId) (count : nat) : Bot unit :=
  let st := settings_get E chatId in
  let keyData := drawKeys 0 count in
  let allAddrs := List.concat (List.map huntAddressesOf keyData) in
  huntMsg <- sendMessage chatId
               ("🎰 <b>Random Key Hunt</b>" +:+ nl +:+ nl +:+
                "⚡ Generated " +:+ Js.showNat (length keyData) +:+ " random keys" +:+ nl +:+
                "🔍 Scanning " +:+ Js.showNat (length allAddrs) +:+ " addresses...") ;;
  q <- checkBalances allAddrs
         (match preferred_api st with Some a => a | None => "auto" end)
         500 (fun _ => false) None 0 (explorerApiKeys st) ;;
  let balanceMap := match fst q with Ok m => m | Throw _ => [] end in
  let total := (keyhuntTotal E chatId + length keyData)%nat in
  let hit := List.find (fun e => positive (snd e)) balanceMap in
  (match hit, TELEGRAM_CHAT_ID E with
   | Some e, Some admin =>
       match addrToKey keyData (fst e) with
       | None => throw "Cannot read properties of undefined (reading 'privateKey')"
       | Some jk =>
           sendMessage admin
             ("🏆🏆🏆 <b>KEY HUNT JACKPOT</b> 🏆🏆🏆" +:+ nl +:+ nl +:+
              "🏦 Address: <code>" +:+ fst e +:+ "</code>" +:+ nl +:+
              "💰 Balance: <b>" +:+ showBtc E (balance (snd e)) +:+ " BTC</b>" +:+ nl +:+ nl +:+
              "🔑 Private Key:" +:+ nl +:+
              "  Hex: <code>" +:+ privateKey jk +:+ "</code>" +:+ nl +:+
              "  WIF (c): <code>" +:+ wifCompressed jk +:+ "</code>" +:+ nl +:+
              "  WIF (u): <code>" +:+ wifUncompressed jk +:+ "</code>") ;;
           ret tt
       end
   | _, _ => ret tt
   end) ;;
  let keyLines :=
    List.map (keyLine balanceMap) (firstn 5 keyData) ++
    (if Nat.ltb 5 count
     then ["<i>… and " +:+ Js.showNat (count - 5) +:+ " more</i>"]
     else []) in
  let resultText :=
    match hit with
    | Some e =>
        "🎰 <b>Random Key Hunt</b>" +:+ nl +:+ nl +:+ "🏆 <b>JACKPOT!!!</b>" +:+ nl +:+ nl +:+
        "Found " +:+ showBtc E (balance (snd e)) +:+ " BTC on" +:+ nl +:+
        "<code>" +:+ fst e +:+ "</code>"
    | None =>
        "🎰 <b>Random Key Hunt</b>" +:+ nl +:+ nl +:+
        "Batch: " +:+ Js.showNat (length keyData) +:+ " keys • Session: <b>" +:+
        toLocaleString E total +:+ "</b> total" +:+ nl +:+ nl +:+
        Js.join nl keyLines +:+
        nl +:+ nl +:+ "<i>" +:+ randomFluff E +:+ "</i>"
    end in
  (match huntMsg with
   | Some id => editMessageText chatId id resultText None
   | None => ret tt
   end) ;;
  sendMessageWithKeyboard chatId
    ("🎲 Keys hunted this session: <b>" +:+ toLocaleString E total +:+ "</b>")
    [[Btn "🎰 Hunt 5 More" "keyhunt:5"; Btn "🎰 Hunt 50 More" "keyhunt:50"];
     [Btn "🍀 Feeling Lucky" "lucky:go"];
     [Btn "⬅️ Menu" "menu:main"]] ;;
  ret tt.

(* ------------------------------------------------------------------- *)
(** *** The wrappers around handleBatch *)
(* ------------------------------------------------------------------- *)

Definition commonPasswords : list string :=
  ["password"; "password1"; "password123"; "123456"; "12345678"; "qwerty"; "abc123";
   "letmein"; "master"; "dragon"; "login"; "admin"; "welcome"; "monkey"; "shadow";
   "sunshine"; "princess"; "football"; "charlie"; "trustno1"; "iloveyou"; "batman";
   "superman"; "mustang"; "access"; "michael"; "secret"; "bitcoin"; "satoshi";
   "nakamoto"; "hodl"; "tothemoon"; "lambo"; "crypto"; "blockchain"]%string.

Definition keyboardPatterns : list string :=
  ["qwerty"; "qwertyuiop"; "asdfghjkl"; "zxcvbnm"; "qazwsx"; "qweasd";
   "1qaz2wsx"; "zaq1xsw2"; "qwaszx"; "asdfjkl"; "1q2w3e4r"; "1234qwer";
   "zxcvbn"; "poiuytrewq"; "mnbvcxz"; "lkjhgfdsa"; "abcdef"; "abcdefgh"]%string.

(** [handleCommonWords(chatId, type)] *)
Definition handleCommonWords (chatId : ChatId) (type_ : string) : Bot unit :=
  let words := if String.eqb type_ "keyboard" then keyboardPatterns else commonPasswords in
  handleBatch chatId (Js.join ", " words).

(** [handleSmartBatch(chatId)] *)
Definition handleSmartBatch (chatId : ChatId) : Bot unit :=
  match smartWords E chatId with
  | [] =>
      sendMessage chatId "❌ No suggestions generated. Try answering more memory prompts." ;;
      ret tt
  | (_ :: _) as words => handleBatch chatId (Js.join ", " words)
  end.

(** [handleBatchAI(chatId, word)] *)
Definition handleBatchAI (chatId : ChatId) (word : string) : Bot unit :=
  match aiSuggestionWords E chatId with
  | Some ((_ :: _) as words) => handleBatch chatId (Js.join ", " words)
  | _ =>
      sendMessage chatId "⚠️ No AI suggestions cached. Use /suggest [word] first." ;;
      ret tt
  end.

(** [handleInterviewBatchCheck(chatId)] *)
Definition handleInterviewBatchCheck (chatId : ChatId) : Bot unit :=
  match interviewExtracted E chatId with
  | [] =>
      sendMessage chatId "❌ No words extracted yet. Continue the interview." ;;
      ret tt
  | (_ :: _) as extracted => handleBatch chatId (Js.join ", " extracted)
  end.

(** The end of [handleBatchRandom(chatId)], once the random words are
    drawn. *)
Definition handleBatchRandom (chatId : ChatId) : Bot unit :=
  match fst (randomBatch E chatId) with
  | [] =>
      sendMessage chatId "❌ No unchecked words remaining. Try /dictionary or AI suggestions." ;;
      ret tt
  | (_ :: _) as wordList =>
      sendMessage chatId
        ("🎲 <b>Random batch:</b> " +:+ Js.showNat (length wordList) +:+ " words from " +:+
         (if snd (randomBatch E chatId) then "your topics" else "all topics")) ;;
      handleBatch chatId (Js.join ", " wordList)
  end.

(** [handleContextPivot(chatId, key, value)]; the suggestions come
    from the updated memory context. *)
Definition handleContextPivot (chatId : ChatId) (key value_ : string) : Bot unit :=
  sendMessage chatId
    ("🔄 <b>Context pivot:</b> " +:+ key +:+ " changed from " +:+ dq +:+
     (match oldContextValue E chatId key with Some v => v | None => "unset" end) +:+
     dq +:+ " → " +:+ dq +:+ "<b>" +:+ value_ +:+ "</b>" +:+ dq +:+ nl +:+
     "Let's see what this opens up...") ;;
  match smartWords E chatId with
  | (_ :: _) as words => handleBatch chatId (Js.join ", " words)
  | [] =>
      sendMessageWithKeyboard chatId
        "No new words from this pivot. Let's try something else."
        [[Btn "📂 Topics" "topics_page:0"; Btn "🧠 Memory Guide" "memory:main"];
         [Btn "🏠 Menu" "menu:main"]] ;;
      ret tt
  end.

(* ------------------------------------------------------------------- *)
(** *** runLongOp and the dispatch of commands and callbacks *)
(* ------------------------------------------------------------------- *)

(** The handler a [case] of [handleCommand] or [handleCallback] calls,
    with its arguments.  [Menu name arg] stands for the handlers that
    do no balance checking. *)
Inductive Call : Type :=
| WordCheck (word : string)
| BrainWallet (phrase : string)
| TopicExplore (topicKey : string)
| AITopicExpand (topicKey : string)
| Batch (args : string)
| Dictionary
| DeepCheck (word : string)
| FeelingLucky
| RandomKeyHunt (count : nat)
| CommonWords (type_ : string)
| SmartBatch
| BatchAI (word : string)
| BatchRandom
| ContextPivot (key value_ : string)
| InterviewBatchCheck
| SetStop (reply : option string)
| SetTestNotify (on : bool)
| Reply (text : string)
| Menu (name arg : string)
| Nothing.

(** How a [case] starts its handler: [await runLongOp(() => h(...))] or
    [await h(...)]. *)
Inductive Start : Type :=
| ViaRunLongOp (c : Call)
| Awaited (c : Call).

(** The handlers that reach [checkBalances] or [hasAnyBalance]. *)
Definition checksBalances (c : Call) : bool :=
  match c with
  | WordCheck _ | BrainWallet _ | TopicExplore _ | AITopicExpand _ | Batch _
  | Dictionary | DeepCheck _ | FeelingLucky | RandomKeyHunt _ | CommonWords _
  | SmartBatch | BatchAI _ | BatchRandom | ContextPivot _ _
  | InterviewBatchCheck => true
  | _ => false
  end.

Definition run (chatId : ChatId) (c : Call) : Bot unit :=
  match c with
  | WordCheck word => handleWordCheck chatId word
  | BrainWallet phrase => handleBrainWallet chatId phrase
  | TopicExplore key => handleTopicExplore chatId key
  | AITopicExpand key => handleAITopicExpand 0 chatId key
  | Batch args => handleBatch chatId args
  | Dictionary => handleDictionary chatId
  | DeepCheck word => handleDeepCheck chatId word
  | FeelingLucky => handleFeelingLucky chatId
  | RandomKeyHunt count => handleRandomKeyHunt chatId count
  | CommonWords type_ => handleCommonWords chatId type_
  | SmartBatch => handleSmartBatch chatId
  | BatchAI word => handleBatchAI chatId word
  | BatchRandom => handleBatchRandom chatId
  | ContextPivot key value_ => handleContextPivot chatId key value_
  | InterviewBatchCheck => handleInterviewBatchCheck chatId
  | SetStop reply =>
      modify (setStop true) ;;
      match reply with
      | Some text => sendMessage chatId text ;; ret tt
      | None => ret tt
      end
  | SetTestNotify on =>
      modify (setTestNotifyMode on) ;;
      sendMessage chatId
        (if on
         then "🧪 <b>Test mode ON</b>" +:+ nl +:+ nl +:+
              "You will now receive a preview notification for every word any user checks — even if balance is 0." +:+ nl +:+ nl +:+
              "This lets you see exactly what the real alert will look like." +:+ nl +:+
              "Turn off with /testnotify off"
         else "⏹️ <b>Test mode OFF</b>" +:+ nl +:+ nl +:+
              "You will only receive alerts when a real balance is found.") ;;
      ret tt
  | Reply text => sendMessage chatId text ;; ret tt
  | Menu name arg => orchestration E name chatId arg
  | Nothing => ret tt
  end.

(** [try { ... } catch (e) { ... }] *)
Definition tryCatch (m : Bot unit) (handler : string -> Bot unit) : Bot unit :=
  fun w =>
    let o := m w in
    match value o with
    | Ok _ => o
    | Throw e =>
        let o' := handler e (after o) in
        {| value := value o'; after := after o'; trace := trace o ++ trace o' |}
    end.

(** [runLongOp(fn)]: reset the stop flag, raise [longRunning], run
    [fn]; when it settles (an error is logged), lower [longRunning]
    and reset the stop flag.  While [fn] runs, the polling loop only
    acts on it through stop requests ([incoming]). *)
Definition runLongOp (fn : Bot unit) : Bot unit :=
  modify (setStop false) ;;
  modify (setLongRunning true) ;;
  tryCatch fn (fun _ => ret tt) ;;
  modify (setLongRunning false) ;;
  modify (setStop false).

Definition start (chatId : ChatId) (s : Start) : Bot unit :=
  match s with
  | ViaRunLongOp c => runLongOp (run chatId c)
  | Awaited c => run chatId c
  end.

(** [text.split(/\s+/)] on trimmed text. *)
Fixpoint splitSpacesAcc (cur : string) (s : string) : list string :=
  match s with
  | EmptyString =>
      if String.eqb cur EmptyString then [] else [cur]
  | String a rest =>
      if Js.isSpace a
      then if String.eqb cur EmptyString then splitSpacesAcc EmptyString rest
           else cur :: splitSpacesAcc EmptyString rest
      else splitSpacesAcc (cur +:+ String a EmptyString) rest
  end.

(** [parseInt(s)]: the leading decimal digits; [None] is [NaN].  A
    [0x] prefix is not read as hexadecimal. *)
Fixpoint digitsOf (s : string) (acc : option nat) : option nat :=
  match s with
  | EmptyString => acc
  | String a rest =>
      let n := nat_of_ascii a in
      if (Nat.leb 48 n && Nat.leb n 57)%bool
      then digitsOf rest
             (Some (10 * (match acc with Some v => v | None => O end) + (n - 48))%nat)
      else acc
  end.

Definition parseInt (s : string) : option Z :=
  match Js.trimStart s with
  | String "-" rest => option_map (fun n => - Z.of_nat n) (digitsOf rest None)
  | String "+" rest => option_map Z.of_nat (digitsOf rest None)
  | t => option_map Z.of_nat (digitsOf t None)
  end.

(** [Math.min(Math.max(parseInt(value) || 5, 1), 100)] *)
Definition huntCount (value_ : string) : nat :=
  let parsed := match parseInt value_ with
                | Some z => if z =? 0 then 5 else z
                | None => 5
                end in
  Z.to_nat (Z.min (Z.max parsed 1) 100).

(** The [switch (cmd)] of [handleCommand(chatId, text)]. *)
Definition handleCommand_route (chatId : ChatId) (text : string) : Start :=
  let parts := splitSpacesAcc EmptyString text in
  let cmd := Js.toLowerCase (match parts with p :: _ => p | [] => EmptyString end) in
  let args := Js.join " " (tl parts) in
  let hasArgs := negb (String.eqb args EmptyString) in
  match cmd with
  | "/start" => Awaited (Menu "cmdStart" EmptyString)
  | "/help" => Awaited (Menu "cmdHelp" EmptyString)
  | "/menu" => Awaited (Menu "cmdMainMenu" EmptyString)
  | "/brain" =>
      if hasArgs then Awaited (BrainWallet args)
      else Awaited (Reply ("🧠 Usage: /brain [passphrase]" +:+ nl +:+
                           "Example: /brain correct horse battery staple"))
  | "/topic" =>
      if hasArgs then Awaited (TopicExplore args)
      else Awaited (Menu "cmdListTopics" EmptyString)
  | "/era" =>
      if hasArgs then Awaited (Menu "handleEraExplore" args)
      else Awaited (Reply ("📅 Usage: /era [year]" +:+ nl +:+ "Example: /era 2011"))
  | "/deep" =>
      if hasArgs then Awaited (DeepCheck args)
      else Awaited (Reply "🔍 Usage: /deep [word]")
  | "/bip39" =>
      if hasArgs then Awaited (Menu "handleBIP39Check" args)
      else Awaited (Reply "🌱 Usage: /bip39 [word]")
  | "/batch" =>
      if hasArgs then ViaRunLongOp (Batch args)
      else Awaited (Reply "📦 Usage: /batch word1, word2, word3")
  | "/dictionary" => ViaRunLongOp Dictionary
  | "/suggest" => ViaRunLongOp (Menu "handleAISuggest" args)
  | "/history" => Awaited (Menu "cmdHistory" EmptyString)
  | "/export" => Awaited (Menu "cmdExport" EmptyString)
  | "/settings" =>
      if hasArgs then Awaited (Menu "handleSettingsChange" args)
      else Awaited (Menu "cmdSettings" EmptyString)
  | "/status" => Awaited (Menu "cmdStatus" EmptyString)
  | "/stop" => Awaited (SetStop (Some "⏹️ Stopping current operation..."))
  | "/watch" =>
      if hasArgs then Awaited (Menu "watch" args) else Awaited Nothing
  | "/testnotify" =>
      if negb (isAdmin chatId) then Awaited (Reply "❌ Admin only.")
      else
        let arg := Js.toLowerCase (Js.trim args) in
        if String.eqb arg "on" then Awaited (SetTestNotify true)
        else if String.eqb arg "off" then Awaited (SetTestNotify false)
        else Awaited (Menu "testnotify_once" arg)
  | _ =>
      Awaited (Reply ("❓ Unknown command. Try /help or /menu" +:+ nl +:+
                      "Or just type any word to check it!"))
  end.

(** [data.slice(0, colonIdx)] and [data.slice(colonIdx + 1)], or the
    whole of [data] and [''] when there is no colon. *)
Definition actionOf (data : string) : string :=
  match Js.indexOf ":" data with
  | Some i => Js.sliceTo i data
  | None => data
  end.

Definition valueOf (data : string) : string :=
  match Js.indexOf ":" data with
  | Some i => Js.sliceFrom (S i) data
  | None => EmptyString
  end.

(** The [switch (action)] of [handleCallback(chatId, data)], after its
    two prefix tests. *)
Definition handleCallback_route (chatId : ChatId) (data : string) : Start :=
  if Js.startsWith "mem:" data then Awaited (Menu "handleMemoryAnswer" data)
  else if Js.startsWith "iv:" data then Awaited (Menu "handleInterviewCallback" data)
  else
    let value_ := valueOf data in
    match actionOf data with
    | "explore" => ViaRunLongOp (TopicExplore value_)
    | "cat" => Awaited (Menu "handleCategoryExplore" value_)
    | "cat_page" => Awaited (Menu "handleCategoryExplore" value_)
    | "cat_group" => Awaited (Menu "handleGroupExplore" value_)
    | "cat_grp_pg" => Awaited (Menu "handleGroupExplore" value_)
    | "ai_organize" => ViaRunLongOp (Menu "handleOrganizeWithAI" value_)
    | "lucky" => ViaRunLongOp FeelingLucky
    | "keyhunt" => ViaRunLongOp (RandomKeyHunt (huntCount value_))
    | "era" => Awaited (Menu "handleEraExplore" value_)
    | "eras" => Awaited (Menu "cmdEras" EmptyString)
    | "deep" => ViaRunLongOp (DeepCheck value_)
    | "prompt" =>
        if String.eqb value_ "profile" then Awaited (Menu "showMemoryProfile" EmptyString)
        else Awaited (Menu "handleMemoryPrompt" value_)
    | "memory" => Awaited (Menu "cmdMemoryGuide" EmptyString)
    | "keys" => Awaited (Menu "handleShowKeys" value_)
    | "set" => Awaited (Menu "handleSettingsToggle" value_)
    | "more" => Awaited (Menu "handleMoreSuggestions" value_)
    | "smart_batch" => ViaRunLongOp SmartBatch
    | "smart_ai" => ViaRunLongOp (Menu "handleSmartAI" EmptyString)
    | "interview" =>
        if String.eqb value_ "check_extracted"
        then Awaited InterviewBatchCheck
        else Awaited (Menu "handleInterviewAction" value_)
    | "ai_topic" => ViaRunLongOp (AITopicExpand value_)
    | "batch_ai_more" => ViaRunLongOp (Menu "handleBatchAIMore" EmptyString)
    | "ai_cat_topics" => ViaRunLongOp (Menu "handleAICategoryTopics" value_)
    | "batch_random" => ViaRunLongOp BatchRandom
    | "aisuggest" => ViaRunLongOp (Menu "handleAISuggest" value_)
    | "batch_ai" => ViaRunLongOp (BatchAI value_)
    | "pick_ai" => Awaited (Menu "handlePickAI" value_)
    | "ai_page" => Awaited (Menu "handleAIPage" value_)
    | "check_word" =>
        if String.eqb value_ "dictionary" then ViaRunLongOp Dictionary
        else ViaRunLongOp (WordCheck value_)
    | "common" => ViaRunLongOp (CommonWords value_)
    | "pivot" =>
        match Js.indexOf ":" value_ with
        | Some _ => Awaited (ContextPivot (actionOf value_) (valueOf value_))
        | None => Awaited Nothing
        end
    | "dictionary" => Awaited Dictionary
    | "export" => Awaited (Menu "cmdExport" EmptyString)
    | "menu" => Awaited (Menu "cmdMainMenu" EmptyString)
    | "topics_page" => Awaited (Menu "cmdListTopics" value_)
    | "help" => Awaited (Menu "cmdHelp" EmptyString)
    | "settings" => Awaited (Menu "cmdSettings" value_)
    | "status" => Awaited (Menu "cmdStatus" EmptyString)
    | "history" => Awaited (Menu "cmdHistory" EmptyString)
    | "start" => Awaited (Menu "start" value_)
    | "guide" => Awaited (Menu "cmdGuide" value_)
    | "stop" => Awaited (SetStop None)
    | "ai_fb_add" => Awaited (Menu "handleAIFallbackAdd" value_)
    | "ai_fb_rm" => Awaited (Menu "ai_fb_rm" value_)
    | "ai_fb_info" => Awaited (Menu "ai_fb_info" value_)
    | "ai_fb_set" => Awaited (Menu "handleAIFallbackSet" value_)
    | "explorer_key" => Awaited (Menu "explorer_key" value_)
    | "onboard" => Awaited (Menu "onboard" value_)
    | _ =>
        match getTopicInfo E data with
        | Some _ => Awaited (TopicExplore data)
        | None => Awaited Nothing
        end
    end.

Definition errorReply (chatId : ChatId) (e : string) : Bot unit :=
  sendMessage chatId ("⚠️ Error: " +:+ escHtml e) ;; ret tt.

(** [handleCallback(chatId, data)] *)
Definition handleCallback (chatId : ChatId) (data : string) : Bot unit :=
  tryCatch (start chatId (handleCallback_route chatId data)) (errorReply chatId).

(** The route [handleMessage(chatId, text)] takes: the three session
    states that capture free text, then commands, then a word check. *)
Definition handleMessage_route (chatId : ChatId) (text : string) : Start :=
  let isCommand := Js.startsWith "/" text in
  let state := sessionState E chatId in
  if (String.eqb state "interview" && negb isCommand)%bool
  then Awaited (Menu "handleInterviewTextAnswer" text)
  else if (String.eqb state "awaiting_explorer_key" && negb isCommand)%bool
  then Awaited (Menu "awaiting_explorer_key" text)
  else if (String.eqb state "awaiting_fb_key" && negb isCommand)%bool
  then Awaited (Menu "awaiting_fb_key" text)
  else if isCommand then handleCommand_route chatId text
  else ViaRunLongOp (WordCheck text).

(** [handleMessage(chatId, text)] *)
Definition handleMessage (chatId : ChatId) (text : string) : Bot unit :=
  tryCatch (start chatId (handleMessage_route chatId text)) (errorReply chatId).

(** One element of [updates] in [pollUpdates]. *)
Inductive Update : Type :=
| CallbackQuery (chatId : option ChatId) (data : string)
| TextMessage (chatId : ChatId) (text : string).

(** [data.split(':')[0] === 'stop'], [text.toLowerCase() === '/stop'] *)
Definition isStopRequest (u : Update) : bool :=
  match u with
  | CallbackQuery _ data => String.eqb (actionOf data) "stop"
  | TextMessage _ text => String.eqb (Js.toLowerCase (Js.trim text)) "/stop"
  end.

(** The body of [for (const update of updates)] in [pollUpdates].  The
    rejection notices are not awaited and are recorded only;
    [answerCallbackQuery] is left out. *)
Definition processUpdate (u : Update) : Bot unit :=
  match u with
  | CallbackQuery chat data =>
      if String.eqb (actionOf data) "stop" then modify (setStop true)
      else
        w <- get ;;
        if longRunning w
        then match chat with
             | Some chatId =>
                 emit (SendMessage chatId
                         "⏳ An operation is running. Tap Stop to cancel it first.")
             | None => ret tt
             end
        else match chat with
             | Some chatId =>
                 if String.eqb data EmptyString then ret tt
                 else handleCallback chatId data
             | None => ret tt
             end
  | TextMessage chatId text0 =>
      let text := Js.trim text0 in
      if String.eqb (Js.toLowerCase text) "/stop"
      then modify (setStop true) ;; emit (SendMessage chatId "⏹️ Stopping...")
      else
        w <- get ;;
        if longRunning w
        then emit (SendMessage chatId
                     "⏳ An operation is running. Send /stop to cancel it.")
        else handleMessage chatId text
  end.

End Bot.

(* ===================================================================== *)
(** ** lib/bitcoin: deriveBrainWallet *)
(* ===================================================================== *)

Module Bitcoin.

(** The order of the secp256k1 group. *)
Definition curveOrder : Z :=
  0xFFFFFFFFFFFFFFFFFFFFFFFFFFFFFFFEBAAEDCE6AF48A03BBFD25E8CD0364141.

(** The encodings of a private key: point multiplication, hashing and
    the Base58Check and bech32 encoders are functions of the key. *)
Record Encoders := {
  wifOf : bool -> Z -> string;
  addressesOf : Z -> Addresses
}.

(** [KeyMaterial]: a scalar that is a valid private key. *)
Definition validScalar (k : Z) : bool := ((0 <? k) && (k <? curveOrder))%bool.

(** Modelled from the spec: lib/bitcoin is not among the sources.
    [KeyMaterial = SHA-256(UTF-8 bytes of phrase)], a single pass with
    no retry; the derivation fails with [InvalidKeyMaterial] when the
    digest is zero or not below the curve order; the address bundle
    and both WIF encodings are functions of the key material alone. *)
Definition deriveBrainWallet (enc : Encoders) (phrase : string) : Result BrainResult :=
  let keyMaterial := Sha256.digest phrase in
  if validScalar keyMaterial
  then Ok {| privateKey := Sha256.hex 64 keyMaterial;
             wifCompressed := wifOf enc true keyMaterial;
             wifUncompressed := wifOf enc false keyMaterial;
             addresses := addressesOf enc keyMaterial |}
  else Throw "InvalidKeyMaterial".

(** Modelled from the spec: [getBrainWalletAddresses] flattens a
    derivation result into both legacy variants. *)
Definition getBrainWalletAddresses (r : BrainResult) : list string :=
  [legacy_compressed (addresses r); legacy_uncompressed (addresses r)].

End Bitcoin.

(* ===================================================================== *)
(** ** Vocabulary of the properties *)
(* ===================================================================== *)

(** The times at which a progress callback edits the status message,
    over a run of invocations. *)
Fixpoint editTimes (cb : ProgressCallback) (last : Z)
    (calls : list (Z * (nat * nat))) : list Z :=
  match calls with
  | [] => []
  | c :: rest =>
      let r := cb last c in
      match fst r with
      | [] => editTimes cb (snd r) rest
      | _ :: _ => fst c :: editTimes cb (snd r) rest
      end
  end.

(** Successive times at least 2000 ms apart, counted from [prev]. *)
Fixpoint spaced (prev : Z) (ts : list Z) : Prop :=
  match ts with
  | [] => True
  | t :: rest => 2000 <= t - prev /\ spaced t rest
  end.

(** A callback that edits at most once per invocation, never within
    2000 ms of the time it remembers, and remembers the time of its
    last edit. *)
Definition throttled (cb : ProgressCallback) : Prop :=
  forall last call,
    (fst call - last < 2000 -> cb last call = ([], last)) /\
    (2000 <= fst call - last ->
       (exists e, fst (cb last call) = [e]) /\ snd (cb last call) = fst call
       \/ cb last call = ([], last)).

(* ===================================================================== *)
(** ** A small concrete installation, for evaluating the handlers *)
(* ===================================================================== *)

Module Demo.

Definition encoders : Bitcoin.Encoders :=
  {| Bitcoin.wifOf := fun compressed k =>
       (if compressed then "K" else "5") +:+ Sha256.hex 8 k;
     Bitcoin.addressesOf := fun k =>
       {| legacy_compressed := "1C" +:+ Sha256.hex 8 k;
          legacy_uncompressed := "1U" +:+ Sha256.hex 8 k;
          segwit := "3S" +:+ Sha256.hex 8 k;
          nativeSegwit := "bc1q" +:+ Sha256.hex 8 k |} |}.

Definition settings : Settings :=
  {| variations := false; var_depth := "normal"; brain := true; bip39 := true;
     repeats := [12%nat]; paths := ["bip44"%string]; indices := 1;
     api_pref := "auto"; ai_provider := "groq"; auto_topic := false;
     batch_limit := 50; preferred_api := None; max_addresses := None;
     explorerApiKeys := {| blockchain_key := None; blockcypher_key := None;
                           blockstream_key := None |} |}.

Definition seedOf (word : string) (count : nat) (paths_ : list string)
    (indices_ : nat) : Result SeedResult :=
  Ok {| pathResults :=
          List.map
            (fun p =>
               (p, List.map
                     (fun i =>
                        {| index := i;
                           path := p +:+ "/" +:+ Js.showNat i;
                           legacy := "1S" +:+ Js.showNat count +:+ "x" +:+ word +:+ Js.showNat i;
                           seedNativeSegwit :=
                             "bc1s" +:+ Js.showNat count +:+ "x" +:+ word +:+ Js.showNat i;
                           wif := Some ("L" +:+ Js.showNat count +:+ "x" +:+ word) |})
                     (seq 0 indices_)))
            paths_ |}.

Definition seedAddresses (r : SeedResult) : list string :=
  List.concat
    (List.map
       (fun pa : string * list SeedAddr =>
          List.concat (List.map (fun a => [legacy a; seedNativeSegwit a]) (snd pa)))
       (pathResults r)).

Definition wordAddresses (word : string) (st : Settings) : list string :=
  dedupe
    ((if bip39 st
      then List.concat
             (List.map
                (fun count =>
                   match seedOf word count (paths st) (indices st) with
                   | Ok r => seedAddresses r
                   | Throw _ => []
                   end)
                (repeats st))
      else []) ++
     (if brain st
      then match Bitcoin.deriveBrainWallet encoders word with
           | Ok r => Bitcoin.getBrainWalletAddresses r
           | Throw _ => []
           end
      else [])).

Definition noAI : AIResult :=
  {| ai_ok := false; ai_words := []; ai_provider_name := "groq";
     ai_fallbackUsed := false; ai_triedProviders := []; ai_rateLimited := false;
     ai_error := None |}.

Definition aiWords (ws : list string) : AIResult :=
  {| ai_ok := true; ai_words := ws; ai_provider_name := "groq";
     ai_fallbackUsed := false; ai_triedProviders := []; ai_rateLimited := false;
     ai_error := None |}.

Definition admin : ChatId := 1000.
Definition user : ChatId := 42.

Definition collaborators : Collaborators :=
  {| TELEGRAM_CHAT_ID := Some admin;
     WEBAPP_URL := None;
     settings_get := fun _ => settings;
     settings_global := settings;
     deriveBrainWallet := Bitcoin.deriveBrainWallet encoders;
     getBrainWalletAddresses := Bitcoin.getBrainWalletAddresses;
     deriveRepeatedWordSeed := seedOf;
     getRepeatedSeedAddresses := seedAddresses;
     isInBIP39Wordlist := fun w => existsb (String.eqb w) ["abandon"; "zoo"]%string;
     getBIP39Wordlist := ["abandon"; "zoo"]%string;
     fullWordCheck := wordAddresses;
     deriveRandomKey := fun i => Bitcoin.deriveBrainWallet encoders ("random" +:+ Js.showNat i);
     generateVariations := fun w _ => [w; w +:+ "1"];
     progressBar := fun a b => Js.showNat a +:+ "/" +:+ Js.showNat b;
     messageId := fun _ _ => Some 7;
     getTopicInfo := fun key =>
       if String.eqb key "bitcoin"
       then Some {| label := "Bitcoin"; category := Some "crypto"%string;
                    topicWords := ["satoshi"; "hodl"]%string |}
       else None;
     searchTopics := fun _ => [];
     getTopicWords := fun _ _ => aiWords ["satoshi"; "hodl"]%string;
     detectedTopic := fun _ => None;
     lastWord := fun _ => None;
     keyhuntTotal := fun _ => O;
     hasFallbacks := fun _ => false;
     topicDetection := fun _ _ => (EmptyString, []);
     pivotMessage := fun _ => None;
     progressiveButtons := fun _ => [];
     checkedWordsCount := fun _ => O;
     checkedTopicsCount := fun _ => O;
     getLuckyPick := fun _ => noAI;
     luckyFallback := fun _ => (["satoshi"; "hodl"]%string, "🎲 Random picks"%string);
     randomFluff := "Somewhere a wallet waits.";
     randomEncouragement := "Keep spinning!";
     sessionState := fun _ => "idle"%string;
     smartWords := fun _ => [];
     aiSuggestionWords := fun _ => None;
     interviewExtracted := fun _ => [];
     randomBatch := fun _ => ([], false);
     oldContextValue := fun _ _ => None;
     orchestration := fun _ _ _ w => {| value := Ok tt; after := w; trace := [] |};
     encodeURIComponent := fun s => s;
     showBtc := fun z => Js.showZ z +:+ "e-8";
     toLocaleString := Js.showNat |}.

(** A balance checker that finds [amount] on the addresses in [funded]
    and nothing elsewhere, and reports no progress. *)
Definition replyWith (funded : list string) (amount : Z) (addrs : list string)
    : OracleReply :=
  {| progress := [];
     outcome :=
       Ok (List.map
             (fun a =>
                (a, {| balance := if existsb (String.eqb a) funded then amount else 0;
                       api := "blockchain" |}))
             (firstn 50 addrs)) |}.

(** The addresses of the word [satoshi] under [settings], and the
    answer of [replyWith] when its compressed legacy brain-wallet
    address holds [amount]. *)
Definition satoshiAddresses : list string :=
  ["1S12xsatoshi0"; "bc1s12xsatoshi0"; "1C7b09726f"; "1U7b09726f"]%string.

Definition satoshiBalances (amount : Z) : BalanceMap :=
  List.map
    (fun a => (a, {| balance := if String.eqb a "1C7b09726f" then amount else 0;
                     api := "blockchain" |}))
    satoshiAddresses.

(** A balance checker whose promise is rejected. *)
Definition replyFailing (addrs : list string) : OracleReply :=
  {| progress := []; outcome := Throw "All providers exhausted" |}.

Definition world (reply : list string -> OracleReply) (stops : list bool) : World :=
  {| stopCurrentBatch := false; longRunning := false; testNotifyMode := false;
     wordCache := ∅; oracleCalls := 0;
     checkBalancesReply := fun _ => reply;
     hasAnyBalanceReply := fun _ _ => Ok false;
     incoming := stops |}.

(** A world whose checker reports a balance on every seed address
    list it is asked about. *)
Definition seedsFunded : World :=
  {| stopCurrentBatch := false; longRunning := false; testNotifyMode := false;
     wordCache := ∅; oracleCalls := 0;
     checkBalancesReply := fun _ => replyWith [] 0;
     hasAnyBalanceReply := fun _ _ => Ok true;
     incoming := [] |}.

(** The events of a trace that are cache writes. *)
Definition cacheWrites (tr : list Event) : list (string * bool * Z * nat) :=
  List.concat
    (List.map
       (fun e => match e with
                 | CacheWordResult p h t n => [(p, h, t, n)]
                 | _ => []
                 end)
       tr).

(** The number of balance queries in a trace. *)
Definition queries (tr : list Event) : nat :=
  length (List.filter
            (fun e => match e with
                      | CheckBalances _ _ _ _ _ _ | HasAnyBalance _ _ => true
                      | _ => false
                      end)
            tr).

End Demo.

(* ===================================================================== *)
(** ** Reasoning about handlers *)
(* ===================================================================== *)

(** A Hoare triple with a trace predicate: from a world satisfying
    [Pre], every event [m] issues satisfies [Ev], and if [m] returns,
    its value and the world it leaves satisfy [Post]. *)
Definition triple {A} (Pre : World -> Prop) (m : Bot A) (Ev : Event -> Prop)
    (Post : A -> World -> Prop) : Prop :=
  forall w, Pre w ->
    Forall Ev (trace (m w)) /\
    match value (m w) with
    | Ok a => Post a (after (m w))
    | Throw _ => True
    end.

(** What a handler may do to the balance checker and to the cache. *)
Record Allowed := {
  okQuery : list string -> (World -> bool) -> Prop;
  okHasAny : list string -> Prop;
  okWrite : string -> bool -> Z -> nat -> Prop
}.

Definition allowed (S : Allowed) (e : Event) : Prop :=
  match e with
  | CheckBalances addrs _ _ tok _ _ => okQuery S addrs tok
  | HasAnyBalance addrs _ => okHasAny S addrs
  | CacheWordResult p h t n => okWrite S p h t n
  | _ => True
  end.

(** [shouldStop] returns the current value of [stopCurrentBatch]. *)
Definition readsStopFlag (tok : World -> bool) : Prop :=
  forall w, tok w = stopCurrentBatch w.

(** No stop request is processed while the handler runs. *)
Definition undisturbed (w : World) : Prop := incoming w = [].

(** A projection of traces: what each event contributes. *)
Definition view {X} (pi : Event -> list X) (tr : list Event) : list X :=
  flat_map pi tr.

(** [m], started in [w], returns [a], leaves [w'], and its trace
    projects to [v]. *)
Definition runsTo {X A} (pi : Event -> list X) (m : Bot A) (w : World)
    (a : A) (w' : World) (v : list X) : Prop :=
  exists tr,
    m w = {| value := Ok a; after := w'; trace := tr |} /\ view pi tr = v.

(** The alerts sent to the admin chat with [sendMessage]. *)
Definition alertsTo (admin : ChatId) (e : Event) : list string :=
  match e with
  | SendMessage c text => if Z.eqb c admin then [text] else []
  | _ => []
  end.

(** The cache writes. *)
Definition writeOf (e : Event) : list (string * bool * Z * nat) :=
  match e with
  | CacheWordResult p h t n => [(p, h, t, n)]
  | _ => []
  end.

(** The address lists submitted to the balance checker. *)
Definition queryOf (e : Event) : list (list string) :=
  match e with
  | CheckBalances addrs _ _ _ _ _ => [addrs]
  | HasAnyBalance addrs _ => [addrs]
  | _ => []
  end.

(** Queries and cache writes together, in order. *)
Definition oracleOrCache (e : Event) : list Event :=
  match e with
  | CheckBalances _ _ _ _ _ _ | HasAnyBalance _ _ | CacheWordResult _ _ _ _ => [e]
  | _ => []
  end.

(** What the loops of the handlers compute when nothing stops them. *)
Definition deriveAll (E : Collaborators) (st : Settings) (word : string)
    (variants : list string) (s : Derived) : Derived :=
  fold_left (fun acc v => deriveVariant E st word v acc) variants s.

(** The addresses [handleWordCheck] derives for a word. *)
Definition derivedAddresses (E : Collaborators) (st : Settings) (word : string)
    : list string :=
  dedupe (allAddresses
            (deriveAll E st word
               (if variations st then generateVariations E word (var_depth st)
                else [word])
               {| allAddresses := []; derivationDetails := [];
                  checkedVariants := O |})).

(** The cache after [cacheWordResult]. *)
Definition cached (phrase : string) (h : bool) (t : Z) (n : nat) (w : World) : World :=
  setWordCache
    (<[ normalizePhrase phrase :=
          {| hasBalance := h; balanceTotal := t; addressCount := n |} ]> (wordCache w)) w.

(** The world after one balance query. *)
Definition queried (w : World) : World := setOracleCalls (Datatypes.S (oracleCalls w)) w.

(** The stop-flag reader every cancellable query is given. *)
Definition stopFlag : World -> bool := fun w => stopCurrentBatch w.

Section Expected.

Variable E : Collaborators.

(** What [notifyAdmin] sends. *)
Definition alert (word : string) (balanceResults : BalanceMap) (mode_ : string)
    : list Event :=
  match TELEGRAM_CHAT_ID E with
  | None => []
  | Some admin =>
      match List.filter (fun e => positive (snd e)) balanceResults with
      | [] => []
      | (_ :: _) as entries =>
          match deriveBrainWallet E word with
          | Throw _ => []
          | Ok brainResult =>
              [SendMessage admin (notifyAdminText E word entries brainResult mode_)]
          end
      end
  end.

(** What [notifyAdminTestMode] sends. *)
Definition testAlert (testMode : bool) (word : string) (balanceResults : BalanceMap)
    (userChatId : ChatId) (mode_ : string) : list Event :=
  match TELEGRAM_CHAT_ID E with
  | None => []
  | Some admin =>
      if negb testMode then []
      else if isAdmin E userChatId then []
      else match deriveBrainWallet E word with
           | Throw _ => []
           | Ok brainResult =>
               [SendMessage admin
                  (notifyAdminTestModeText word balanceResults brainResult
                     userChatId mode_)]
           end
  end.

(** The variants [handleWordCheck] derives from. *)
Definition variantsOf (st : Settings) (word : string) : list string :=
  if variations st then generateVariations E word (var_depth st) else [word].

(** What the balance checker answers to the next query, for [addrs]. *)
Definition nextOutcome (w : World) (addrs : list string) : Result BalanceMap :=
  outcome (checkBalancesReply w (oracleCalls w) addrs).

(** The query, cache write and history record of [checkAndCache]. *)
Definition checkAndCacheEvents (chatId : ChatId) (st : Settings) (word : string)
    (addrs : list string) (w : World) : list Event :=
  let out := nextOutcome w addrs in
  [ CheckBalances addrs (api_pref st) 50 stopFlag true (explorerApiKeys st);
    CacheWordResult word (foundAmong out) (sumBalances (collected out)) (length addrs);
    RecordCheck chatId word addrs (List.map snd (collected out)) "full" ].

(** The result message of [handleWordCheck]. *)
Definition resultMessage (chatId : ChatId) (st : Settings) (word : string)
    (balanceResults : BalanceMap) (foundBalance : bool) : Event :=
  let d := deriveAll E st word (variantsOf st word)
             {| allAddresses := []; derivationDetails := []; checkedVariants := O |} in
  SendMessageWithKeyboard chatId
    (buildResultsMessage E word (length (variantsOf st word))
       (length (dedupe (allAddresses d))) (derivationDetails d)
       balanceResults foundBalance +:+
     fst (topicDetection E chatId word))
    (snd (topicDetection E chatId word) ++ wordCheckButtons E chatId word).

(** Everything [wordCheck] does, status edits and deletions apart, when
    it is not stopped. *)
Definition wordCheckEvents (chatId : ChatId) (st : Settings) (word : string)
    (w : World) : list Event :=
  let addrs := derivedAddresses E st word in
  let out := nextOutcome w addrs in
  SendMessageWithKeyboard chatId
    (checkingText st word (length (variantsOf st word))) STOP_KEYBOARD ::
  (if knownEmpty (wordCache w !! normalizePhrase word)
   then [ RecordCheck chatId word addrs [] "full_cached";
          resultMessage chatId st word [] false ]
   else checkAndCacheEvents chatId st word addrs w ++
        resultMessage chatId st word (collected out) (foundAmong out) ::
        (if foundAmong out then alert word (collected out) "word_check" else [])) ++
  testAlert (testNotifyMode w) word
    (if knownEmpty (wordCache w !! normalizePhrase word) then [] else collected out)
    chatId "word_check".

(** What the [try] block of a loop iteration sends once the query has
    settled. *)
Definition afterQueryEvents (testMode : bool) (chatId : ChatId) (word mode_ : string)
    (out : Result BalanceMap) : list Event :=
  match out with
  | Ok _ =>
      (if foundAmong out then alert word (collected out) mode_ else []) ++
      testAlert testMode word (collected out) chatId mode_
  | Throw _ => []
  end.

(** What one iteration of a multi-word loop does, status edits and
    history records apart. *)
Definition wordEvents (chatId : ChatId) (st : Settings) (word mode_ : string)
    (w : World) : list Event :=
  let addrs := fullWordCheck E word st in
  let out := nextOutcome w addrs in
  CheckBalances addrs (api_pref st) 50 stopFlag true (explorerApiKeys st) ::
  afterQueryEvents (testNotifyMode w) chatId word mode_ out ++
  [CacheWordResult word (foundAmong out) 0 (length addrs)].

(** The state a multi-word loop is in after one more word. *)
Definition nextState (cb : ProgressCallback) (st : Settings) (word : string)
    (s : LoopState) (w : World) (countsFound : bool) : LoopState :=
  let addrs := fullWordCheck E word st in
  let reply := checkBalancesReply w (oracleCalls w) addrs in
  {| results := results s ++
                [{| wr_word := word; wr_hasBalance := false;
                    wr_addressCount := length addrs |}];
     lastProgress := snd (runProgress cb (lastProgress s) (progress reply));
     foundAny := if countsFound
                 then (foundAny s || foundAmong (outcome reply))%bool
                 else foundAny s |}.

(** Everything [handleBrainWallet] does, the deletion of the status
    message apart, for a phrase whose derivation succeeds with [r]. *)
Definition brainWalletEvents (chatId : ChatId) (phrase : string) (r : BrainResult)
    (w : World) : list Event :=
  let st := settings_get E chatId in
  let addrs := getBrainWalletAddresses E r in
  let out := nextOutcome w addrs in
  [ SendMessage chatId
      ("🧠 Checking brain wallet: " +:+ dq +:+ "<b>" +:+ escHtml phrase +:+
       "</b>" +:+ dq +:+ "...");
    CheckBalances addrs (api_pref st) 50 stopFlag false (explorerApiKeys st) ] ++
  (if foundAmong out then alert phrase (collected out) "brain_wallet" else []) ++
  [ SendMessageWithKeyboard chatId
      (brainWalletText phrase r
         (match out with
          | Ok balances => String.concat EmptyString (List.map brainBalanceLine balances)
          | Throw e => "  ⚠️ Balance check failed: " +:+ escHtml e
          end))
      [[Btn "🔑 Show WIF Keys" ("keys:brain:" +:+ Js.sliceTo 50 phrase);
        Btn "🔍 Check Variations" ("deep:" +:+ firstWord phrase)];
       [Btn "🏠 Menu" "menu:main"]];
    RecordCheck chatId phrase addrs [] "brain" ].

(** The two messages a single word check sends to the requesting chat. *)
Definition wordCheckMessages (chatId : ChatId) (st : Settings) (word : string)
    : list Event :=
  [ SendMessageWithKeyboard chatId
      (checkingText st word (length (variantsOf st word))) STOP_KEYBOARD;
    resultMessage chatId st word [] false ].

End Expected.

(** Policies on queries and cache writes. *)

(** No query and no cache write at all. *)
Definition nothingAllowed : Allowed :=
  {| okQuery := fun _ _ => False;
     okHasAny := fun _ => False;
     okWrite := fun _ _ _ _ => False |}.

(** Every [checkBalances] call is given a token that reads the stop flag. *)
Definition stopAware : Allowed :=
  {| okQuery := fun _ tok => readsStopFlag tok;
     okHasAny := fun _ => True;
     okWrite := fun _ _ _ _ => True |}.

(** Every [checkBalances] call is given a token that never stops it. *)
Definition neverStops : Allowed :=
  {| okQuery := fun _ tok => forall w, tok w = false;
     okHasAny := fun _ => True;
     okWrite := fun _ _ _ _ => True |}.

(** Every cache write records a total of 0. *)
Definition zeroTotals : Allowed :=
  {| okQuery := fun _ _ => True;
     okHasAny := fun _ => True;
     okWrite := fun _ _ t _ => t = 0 |}.

(** Queries and writes only for words the cache [c] does not know to be
    empty. *)
Definition freshOnly (E : Collaborators) (st : Settings)
    (c : gmap string CachedWordResult) : Allowed :=
  {| okQuery := fun addrs _ =>
       exists word,
         knownEmpty (c !! normalizePhrase word) = false /\
         addrs = fullWordCheck E word st;
     okHasAny := fun _ => False;
     okWrite := fun p _ _ _ => knownEmpty (c !! normalizePhrase p) = false |}.

(** The token policy of a handler: the random key hunt passes
    [() => false], every other handler [() => stopCurrentBatch]. *)
Definition tokenPolicy (c : Call) : Allowed :=
  match c with
  | RandomKeyHunt _ => neverStops
  | _ => stopAware
  end.

(** What the tokens of the queries of a trace answer in the world [w]. *)
Definition tokensAt (w : World) (e : Event) : list bool :=
  match e with
  | CheckBalances _ _ _ tok _ _ => [tok w]
  | _ => []
  end.

(** What is sent to the chat [chat] with [sendMessage] or
    [sendMessageWithKeyboard]: the text, and the keyboard if any. *)
Definition sentTo (chat : ChatId) (e : Event) : list (string * option Keyboard) :=
  match e with
  | SendMessage c text => if Z.eqb c chat then [(text, None)] else []
  | SendMessageWithKeyboard c text kb => if Z.eqb c chat then [(text, Some kb)] else []
  | _ => []
  end.

(** Two answers of the balance checker that differ in the balances at
    most: the same addresses in the same order, or the same failure. *)
Definition sameAddresses (o1 o2 : Result BalanceMap) : Prop :=
  match o1, o2 with
  | Ok m1, Ok m2 => List.map fst m1 = List.map fst m2
  | Throw e1, Throw e2 => e1 = e2
  | _, _ => False
  end.

(** A decision procedure for [Js.includes]. *)
Fixpoint includesb (s t : string) : bool :=
  (String.prefix t s ||
   match s with
   | EmptyString => false
   | String _ rest => includesb rest t
   end)%bool.

(** The strings an alert for [word] is expected to carry: the escaped
    word, the brain-wallet key in hex and in both WIF encodings, the four
    brain-wallet addresses, and the addresses found to hold a balance. *)
Definition alertParts (word : string) (br : BrainResult) (balances : BalanceMap)
    : list string :=
  [ escHtml word; privateKey br; wifCompressed br; wifUncompressed br;
    legacy_compressed (addresses br); legacy_uncompressed (addresses br);
    segwit (addresses br); nativeSegwit (addresses br) ] ++
  List.map fst (List.filter (fun e => positive (snd e)) balances).

(** The entry a multi-word loop pushes onto [results] for a word. *)
Definition shownAsEmpty (E : Collaborators) (st : Settings) (word : string) : WordResult :=
  {| wr_word := word; wr_hasBalance := false;
     wr_addressCount := length (fullWordCheck E word st) |}.

(** The [results] list a loop iteration returns, if it returns. *)
Definition resultsOf (o : Out LoopState) : option (list WordResult) :=
  match value o with
  | Ok s => Some (results s)
  | Throw _ => None
  end.

(* ===================================================================== *)
(** ** Vocabulary of the handler proofs *)
(* ===================================================================== *)

Section Vocabulary.

Variable E : Collaborators.
Variable S : Allowed.
Context {X : Type}.
Variable pi : Event -> list X.

(** What [suspend] may change: the stop flag and the pending requests. *)
Definition stable (P : World -> Prop) : Prop :=
  forall w b l, P w -> P (setIncoming l (if b : bool then setStop true w else w)).

(** Preconditions that survive a suspension and a balance query. *)
Definition robust (P : World -> Prop) : Prop :=
  stable P /\ forall w n, P w -> P (setOracleCalls n w).

(** A callback whose events are all allowed. *)
Definition quiet (cb : option ProgressCallback) : Prop :=
  match cb with
  | Some f => forall last call, Forall (allowed S) (fst (f last call))
  | None => True
  end.

(** What the multi-word loops ask for one word: a query for the word's
    addresses with a token that reads the stop flag, and a cache write
    for the word with total 0. *)
Definition wordAllowed (st : Settings) (word : string) : Prop :=
  okQuery S (fullWordCheck E word st) (fun w => stopCurrentBatch w) /\
  forall h, okWrite S word h 0 (length (fullWordCheck E word st)).

(** The words a handler keeps after consulting the cache [c]. *)
Definition uncached (c : gmap string CachedWordResult) (ws : list string) : list string :=
  List.filter (fun x => negb (knownEmpty (c !! normalizePhrase x))) ws.

(** The words of [ws] that are not known to be empty in [c] are
    allowed. *)
Definition freshAllowed (c : gmap string CachedWordResult) (st : Settings) : Prop :=
  forall word, knownEmpty (c !! normalizePhrase word) = false -> wordAllowed st word.

(** Every query carries a token that reads the stop flag. *)
Definition tokensOK : Prop :=
  forall addrs, okQuery S addrs (fun w => stopCurrentBatch w).

(** A callback that only edits. *)
Definition editsOnly (cb : option ProgressCallback) : Prop :=
  match cb with
  | Some f => forall last call, view pi (fst (f last call)) = []
  | None => True
  end.

(** The value [checkBalances] returns to its caller. *)
Definition settled (cb : option ProgressCallback) (last : Z) (addrs : list string)
    (w : World) : Result BalanceMap * Z :=
  let reply := checkBalancesReply w (oracleCalls w) addrs in
  (outcome reply,
   match cb with
   | Some f => snd (runProgress f last (progress reply))
   | None => last
   end).

(** The world [wordCheck] leaves. *)
Definition afterWordCheck (st : Settings) (word : string) (w : World) : World :=
  let addrs := derivedAddresses E st word in
  let out := nextOutcome w addrs in
  if knownEmpty (wordCache w !! normalizePhrase word) then w
  else cached word (foundAmong out) (sumBalances (collected out)) (length addrs)
         (queried w).

(** The world a loop iteration leaves. *)
Definition afterWord (st : Settings) (word : string) (w : World) : World :=
  let addrs := fullWordCheck E word st in
  cached word (foundAmong (nextOutcome w addrs)) 0 (length addrs) (queried w).

(** The world a multi-word loop leaves when nothing stops it. *)
Fixpoint loopWorld (st : Settings) (words : list string) (w : World) : World :=
  match words with
  | [] => w
  | x :: rest => loopWorld st rest (afterWord st x w)
  end.

(** Everything the iterations of a multi-word loop do, status edits
    and history records apart, when nothing stops it. *)
Fixpoint loopEvents (chatId : ChatId) (st : Settings) (mode_ : string)
    (words : list string) (w : World) : list Event :=
  match words with
  | [] => []
  | x :: rest =>
      wordEvents E chatId st x mode_ w ++
      loopEvents chatId st mode_ rest (afterWord st x w)
  end.

(** The state the loop of [handleBatch] ends in. *)
Fixpoint batchFinal (chatId : ChatId) (st : Settings) (id : option MsgId)
    (n i : nat) (words : list string) (s : LoopState) (w : World) : LoopState :=
  match words with
  | [] => s
  | x :: rest =>
      batchFinal chatId st id n (Datatypes.S i) rest
        (nextState E (handleBatch_onProgress E chatId id i n x (results s)) st x s w
           false)
        (afterWord st x w)
  end.

(** The state the loop of [handleAITopicExpand] ends in. *)
Fixpoint aiTopicFinal (chatId : ChatId) (st : Settings) (id : option MsgId)
    (info : TopicInfo) (n i : nat) (words : list string) (s : LoopState)
    (w : World) : LoopState :=
  match words with
  | [] => s
  | x :: rest =>
      aiTopicFinal chatId st id info n (Datatypes.S i) rest
        (nextState E (handleAITopicExpand_onProgress E chatId id info i n x (results s))
           st x s w true)
        (afterWord st x w)
  end.

(** The caches of two worlds hold the same phrases. *)
Definition samePhrases (w1 w2 : World) : Prop :=
  dom (wordCache w1) = dom (wordCache w2).

End Vocabulary.

(* ===================================================================== *)
(** ** Callback data: the other ways bot.js takes it apart *)
(* ===================================================================== *)

(** [s.split(c)] for a one-character separator: the pieces between the
    separators, empty pieces included; the empty string gives one empty
    piece. *)
Fixpoint splitOn (c : ascii) (s : string) : list string :=
  match s with
  | EmptyString => [EmptyString]
  | String a rest =>
      if Ascii.eqb a c then EmptyString :: splitOn c rest
      else match splitOn c rest with
           | p :: ps => String a p :: ps
           | [] => [String a EmptyString]
           end
  end.

(** [data.split(':')[0]], the action [pollUpdates] compares with
    ['stop']. *)
Definition cbAction (data : string) : string :=
  hd EmptyString (splitOn ":" data).

(** The [case 'pivot'] of [handleCallback]: [value.split(':')], and with
    two parts or more, the arguments [pivotParts[0]] and
    [pivotParts.slice(1).join(':')] of [handleContextPivot]. *)
Definition pivotArgs (value_ : string) : option (string * string) :=
  let pivotParts := splitOn ":" value_ in
  if Nat.leb 2 (length pivotParts)
  then Some (hd EmptyString pivotParts, Js.join ":" (tl pivotParts))
  else None.

(** [handleInterviewCallback(chatId, data)]: [data.split(':')]; fewer
    than three parts are ignored; otherwise the action is [parts[1]] and
    the value [parts.slice(2).join(':')]. *)
Definition interviewCallbackArgs (data : string) : option (string * string) :=
  let parts := splitOn ":" data in
  if Nat.ltb (length parts) 3 then None
  else Some (nth 1 parts EmptyString, Js.join ":" (skipn 2 parts)).

(* ===================================================================== *)
(** ** Vocabulary of the batch properties *)
(* ===================================================================== *)

(** A word made of printable ASCII characters other than the comma: no
    white space of any kind and no byte of a multi-byte character. *)
Definition plainWord (word : string) : Prop :=
  word <> EmptyString /\
  Forall (fun c => (33 <= nat_of_ascii c <= 126)%nat /\ c <> ","%char)
    (list_ascii_of_string word).

(** Text on which the model of JavaScript white space is exact: every
    character is ASCII and none is a vertical tab or a form feed.
    [Js.isSpace] knows the blank, the tab, the line feed and the
    carriage return; [String.prototype.trim] and the class [\s] know
    these, the vertical tab, the form feed and white space outside
    ASCII. *)
Definition asciiText (s : string) : Prop :=
  Forall (fun c => (nat_of_ascii c < 128)%nat /\
                   nat_of_ascii c <> 11%nat /\ nat_of_ascii c <> 12%nat)
    (list_ascii_of_string s).

(* ===================================================================== *)
(** ** pollUpdates: the loop over the updates of one poll *)
(* ===================================================================== *)

(** [for (const update of updates) { ... }] in [pollUpdates]: the body
    is [processUpdate]; a [continue] ends one iteration. *)
Definition pollUpdates_loop (E : Collaborators) (updates : list Update) : Bot unit :=
  forEach (processUpdate E) updates.

(** An update as the loop of [pollUpdates] reads it where the model is
    exact: a text message carries a text (the loop skips a message
    without one) and the text is [asciiText]. *)
Definition plainUpdate (u : Update) : Prop :=
  match u with
  | CallbackQuery _ _ => True
  | TextMessage _ text => text <> EmptyString /\ asciiText text
  end.

(** Every query is a [checkBalances] call with pairwise distinct
    addresses and a token that reads the stop flag; there is no
    [hasAnyBalance] call; every cache write is for [word]. *)
Definition distinctAddresses (word : string) : Allowed :=
  {| okQuery := fun addrs tok => List.NoDup addrs /\ readsStopFlag tok;
     okHasAny := fun _ => False;
     okWrite := fun p _ _ _ => p = word |}.

(** The one query of a key hunt: the addresses [addrs], a token that
    never stops the checker; no [hasAnyBalance] call and no cache
    write. *)
Definition huntOnly (addrs : list string) : Allowed :=
  {| okQuery := fun a tok => a = addrs /\ forall w, tok w = false;
     okHasAny := fun _ => False;
     okWrite := fun _ _ _ _ => False |}.

(* ===================================================================== *)
(** ** The bounded cache of AI suggestions *)
(* ===================================================================== *)

Definition MAX_AI_CACHE : nat := 500.

Section AICache.

(** What is cached per chat: [{ word, words, provider, model }]. *)
Variable V : Type.

(** [aiSuggestionCache], a JavaScript [Map] with string keys: its
    entries in insertion order, every key once. *)
Definition AICache : Type := list (string * V).

(** [Map.prototype.get] *)
Definition cacheGet (key : string) (m : AICache) : option V :=
  option_map snd (List.find (fun e => String.eqb (fst e) key) m).

(** [Map.prototype.delete] *)
Definition cacheDelete (key : string) (m : AICache) : AICache :=
  List.filter (fun e => negb (String.eqb (fst e) key)) m.

(** [Map.prototype.set]: a key that is present keeps its place and
    gets the new value, a new key goes to the end. *)
Fixpoint cacheSet (key : string) (value_ : V) (m : AICache) : AICache :=
  match m with
  | [] => [(key, value_)]
  | (k, v) :: rest =>
      if String.eqb k key then (k, value_) :: rest
      else (k, v) :: cacheSet key value_ rest
  end.

(** [function setAICache(key, value)] *)
Definition setAICache (key : string) (value_ : V) (m : AICache) : AICache :=
  let m1 :=
    if Nat.leb MAX_AI_CACHE (length m)
    then match m with
         | [] => m
         | (firstKey, _) :: _ => cacheDelete firstKey m
         end
    else m in
  cacheSet key value_ m1.

End AICache.

Arguments cacheGet {V}.
Arguments cacheDelete {V}.
Arguments cacheSet {V}.
Arguments setAICache {V}.

(** A full cache: 500 entries with the keys ["0"] ... ["499"]. *)
Definition fullCache : AICache nat :=
  List.map (fun n => (Js.showNat n, n)) (List.seq 0 MAX_AI_CACHE).

(** Whether the strings of a list are pairwise different. *)
Fixpoint distinctKeys (l : list string) : bool :=
  match l with
  | [] => true
  | x :: rest => negb (existsb (String.eqb x) rest) && distinctKeys rest
  end.

(** The installation of [Demo] with a seed derivation that throws. *)
Definition brokenSeeds : Collaborators :=
  {| TELEGRAM_CHAT_ID := TELEGRAM_CHAT_ID Demo.collaborators;
     WEBAPP_URL := WEBAPP_URL Demo.collaborators;
     settings_get := settings_get Demo.collaborators;
     settings_global := settings_global Demo.collaborators;
     deriveBrainWallet := deriveBrainWallet Demo.collaborators;
     getBrainWalletAddresses := getBrainWalletAddresses Demo.collaborators;
     deriveRepeatedWordSeed := fun _ _ _ _ => Throw "Invalid mnemonic";
     getRepeatedSeedAddresses := getRepeatedSeedAddresses Demo.collaborators;
     isInBIP39Wordlist := isInBIP39Wordlist Demo.collaborators;
     getBIP39Wordlist := getBIP39Wordlist Demo.collaborators;
     fullWordCheck := fullWordCheck Demo.collaborators;
     deriveRandomKey := deriveRandomKey Demo.collaborators;
     generateVariations := generateVariations Demo.collaborators;
     progressBar := progressBar Demo.collaborators;
     messageId := messageId Demo.collaborators;
     getTopicInfo := getTopicInfo Demo.collaborators;
     searchTopics := searchTopics Demo.collaborators;
     getTopicWords := getTopicWords Demo.collaborators;
     detectedTopic := detectedTopic Demo.collaborators;
     lastWord := lastWord Demo.collaborators;
     keyhuntTotal := keyhuntTotal Demo.collaborators;
     hasFallbacks := hasFallbacks Demo.collaborators;
     topicDetection := topicDetection Demo.collaborators;
     pivotMessage := pivotMessage Demo.collaborators;
     progressiveButtons := progressiveButtons Demo.collaborators;
     checkedWordsCount := checkedWordsCount Demo.collaborators;
     checkedTopicsCount := checkedTopicsCount Demo.collaborators;
     getLuckyPick := getLuckyPick Demo.collaborators;
     luckyFallback := luckyFallback Demo.collaborators;
     randomFluff := randomFluff Demo.collaborators;
     randomEncouragement := randomEncouragement Demo.collaborators;
     sessionState := sessionState Demo.collaborators;
     smartWords := smartWords Demo.collaborators;
     aiSuggestionWords := aiSuggestionWords Demo.collaborators;
     interviewExtracted := interviewExtracted Demo.collaborators;
     randomBatch := randomBatch Demo.collaborators;
     oldContextValue := oldContextValue Demo.collaborators;
     orchestration := orchestration Demo.collaborators;
     encodeURIComponent := encodeURIComponent Demo.collaborators;
     showBtc := showBtc Demo.collaborators;
     toLocaleString := toLocaleString Demo.collaborators |}.

(* ===================================================================== *)
(** ** SHA-256 as the standard words it *)
(* ===================================================================== *)

(** The secure hash standard (FIPS 180-4, sections 5 and 6.2) read as a
    definition, for comparison with the routine [Sha256.digest]: the
    padded message is addressed by index, the message schedule [W] and
    the working variables are given by their recurrences, and the hash
    value [H] by recursion on the number of blocks.  The functions of
    section 4.1.2 and the constants of sections 4.2.2 and 5.3.3 are those
    of [Sha256]. *)
Module Fips180.

Import Sha256.

(** Addition of words is modulo 2^32 (section 3.2). *)
Definition mod32 (x : Z) : Z := x mod 2 ^ 32.

(** [least P fuel k]: the least number from [k] on that satisfies [P],
    among [fuel] candidates. *)
Fixpoint least (P : nat -> bool) (fuel k : nat) : nat :=
  match fuel with
  | O => k
  | S f => if P k then k else least P f (S k)
  end.

(** 5.1.1, counted in bytes: after the byte [0x80] come [z] zero bytes,
    [z] the least number with [l + 1 + z = 56 mod 64]. *)
Definition zeroBytes (l : nat) : nat :=
  least (fun z => Nat.eqb ((l + 1 + z) mod 64) 56) 64 0.

(** Byte [j] (of 8, most significant first) of the length in bits. *)
Definition lengthByte (l : nat) (j : nat) : Z :=
  (8 * Z.of_nat l / 2 ^ (8 * Z.of_nat (7 - j))) mod 256.

Definition padded (msg : list Z) : list Z :=
  msg ++ [128] ++ repeat 0 (zeroBytes (length msg)) ++
  List.map (lengthByte (length msg)) (seq 0 8).

(** 5.2.1: the message is parsed into blocks of sixteen 32-bit words;
    [M bytes i t] is word [t] of block [i] (blocks counted from 0). *)
Definition M (bytes : list Z) (i t : nat) : Z :=
  let j := (64 * i + 4 * t)%nat in
  nth j bytes 0 * 2 ^ 24 + nth (j + 1) bytes 0 * 2 ^ 16 +
  nth (j + 2) bytes 0 * 2 ^ 8 + nth (j + 3) bytes 0.


(** 6.2.2, step 1: the message schedule. *)
Fixpoint Wfuel (fuel : nat) (Mi : nat -> Z) (t : nat) : Z :=
  match fuel with
  | O => 0
  | S f =>
      if Nat.ltb t 16 then Mi t
      else mod32 (ssig1 (Wfuel f Mi (t - 2)) + Wfuel f Mi (t - 7) +
                  ssig0 (Wfuel f Mi (t - 15)) + Wfuel f Mi (t - 16))
  end.

Definition W (Mi : nat -> Z) (t : nat) : Z := Wfuel (S t) Mi t.

(** Steps 2 and 3: the working variables after [t] rounds, started
    from the hash value [h]. *)
Fixpoint vars (h : Regs) (Mi : nat -> Z) (t : nat) : Regs :=
  match t with
  | O => h
  | S t' =>
      let v := vars h Mi t' in
      let T1 := mod32 (rh v + bsig1 (re v) + ch (re v) (rf v) (rg v) +
                       nth t' K 0 + W Mi t') in
      let T2 := mod32 (bsig0 (ra v) + maj (ra v) (rb v) (rc v)) in
      {| ra := mod32 (T1 + T2); rb := ra v; rc := rb v; rd := rc v;
         re := mod32 (rd v + T1); rf := re v; rg := rf v; rh := rg v |}
  end.

(** Step 4: the hash value after [i] blocks. *)
Fixpoint H (bytes : list Z) (i : nat) : Regs :=
  match i with
  | O => regsOf H0
  | S j =>
      let h := H bytes j in
      let v := vars h (M bytes j) 64 in
      {| ra := mod32 (ra v + ra h); rb := mod32 (rb v + rb h);
         rc := mod32 (rc v + rc h); rd := mod32 (rd v + rd h);
         re := mod32 (re v + re h); rf := mod32 (rf v + rf h);
         rg := mod32 (rg v + rg h); rh := mod32 (rh v + rh h) |}
  end.


End Fips180.

(* ===================================================================== *)
(** ** Checks of the string and hashing functions *)
(* ===================================================================== *)

Example escHtml_ex : escHtml "a<b & c>d" = "a&lt;b &amp; c&gt;d".
Proof. reflexivity. Qed.




(* ===================================================================== *)
(** ** Properties *)
(* ===================================================================== *)

Section Throttle.

Variable E : Collaborators.

Lemma throttled_spaced (cb : ProgressCallback) :
  throttled cb ->
  forall calls last, spaced last (editTimes cb last calls).
Proof.
  intros Hcb calls. induction calls as [|c rest IH]; intros last; simpl.
  - exact I.
  - destruct (Hcb last c) as [Hlt Hge].
    destruct (Z_lt_ge_dec (fst c - last) 2000) as [Hl|Hg].
    + rewrite (Hlt Hl). simpl. apply IH.
    + destruct (Hge ltac:(lia)) as [[[e He] Hs]|Hn].
      * rewrite He, Hs. split; [lia|apply IH].
      * rewrite Hn. simpl. apply IH.
Qed.

Lemma throttled_silent (cb : ProgressCallback) :
  throttled cb ->
  forall last call, fst call - last < 2000 ->
    fst (cb last call) = [] /\ snd (cb last call) = last.
Proof.
  intros Hcb last call Hlt. destruct (Hcb last call) as [H _].
  rewrite (H Hlt). split; reflexivity.
Qed.

Ltac throttle_case :=
  intros last call; split; intros H;
  [ try (destruct (Z.ltb_spec (fst call - last) 2000); [|lia]); reflexivity
  | first [ right; reflexivity
          | destruct (Z.ltb_spec (fst call - last) 2000); [lia|];
            left; split; [eexists; reflexivity | reflexivity] ] ].

Lemma handleWordCheck_onProgress_throttled chatId id word nVar nAddr :
  throttled (handleWordCheck_onProgress chatId id word nVar nAddr).
Proof. unfold handleWordCheck_onProgress. destruct id; throttle_case. Qed.

Lemma handleTopicExplore_onProgress_throttled chatId id info aiUsed i n word rs :
  throttled (handleTopicExplore_onProgress E chatId id info aiUsed i n word rs).
Proof. unfold handleTopicExplore_onProgress. destruct id; throttle_case. Qed.

Lemma handleAITopicExpand_onProgress_throttled chatId id info i n word rs :
  throttled (handleAITopicExpand_onProgress E chatId id info i n word rs).
Proof. unfold handleAITopicExpand_onProgress. destruct id; throttle_case. Qed.

Lemma handleBatch_onProgress_throttled chatId id i n word rs :
  throttled (handleBatch_onProgress E chatId id i n word rs).
Proof. unfold handleBatch_onProgress. destruct id; throttle_case. Qed.

(** C10.  Each of the four [onProgress] closures the handlers pass to
    [checkBalances] ([handleWordCheck], [handleTopicExplore],
    [handleAITopicExpand], [handleBatch]; the other calls pass [null])
    edits the status message at most once per 2000 ms of [Date.now()]:
    an invocation less than 2000 ms after the previous edit ([last])
    performs no edit and keeps [last], and over any run of invocations
    successive edits are at least 2000 ms apart. *)
Theorem onProgress_edits_throttled
    (chatId : ChatId) (id : option MsgId) (word : string) (nVar nAddr : nat)
    (info : TopicInfo) (aiUsed : bool) (i n : nat) (rs : list WordResult)
    (last : Z) (call : Z * (nat * nat)) (calls : list (Z * (nat * nat))) :
  fst call - last < 2000 ->
  Forall
    (fun cb : ProgressCallback =>
       cb last call = ([], last) /\ spaced last (editTimes cb last calls))
    [ handleWordCheck_onProgress chatId id word nVar nAddr;
      handleTopicExplore_onProgress E chatId id info aiUsed i n word rs;
      handleAITopicExpand_onProgress E chatId id info i n word rs;
      handleBatch_onProgress E chatId id i n word rs ].
Proof.
  intros Hlt.
  pose proof (handleWordCheck_onProgress_throttled chatId id word nVar nAddr) as H1.
  pose proof (handleTopicExplore_onProgress_throttled chatId id info aiUsed i n word rs) as H2.
  pose proof (handleAITopicExpand_onProgress_throttled chatId id info i n word rs) as H3.
  pose proof (handleBatch_onProgress_throttled chatId id i n word rs) as H4.
  repeat constructor;
    solve [ apply (proj1 (H1 last call) Hlt) | apply (proj1 (H2 last call) Hlt)
          | apply (proj1 (H3 last call) Hlt) | apply (proj1 (H4 last call) Hlt)
          | apply throttled_spaced; assumption ].
Qed.

End Throttle.


(** A run of invocations at 1500, 2500, 3000 and 5100 ms after an edit
    at 1000 ms: the first is dropped, edits happen at 3000 and 5100. *)
Lemma onProgress_edits_throttled_witness :
  1500 - 1000 < 2000 /\
  Forall
    (fun cb : ProgressCallback =>
       cb 1000 (1500, (1%nat, 4%nat)) = ([], 1000) /\
       spaced 1000
         (editTimes cb 1000
            [(1500, (1%nat, 4%nat)); (2500, (2%nat, 4%nat));
             (3000, (3%nat, 4%nat)); (5100, (4%nat, 4%nat))]))
    [ handleWordCheck_onProgress Demo.user (Some 7) "satoshi" 1 4;
      handleTopicExplore_onProgress Demo.collaborators Demo.user (Some 7)
        {| label := "Bitcoin"; category := None; topicWords := [] |} true 0 2
        "satoshi" [];
      handleAITopicExpand_onProgress Demo.collaborators Demo.user (Some 7)
        {| label := "Bitcoin"; category := None; topicWords := [] |} 0 2
        "satoshi" [];
      handleBatch_onProgress Demo.collaborators Demo.user (Some 7) 0 2 "satoshi" [] ].
Proof.
  split; [lia |].
  apply (onProgress_edits_throttled Demo.collaborators Demo.user (Some 7) "satoshi"
           1 4 {| label := "Bitcoin"; category := None; topicWords := [] |} true 0 2 []
           1000 (1500, (1%nat, 4%nat))).
  simpl. lia.
Defined.

Example onProgress_edit_times :
  editTimes (handleBatch_onProgress Demo.collaborators Demo.user (Some 7) 0 2 "satoshi" [])
    1000 [(1500, (1%nat, 4%nat)); (2500, (2%nat, 4%nat));
          (3000, (3%nat, 4%nat)); (5100, (4%nat, 4%nat))]
  = [3000; 5100].
Proof. reflexivity. Qed.

(* ------------------------------------------------------------------- *)
(** *** The digest routine against the standard *)
(* ------------------------------------------------------------------- *)

Section Sha256Refinement.

Import Sha256.

(** Padding. *)






(** Parsing. *)







(** The message schedule. *)









(** The rounds. *)







(** The hash value, block after block. *)




End Sha256Refinement.

(* ------------------------------------------------------------------- *)
(** *** deriveBrainWallet *)
(* ------------------------------------------------------------------- *)

Section BrainWallet.





End BrainWallet.


(* ------------------------------------------------------------------- *)
(** *** The monad and the triples *)
(* ------------------------------------------------------------------- *)

Section Triples.

Lemma bind_ok {A B} (m : Bot A) (k : A -> Bot B) (w : World) (a : A) :
  value (m w) = Ok a ->
  bind m k w =
  {| value := value (k a (after (m w)));
     after := after (k a (after (m w)));
     trace := trace (m w) ++ trace (k a (after (m w))) |}.
Proof. intros H. unfold bind. rewrite H. reflexivity. Qed.

Lemma bind_throw {A B} (m : Bot A) (k : A -> Bot B) (w : World) (e : string) :
  value (m w) = Throw e ->
  bind m k w = {| value := Throw e; after := after (m w); trace := trace (m w) |}.
Proof. intros H. unfold bind. rewrite H. reflexivity. Qed.

Lemma triple_ret {A} (Pre : World -> Prop) (a : A) Ev (Post : A -> World -> Prop) :
  (forall w, Pre w -> Post a w) -> triple Pre (ret a) Ev Post.
Proof. intros H w Hw. split; [constructor | apply H, Hw]. Qed.

Lemma triple_ret_pre {A} (Pre : World -> Prop) (a : A) Ev :
  triple Pre (ret a) Ev (fun _ w => Pre w).
Proof. apply triple_ret. auto. Qed.

Lemma triple_throw {A} (Pre : World -> Prop) (e : string) Ev (Post : A -> World -> Prop) :
  triple Pre (throw e) Ev Post.
Proof. intros w Hw. split; [constructor | exact I]. Qed.

Lemma triple_bind {A B} Pre (m : Bot A) (k : A -> Bot B) Ev Mid Post :
  triple Pre m Ev Mid ->
  (forall a, triple (Mid a) (k a) Ev Post) ->
  triple Pre (bind m k) Ev Post.
Proof.
  intros Hm Hk w Hw. destruct (Hm w Hw) as [Ht Hv].
  destruct (value (m w)) as [a|e] eqn:Hval.
  - rewrite (bind_ok _ _ _ _ Hval). simpl.
    destruct (Hk a _ Hv) as [Ht' Hv'].
    split; [apply Forall_app; split; assumption | exact Hv'].
  - rewrite (bind_throw _ _ _ _ Hval). simpl. split; [assumption | exact I].
Qed.

Lemma triple_conseq {A} (Pre Pre' : World -> Prop) (m : Bot A) Ev
    (Post Post' : A -> World -> Prop) :
  triple Pre' m Ev Post' ->
  (forall w, Pre w -> Pre' w) ->
  (forall a w, Post' a w -> Post a w) ->
  triple Pre m Ev Post.
Proof.
  intros H HP HQ w Hw. destruct (H w (HP w Hw)) as [Ht Hv]. split; [exact Ht|].
  destruct (value (m w)); [apply HQ, Hv | exact I].
Qed.

Lemma triple_get Pre Ev :
  triple Pre get Ev (fun a w => a = w /\ Pre w).
Proof. intros w Hw. split; [constructor | simpl; auto]. Qed.

Lemma triple_readStop Pre Ev :
  triple Pre readStop Ev (fun b w => b = stopCurrentBatch w /\ Pre w).
Proof. intros w Hw. split; [constructor | simpl; auto]. Qed.

Lemma triple_emit (Pre : World -> Prop) (e : Event) (Ev : Event -> Prop) :
  Ev e -> triple Pre (emit e) Ev (fun _ w => Pre w).
Proof. intros He w Hw. split; [repeat constructor; exact He | exact Hw]. Qed.

Lemma triple_modify (Pre Post : World -> Prop) (f : World -> World) Ev :
  (forall w, Pre w -> Post (f w)) ->
  triple Pre (modify f) Ev (fun _ w => Post w).
Proof. intros H w Hw. split; [constructor | apply H, Hw]. Qed.

Lemma triple_suspend (Pre : World -> Prop) Ev :
  stable Pre -> triple Pre suspend Ev (fun _ w => Pre w).
Proof.
  intros Hs w Hw. split; [constructor|]. simpl.
  destruct (incoming w) as [|b l]; [exact Hw | apply Hs, Hw].
Qed.

Lemma triple_tryCatch Pre (m : Bot unit) (h : string -> Bot unit) Ev Post :
  triple Pre m Ev Post ->
  (forall e, triple (fun _ => True) (h e) Ev Post) ->
  triple Pre (tryCatch m h) Ev Post.
Proof.
  intros Hm Hh w Hw. unfold tryCatch. destruct (Hm w Hw) as [Ht Hv].
  destruct (value (m w)) as [a|e] eqn:Hval.
  - rewrite Hval. split; assumption.
  - simpl. destruct (Hh e (after (m w)) I) as [Ht' Hv'].
    split; [apply Forall_app; split; assumption | exact Hv'].
Qed.

End Triples.

(* ------------------------------------------------------------------- *)
(** *** What each handler asks of the balance checker and of the cache *)
(* ------------------------------------------------------------------- *)

Section Events.

Variable E : Collaborators.
Variable S : Allowed.

Lemma robust_True : robust (fun _ => True).
Proof. split; [intros w b l _ | intros w n _]; exact I. Qed.

Lemma robust_stopped : robust (fun w => stopCurrentBatch w = true).
Proof.
  split.
  - intros w b l H. destruct b; simpl; [reflexivity | exact H].
  - intros w n H. exact H.
Qed.

Lemma robust_cache (c : gmap string CachedWordResult) :
  robust (fun w => wordCache w = c).
Proof.
  split.
  - intros w b l H. destruct b; simpl; exact H.
  - intros w n H. exact H.
Qed.

Lemma triple_pure {A} (phi : Prop) (Pre : World -> Prop) (m : Bot A) Ev Post :
  (phi -> triple Pre m Ev Post) -> triple (fun w => phi /\ Pre w) m Ev Post.
Proof. intros H w [Hphi Hw]. exact (H Hphi w Hw). Qed.

Lemma triple_get_bind {B} (Pre : World -> Prop) (k : World -> Bot B) Ev Post :
  (forall w0, triple Pre (k w0) Ev Post) -> triple Pre (bind get k) Ev Post.
Proof.
  intros H w Hw. destruct (H w w Hw) as [Ht Hv].
  unfold bind, get. simpl. split; assumption.
Qed.

Lemma triple_weaken {A} (Pre : World -> Prop) (m : Bot A) Ev (Post : A -> World -> Prop) :
  triple Pre m Ev Post -> triple Pre m Ev (fun _ _ => True).
Proof.
  intros H w Hw. destruct (H w Hw) as [Ht _]. split; [exact Ht|].
  destruct (value (m w)); exact I.
Qed.

Ltac prim :=
  intros [Hs Ho] w Hw; cbv [sendMessage sendMessageWithKeyboard editMessageText
                             deleteMessage deleteIfSent bind emit suspend modify ret value after trace];
  (split; [repeat constructor |]);
  try (destruct (incoming w) as [|b l]; [exact Hw | apply Hs, Hw]).

Lemma t_sendMessage Pre chatId text :
  robust Pre ->
  triple Pre (sendMessage E chatId text) (allowed S) (fun _ w => Pre w).
Proof. prim. Qed.

Lemma t_sendMessageWithKeyboard Pre chatId text kb :
  robust Pre ->
  triple Pre (sendMessageWithKeyboard E chatId text kb) (allowed S) (fun _ w => Pre w).
Proof. prim. Qed.

Lemma t_editMessageText Pre chatId id text kb :
  robust Pre ->
  triple Pre (editMessageText chatId id text kb) (allowed S) (fun _ w => Pre w).
Proof. prim. Qed.

Lemma t_deleteIfSent Pre chatId id :
  robust Pre ->
  triple Pre (deleteIfSent chatId id) (allowed S) (fun _ w => Pre w).
Proof. destruct id; [prim | intros _; apply triple_ret; auto]. Qed.

Lemma t_suspend Pre :
  robust Pre -> triple Pre suspend (allowed S) (fun _ w => Pre w).
Proof. intros [Hs _]. apply triple_suspend, Hs. Qed.

Lemma t_recordCheck Pre chatId word addrs bals m :
  triple Pre (recordCheck chatId word addrs bals m) (allowed S) (fun _ w => Pre w).
Proof. apply triple_emit. exact I. Qed.

Lemma t_sendWebHint Pre chatId url :
  triple Pre (sendWebHint chatId url) (allowed S) (fun _ w => Pre w).
Proof.
  destruct url; [apply triple_emit; exact I | apply triple_ret; auto].
Qed.

Lemma t_getCached_known (c : gmap string CachedWordResult) phrase :
  triple (fun w => wordCache w = c) (getCachedWordResult phrase) (allowed S)
    (fun r w => r = c !! normalizePhrase phrase /\ wordCache w = c).
Proof. intros w Hw. split; [constructor | simpl; rewrite Hw; auto]. Qed.

Lemma t_getCached_any Pre phrase :
  triple Pre (getCachedWordResult phrase) (allowed S) (fun _ w => Pre w).
Proof. intros w Hw. split; [constructor | exact Hw]. Qed.

Lemma t_readStop Pre :
  triple Pre readStop (allowed S) (fun _ w => Pre w).
Proof. intros w Hw. split; [constructor | exact Hw]. Qed.

Lemma t_modify Pre f :
  (forall w, Pre w -> Pre (f w)) ->
  triple Pre (modify f) (allowed S) (fun _ w => Pre w).
Proof. intros H. apply triple_modify, H. Qed.

Lemma t_getWordCacheSize Pre :
  triple Pre getWordCacheSize (allowed S) (fun _ w => Pre w).
Proof. intros w Hw. split; [constructor | exact Hw]. Qed.

(** A cache write leaves nothing known about the cache. *)
Lemma t_cacheWordResult Pre phrase h t n :
  okWrite S phrase h t n ->
  triple Pre (cacheWordResult phrase h t n) (allowed S) (fun _ _ => True).
Proof.
  intros Hok w Hw. split; [repeat constructor; exact Hok | exact I].
Qed.

Lemma runProgress_allowed (cb : ProgressCallback) :
  (forall last call, Forall (allowed S) (fst (cb last call))) ->
  forall calls last, Forall (allowed S) (fst (runProgress cb last calls)).
Proof.
  intros Hcb calls. induction calls as [|c rest IH]; intros last; simpl.
  - constructor.
  - apply Forall_app. split; [apply Hcb | apply IH].
Qed.

Local Abbreviation quiet := (quiet S).

Lemma t_checkBalances Pre addrs pref cap tok cb last keys :
  robust Pre -> okQuery S addrs tok -> quiet cb ->
  triple Pre (checkBalances addrs pref cap tok cb last keys) (allowed S)
    (fun _ w => Pre w).
Proof.
  intros [Hs Ho] Hq Hcb w Hw. unfold checkBalances. simpl. split.
  - constructor; [exact Hq|].
    destruct cb as [f|]; [apply runProgress_allowed, Hcb | constructor].
  - destruct (incoming w) as [|b l]; [apply Ho, Hw | apply Hs, Ho, Hw].
Qed.

Lemma t_hasAnyBalance Pre addrs pref :
  robust Pre -> okHasAny S addrs ->
  triple Pre (hasAnyBalance addrs pref) (allowed S) (fun _ w => Pre w).
Proof.
  intros [Hs Ho] Hq w Hw. unfold hasAnyBalance. simpl. split.
  - repeat constructor. exact Hq.
  - destruct (incoming w) as [|b l]; [apply Ho, Hw | apply Hs, Ho, Hw].
Qed.

Lemma quiet_wordCheck chatId id word nVar nAddr :
  quiet (Some (handleWordCheck_onProgress chatId id word nVar nAddr)).
Proof.
  intros last call. unfold handleWordCheck_onProgress.
  destruct id; [destruct (_ <? _)|]; repeat constructor.
Qed.

Lemma quiet_topic chatId id info aiUsed i n word rs :
  quiet (Some (handleTopicExplore_onProgress E chatId id info aiUsed i n word rs)).
Proof.
  intros last call. unfold handleTopicExplore_onProgress.
  destruct id; [destruct (_ <? _)|]; repeat constructor.
Qed.

Lemma quiet_aiTopic chatId id info i n word rs :
  quiet (Some (handleAITopicExpand_onProgress E chatId id info i n word rs)).
Proof.
  intros last call. unfold handleAITopicExpand_onProgress.
  destruct id; [destruct (_ <? _)|]; repeat constructor.
Qed.

Lemma quiet_batch chatId id i n word rs :
  quiet (Some (handleBatch_onProgress E chatId id i n word rs)).
Proof.
  intros last call. unfold handleBatch_onProgress.
  destruct id; [destruct (_ <? _)|]; repeat constructor.
Qed.

Local Ltac nstep :=
  cbv beta;
  lazymatch goal with
  | |- triple _ (bind get _) _ _ => apply triple_get_bind; intros ?
  | |- triple _ (bind _ _) _ _ => eapply triple_bind; [| intros ?]
  | |- triple _ (ret _) _ _ =>
      first [ apply triple_ret_pre | apply triple_ret; intros; try exact I; auto ]
  | |- triple _ (sendMessage _ _ _) _ _ => apply t_sendMessage
  | |- triple _ (match ?x with _ => _ end) _ _ => destruct x eqn:?
  | |- robust _ => assumption
  end.

Lemma t_notifyAdmin Pre word bals m :
  robust Pre ->
  triple Pre (notifyAdmin E word bals m) (allowed S) (fun _ w => Pre w).
Proof.
  intros HP. unfold notifyAdmin. repeat nstep.
Qed.

Lemma t_notifyAdminTestMode Pre word bals chatId m :
  robust Pre ->
  triple Pre (notifyAdminTestMode E word bals chatId m) (allowed S) (fun _ w => Pre w).
Proof.
  intros HP. unfold notifyAdminTestMode. repeat nstep.
Qed.

Lemma t_afterQuery Pre chatId word m settled :
  robust Pre ->
  triple Pre (afterQuery E chatId word m settled) (allowed S) (fun _ w => Pre w).
Proof.
  intros HP. unfold afterQuery. destruct settled as [balances|e].
  - eapply triple_bind; [| intros ?].
    + destruct (foundAmong _); [apply t_notifyAdmin; exact HP | nstep].
    + eapply triple_bind; [apply t_notifyAdminTestMode; exact HP | intros ?]. nstep.
  - nstep.
Qed.

End Events.

(** One step of a structural proof of a triple. *)
Ltac step :=
  cbv beta;
  lazymatch goal with
  | |- triple _ (bind get _) _ _ => apply triple_get_bind; intros ?
  | |- triple _ (bind _ _) _ _ => eapply triple_bind; [| intros ?]
  | |- triple (fun w => _ = _ /\ _) _ _ _ => apply triple_pure; intros ?
  | |- triple _ (ret _) _ _ =>
      first [ apply triple_ret_pre | apply triple_ret; intros; try exact I; auto ]
  | |- triple _ (throw _) _ _ => apply triple_throw
  | |- triple _ (sendMessage _ _ _) _ _ => apply t_sendMessage
  | |- triple _ (sendMessageWithKeyboard _ _ _ _) _ _ => apply t_sendMessageWithKeyboard
  | |- triple _ (editMessageText _ _ _ _) _ _ => apply t_editMessageText
  | |- triple _ (deleteIfSent _ _) _ _ => apply t_deleteIfSent
  | |- triple _ suspend _ _ => apply t_suspend
  | |- triple _ (recordCheck _ _ _ _ _) _ _ => apply t_recordCheck
  | |- triple _ (sendWebHint _ _) _ _ => apply t_sendWebHint
  | |- triple _ getWordCacheSize _ _ => apply t_getWordCacheSize
  | |- triple _ (getCachedWordResult _) _ _ =>
      first [ apply t_getCached_known | apply t_getCached_any ]
  | |- triple _ readStop _ _ => apply t_readStop
  | |- triple _ (notifyAdmin _ _ _ _) _ _ => apply t_notifyAdmin
  | |- triple _ (notifyAdminTestMode _ _ _ _ _) _ _ => apply t_notifyAdminTestMode
  | |- triple _ (afterQuery _ _ _ _ _) _ _ => apply t_afterQuery
  | |- triple _ (cacheWordResult _ _ _ _) _ _ => apply t_cacheWordResult
  | |- triple _ (checkBalances _ _ _ _ _ _ _) _ _ => apply t_checkBalances
  | |- triple _ (hasAnyBalance _ _) _ _ => apply t_hasAnyBalance
  | |- triple _ (emit _) _ _ => apply triple_emit; exact I
  | |- triple _ (match ?x with _ => _ end) _ _ => destruct x eqn:?
  | |- robust _ =>
      first [ assumption | apply robust_True | apply robust_cache | apply robust_stopped ]
  | |- quiet _ _ =>
      first [ exact I | apply quiet_wordCheck | apply quiet_topic
            | apply quiet_aiTopic | apply quiet_batch ]
  end.

Section HandlerEvents.

Variable E : Collaborators.
Variable S : Allowed.

Local Abbreviation wordAllowed := (wordAllowed E S).

Lemma t_batchWord chatId st id n i word s :
  wordAllowed st word ->
  triple (fun _ => True) (batchWord E chatId st id n i word s) (allowed S)
    (fun _ _ => True).
Proof. intros [Hq Hw]. unfold batchWord. repeat step; auto. Qed.

Lemma t_topicWord chatId st id info aiUsed n i word s :
  wordAllowed st word ->
  triple (fun _ => True) (topicWord E chatId st id info aiUsed n i word s)
    (allowed S) (fun _ _ => True).
Proof. intros [Hq Hw]. unfold topicWord. repeat step; auto. Qed.

Lemma t_aiTopicWord chatId st id info n i word s :
  wordAllowed st word ->
  triple (fun _ => True) (aiTopicWord E chatId st id info n i word s)
    (allowed S) (fun _ _ => True).
Proof. intros [Hq Hw]. unfold aiTopicWord. repeat step; auto. Qed.

Lemma t_batchLoop chatId st id n words :
  Forall (wordAllowed st) words ->
  forall i s,
    triple (fun _ => True) (batchLoop E chatId st id n i words s) (allowed S)
      (fun _ _ => True).
Proof.
  induction 1 as [|word rest Hword Hrest IH]; intros i s; simpl.
  - step.
  - step; [step |]. destruct a; [step |].
    step; [apply t_batchWord; exact Hword | apply IH].
Qed.

Lemma t_topicLoop chatId st id info aiUsed n words :
  Forall (wordAllowed st) words ->
  forall i s,
    triple (fun _ => True) (topicLoop E chatId st id info aiUsed n i words s)
      (allowed S) (fun _ _ => True).
Proof.
  induction 1 as [|word rest Hword Hrest IH]; intros i s; simpl.
  - step.
  - step; [step |]. destruct a; [step |].
    step; [apply t_topicWord; exact Hword | apply IH].
Qed.

Lemma t_aiTopicLoop chatId st id info n words :
  Forall (wordAllowed st) words ->
  forall i s,
    triple (fun _ => True) (aiTopicLoop E chatId st id info n i words s)
      (allowed S) (fun _ _ => True).
Proof.
  induction 1 as [|word rest Hword Hrest IH]; intros i s; simpl.
  - step.
  - step; [step |]. destruct a; [step |].
    step; [apply t_aiTopicWord; exact Hword | apply IH].
Qed.

Lemma filterUncached_run (ws : list string) (w : World) :
  filterUncached ws w =
  {| value := Ok (uncached (wordCache w) ws); after := w; trace := [] |}.
Proof.
  induction ws as [|x rest IH]; [reflexivity|].
  cbn [filterUncached]. unfold bind, getCachedWordResult, ret.
  cbn [value after trace]. rewrite IH. cbn [value after trace app uncached List.filter].
  destruct (knownEmpty (wordCache w !! normalizePhrase x)); reflexivity.
Qed.

Lemma t_filterUncached (c : gmap string CachedWordResult) ws :
  triple (fun w => wordCache w = c) (filterUncached ws) (allowed S)
    (fun r w => r = uncached c ws /\ wordCache w = c).
Proof.
  intros w Hw. rewrite filterUncached_run. simpl. rewrite Hw.
  split; [constructor | auto].
Qed.

Local Abbreviation freshAllowed := (freshAllowed E S).

Lemma uncached_allowed c st ws :
  freshAllowed c st -> Forall (wordAllowed st) (uncached c ws).
Proof.
  intros H. apply List.Forall_forall. intros x Hx.
  apply filter_In in Hx. destruct Hx as [_ Hx].
  apply H. destruct (knownEmpty _); [discriminate | reflexivity].
Qed.

Lemma t_showAIError Pre chatId res retry :
  robust Pre ->
  triple Pre (showAIError E chatId res retry) (allowed S) (fun _ _ => True).
Proof. intros HP. unfold showAIError. repeat step. Qed.

Lemma t_handleAITopicExpand (c : gmap string CachedWordResult) round chatId topicKey :
  freshAllowed c (settings_get E chatId) ->
  triple (fun w => wordCache w = c) (handleAITopicExpand E round chatId topicKey)
    (allowed S) (fun _ _ => True).
Proof.
  intros Hfresh. unfold handleAITopicExpand.
  destruct (getTopicInfo E topicKey) as [info|]; [| repeat step].
  destruct (String.eqb _ _); [repeat step |].
  step; [step; step |]. step; [step; step |]. step; [step; step |].
  destruct (negb _).
  { eapply triple_weaken. apply t_showAIError. step. }
  step; [apply t_filterUncached |]. step.
  destruct a2 as [|w0 ws0] eqn:Hnew; [repeat step |].
  step; [step; step |]. step; [step |].
  step.
  { eapply triple_conseq;
      [ apply t_aiTopicLoop; rewrite H; apply uncached_allowed, Hfresh
      | intros; exact I | intros; exact I ]. }
  repeat step.
Qed.

Lemma t_handleBatch (c : gmap string CachedWordResult) chatId args :
  freshAllowed c (settings_get E chatId) ->
  triple (fun w => wordCache w = c) (handleBatch E chatId args)
    (allowed S) (fun _ _ => True).
Proof.
  intros Hfresh. unfold handleBatch.
  destruct (splitWords args) as [|x xs] eqn:Hsplit; [repeat step |].
  step.
  { destruct (Nat.ltb _ _); [step; [step; step | step] | step]. }
  step; [apply t_filterUncached |]. step.
  destruct a0 as [|w0 ws0] eqn:Hnew.
  - step; [step |].
    destruct (if String.eqb _ _ then None else _) as [t|].
    + apply t_handleAITopicExpand, Hfresh.
    + repeat step.
  - step; [step; step |]. step; [step |].
    step.
    { eapply triple_conseq;
        [ apply t_batchLoop; rewrite H; apply uncached_allowed, Hfresh
      | intros; exact I | intros; exact I ]. }
    repeat step.
Qed.

Lemma t_handleTopicExplore (c : gmap string CachedWordResult) chatId topicKey :
  freshAllowed c (settings_get E chatId) ->
  triple (fun w => wordCache w = c) (handleTopicExplore E chatId topicKey)
    (allowed S) (fun _ _ => True).
Proof.
  intros Hfresh. unfold handleTopicExplore.
  destruct (getTopicInfo E topicKey) as [info|]; [| repeat step].
  step; [step |].
  destruct (String.eqb _ _); [repeat step |].
  step; [step; step |]. step; [step; step |]. step; [step; step |].
  destruct (_ && _)%bool.
  { eapply triple_weaken. apply t_showAIError. step. }
  step; [apply t_filterUncached |]. step.
  destruct a3 as [|w0 ws0] eqn:Hnew.
  - apply t_handleAITopicExpand, Hfresh.
  - step; [step; step |]. step; [step |].
    step.
    { eapply triple_conseq;
        [ apply t_topicLoop; rewrite H; apply uncached_allowed, Hfresh
      | intros; exact I | intros; exact I ]. }
    repeat step.
Qed.

Lemma triple_any_cache {A} (m : Bot A) Ev Post :
  (forall c, triple (fun w => wordCache w = c) m Ev Post) ->
  triple (fun _ => True) m Ev Post.
Proof. intros H w _. exact (H (wordCache w) w eq_refl). Qed.

Local Abbreviation tokensOK := (tokensOK S).

Lemma t_deriveLoop Pre chatId st word id total variants :
  robust Pre ->
  forall s,
    triple Pre (deriveLoop E chatId st word id total variants s) (allowed S)
      (fun _ w => Pre w).
Proof.
  intros HP. induction variants as [|v rest IH]; intros s; simpl.
  - step.
  - step; [step |]. destruct a; [step |].
    step; [| apply IH].
    destruct id; [destruct (Nat.eqb _ _) |]; repeat step.
Qed.

Lemma t_checkAndCache chatId st word id nVar addrs :
  okQuery S addrs (fun w => stopCurrentBatch w) ->
  (forall h t n, okWrite S word h t n) ->
  triple (fun _ => True) (checkAndCache chatId st word id nVar addrs) (allowed S)
    (fun _ _ => True).
Proof. intros Hq Hw. unfold checkAndCache. repeat step; auto. Qed.

(** [wordCheck]: unless the cache already knows the word to be empty,
    it may query and write. *)
Lemma t_wordCheck (c : gmap string CachedWordResult) st chatId word :
  (knownEmpty (c !! normalizePhrase word) = false ->
   tokensOK /\ forall h t n, okWrite S word h t n) ->
  triple (fun w => wordCache w = c) (wordCheck E st chatId word) (allowed S)
    (fun _ _ => True).
Proof.
  intros Hfresh. unfold wordCheck.
  step; [step; step |]. step; [apply t_deriveLoop; step |]. step; [step |].
  step.
  { instantiate (1 := fun _ _ => True). destruct a1; [step |].
    step.
    { destruct a; repeat step. }
    step; [step |]. step. subst.
    destruct (knownEmpty (c !! normalizePhrase word)) eqn:Hk.
    - repeat step.
    - destruct (Hfresh eq_refl) as [Hq Hw].
      eapply triple_conseq;
        [ apply t_checkAndCache; [apply Hq | apply Hw]
        | intros; exact I | intros; exact I ]. }
  step; [step; step |]. step; [step; step |].
  step; [destruct (snd a2); step; step |]. eapply triple_weaken. step. step.
Qed.

Lemma t_handleBrainWallet chatId phrase :
  tokensOK ->
  triple (fun _ => True) (handleBrainWallet E chatId phrase) (allowed S)
    (fun _ _ => True).
Proof.
  intros Hq. unfold handleBrainWallet. repeat step. apply Hq.
Qed.

Lemma t_luckyWord chatId st id source ws i w s :
  tokensOK ->
  triple (fun _ => True) (luckyWord E chatId st id source ws i w s) (allowed S)
    (fun _ _ => True).
Proof.
  intros Hq. unfold luckyWord. repeat step. apply Hq.
Qed.

Lemma t_luckyLoop chatId st id source lw ws :
  tokensOK ->
  forall i s,
    triple (fun _ => True) (luckyLoop E chatId st id source lw i ws s) (allowed S)
      (fun _ _ => True).
Proof.
  intros Hq. induction ws as [|w rest IH]; intros i s; simpl.
  - step.
  - step; [step |]. destruct a; [step |].
    step; [apply t_luckyWord, Hq | apply IH].
Qed.

Lemma t_luckyCheck chatId ws source :
  tokensOK ->
  triple (fun _ => True) (luckyCheck E chatId ws source) (allowed S)
    (fun _ _ => True).
Proof.
  intros Hq. unfold luckyCheck. destruct ws as [|w0 rest]; [repeat step |].
  step; [step; step |]. step; [step; step |].
  step; [apply t_luckyLoop, Hq |]. repeat step.
Qed.

Lemma t_handleFeelingLucky chatId :
  tokensOK ->
  triple (fun _ => True) (handleFeelingLucky E chatId) (allowed S)
    (fun _ _ => True).
Proof.
  intros Hq. unfold handleFeelingLucky.
  destruct (_ && _)%bool; [| apply t_luckyCheck, Hq].
  step; [step; step |]. step; [step; step |]. step; [step; step |].
  destruct (negb _); [apply t_showAIError; step | apply t_luckyCheck, Hq].
Qed.

(** [handleRandomKeyHunt]: one query, for the addresses of the drawn
    keys, with a token that is constantly [false]. *)
Lemma t_handleRandomKeyHunt chatId count :
  (forall addrs, okQuery S addrs (fun _ => false)) ->
  triple (fun _ => True) (handleRandomKeyHunt E chatId count) (allowed S)
    (fun _ _ => True).
Proof.
  intros Hq. unfold handleRandomKeyHunt. repeat step. apply Hq.
Qed.

(** [handleDictionary]: [hasAnyBalance] queries and writes with total 0. *)
Lemma t_dictionaryCount st word count :
  (forall addrs, okHasAny S addrs) ->
  (forall h n, okWrite S word h 0 n) ->
  triple (fun _ => True) (dictionaryCount E st word count) (allowed S)
    (fun _ _ => True).
Proof.
  intros Hq Hw. unfold dictionaryCount. repeat step; auto.
Qed.

Lemma t_forEach {A} (f : A -> Bot unit) xs :
  (forall x, triple (fun _ => True) (f x) (allowed S) (fun _ _ => True)) ->
  triple (fun _ => True) (forEach f xs) (allowed S) (fun _ _ => True).
Proof.
  intros Hf. induction xs as [|x rest IH]; simpl; [step |].
  step; [apply Hf | apply IH].
Qed.

Lemma t_dictionaryWord chatId st id n i word :
  (forall addrs, okHasAny S addrs) ->
  (forall h k, okWrite S word h 0 k) ->
  triple (fun _ => True) (dictionaryWord E chatId st id n i word) (allowed S)
    (fun _ _ => True).
Proof.
  intros Hq Hw. unfold dictionaryWord.
  step; [step |]. destruct (knownEmpty a); [step |].
  step; [apply t_forEach; intros; apply t_dictionaryCount; assumption |].
  step; [destruct a; repeat step; auto |].
  destruct id; [destruct (Nat.eqb _ _) |]; repeat step.
Qed.

Lemma t_dictionaryLoop chatId st id n words :
  (forall addrs, okHasAny S addrs) ->
  (forall p h k, okWrite S p h 0 k) ->
  forall i,
    triple (fun _ => True) (dictionaryLoop E chatId st id n i words) (allowed S)
      (fun _ _ => True).
Proof.
  intros Hq Hw. induction words as [|word rest IH]; intros i; simpl.
  - step.
  - step; [step |]. destruct a; [step |].
    step; [apply t_dictionaryWord; auto | apply IH].
Qed.

Lemma t_handleDictionary chatId :
  (forall addrs, okHasAny S addrs) ->
  (forall p h k, okWrite S p h 0 k) ->
  triple (fun _ => True) (handleDictionary E chatId) (allowed S)
    (fun _ _ => True).
Proof.
  intros Hq Hw. unfold handleDictionary.
  step; [step; step |]. step; [apply t_dictionaryLoop; assumption |].
  repeat step.
Qed.

End HandlerEvents.

(* ------------------------------------------------------------------- *)
(** *** Undisturbed runs, seen through a projection *)
(* ------------------------------------------------------------------- *)

Section Runs.

Variable E : Collaborators.
Context {X : Type}.
Variable pi : Event -> list X.

(** The projection ignores status edits and deletions. *)
Hypothesis pi_edit : forall c i t k, pi (EditMessageText c i t k) = [].
Hypothesis pi_delete : forall c i, pi (DeleteMessage c i) = [].

Lemma view_app (t1 t2 : list Event) : view pi (t1 ++ t2) = view pi t1 ++ view pi t2.
Proof. apply flat_map_app. Qed.

Lemma runsTo_ret {A} (a : A) w : runsTo pi (ret a) w a w [].
Proof. exists []. split; reflexivity. Qed.

Lemma runsTo_bind {A B} (m : Bot A) (k : A -> Bot B) w a w1 v1 b w2 v2 :
  runsTo pi m w a w1 v1 ->
  runsTo pi (k a) w1 b w2 v2 ->
  runsTo pi (bind m k) w b w2 (v1 ++ v2).
Proof.
  intros (t1 & H1 & V1) (t2 & H2 & V2). exists (t1 ++ t2). split.
  - unfold bind. rewrite H1. simpl. rewrite H2. reflexivity.
  - rewrite view_app, V1, V2. reflexivity.
Qed.

Lemma view_cons e t : view pi (e :: t) = pi e ++ view pi t.
Proof. reflexivity. Qed.

Lemma view_nil : view pi [] = [].
Proof. reflexivity. Qed.

Lemma runsTo_bind_l {A B} (m : Bot A) (k : A -> Bot B) w a w1 b w2 v :
  runsTo pi m w a w1 [] ->
  runsTo pi (k a) w1 b w2 v ->
  runsTo pi (bind m k) w b w2 v.
Proof. intros H1 H2. exact (runsTo_bind m k w a w1 [] b w2 v H1 H2). Qed.

Lemma runsTo_bind_r {A B} (m : Bot A) (k : A -> Bot B) w a w1 b w2 v :
  runsTo pi m w a w1 v ->
  runsTo pi (k a) w1 b w2 [] ->
  runsTo pi (bind m k) w b w2 v.
Proof.
  intros H1 H2. rewrite <- (app_nil_r v).
  exact (runsTo_bind m k w a w1 v b w2 [] H1 H2).
Qed.

Lemma runsTo_emit e w : runsTo pi (emit e) w tt w (pi e).
Proof. exists [e]. split; [reflexivity | apply app_nil_r]. Qed.

Lemma runsTo_suspend w : undisturbed w -> runsTo pi suspend w tt w [].
Proof.
  intros Hu. exists []. split; [| reflexivity].
  unfold suspend, modify. rewrite Hu. reflexivity.
Qed.

Lemma runsTo_readStop w : runsTo pi readStop w (stopCurrentBatch w) w [].
Proof. exists []. split; reflexivity. Qed.

Lemma runsTo_get w : runsTo pi get w w w [].
Proof. exists []. split; reflexivity. Qed.

Lemma runsTo_sendMessage chatId text w :
  undisturbed w ->
  runsTo pi (sendMessage E chatId text) w (messageId E chatId text) w
    (pi (SendMessage chatId text)).
Proof.
  intros Hu. exists [SendMessage chatId text]. split; [| apply app_nil_r].
  unfold sendMessage, bind, emit, suspend, modify, ret. simpl. rewrite Hu. reflexivity.
Qed.

Lemma runsTo_sendMessageWithKeyboard chatId text kb w :
  undisturbed w ->
  runsTo pi (sendMessageWithKeyboard E chatId text kb) w (messageId E chatId text) w
    (pi (SendMessageWithKeyboard chatId text kb)).
Proof.
  intros Hu. exists [SendMessageWithKeyboard chatId text kb]. split; [| apply app_nil_r].
  unfold sendMessageWithKeyboard, bind, emit, suspend, modify, ret. simpl.
  rewrite Hu. reflexivity.
Qed.

Lemma runsTo_editMessageText chatId id text kb w :
  undisturbed w ->
  runsTo pi (editMessageText chatId id text kb) w tt w [].
Proof.
  intros Hu. exists [EditMessageText chatId id text kb]. split.
  - unfold editMessageText, bind, emit, suspend, modify. simpl. rewrite Hu. reflexivity.
  - unfold view. simpl. rewrite pi_edit. reflexivity.
Qed.

Lemma runsTo_deleteIfSent chatId id w :
  undisturbed w ->
  runsTo pi (deleteIfSent chatId id) w tt w [].
Proof.
  intros Hu. destruct id as [i|]; [| apply runsTo_ret].
  exists [DeleteMessage chatId i]. split.
  - unfold deleteIfSent, deleteMessage, bind, emit, suspend, modify. simpl.
    rewrite Hu. reflexivity.
  - unfold view. simpl. rewrite pi_delete. reflexivity.
Qed.

Lemma runsTo_getCachedWordResult phrase w :
  runsTo pi (getCachedWordResult phrase) w (wordCache w !! normalizePhrase phrase) w [].
Proof. exists []. split; reflexivity. Qed.

Lemma runsTo_getWordCacheSize w :
  runsTo pi getWordCacheSize w (size (wordCache w)) w [].
Proof. exists []. split; reflexivity. Qed.

Lemma runsTo_cacheWordResult phrase h t n w :
  runsTo pi (cacheWordResult phrase h t n) w tt (cached phrase h t n w)
    (pi (CacheWordResult phrase h t n)).
Proof. exists [CacheWordResult phrase h t n]. split; [reflexivity | apply app_nil_r]. Qed.

Lemma runsTo_recordCheck chatId word addrs bals m w :
  runsTo pi (recordCheck chatId word addrs bals m) w tt w
    (pi (RecordCheck chatId word addrs bals m)).
Proof. apply runsTo_emit. Qed.

Local Abbreviation editsOnly := (editsOnly pi).

Lemma runProgress_editsOnly (f : ProgressCallback) :
  (forall last call, view pi (fst (f last call)) = []) ->
  forall calls last, view pi (fst (runProgress f last calls)) = [].
Proof.
  intros Hf calls. induction calls as [|c rest IH]; intros last; simpl; [reflexivity|].
  rewrite view_app, Hf, IH. reflexivity.
Qed.

Lemma runsTo_checkBalances addrs pref cap tok cb last keys w :
  undisturbed w -> editsOnly cb ->
  runsTo pi (checkBalances addrs pref cap tok cb last keys) w
    (settled cb last addrs w) (queried w)
    (pi (CheckBalances addrs pref cap tok
           (match cb with Some _ => true | None => false end) keys)).
Proof.
  intros Hu Hcb. unfold checkBalances, runsTo. destruct cb as [f|]; eexists; split.
  - unfold suspend, modify. simpl. rewrite Hu. reflexivity.
  - unfold view. simpl.
    fold (view pi (fst (runProgress f last
                          (progress (checkBalancesReply w (oracleCalls w) addrs))))).
    rewrite runProgress_editsOnly by exact Hcb. apply app_nil_r.
  - unfold suspend, modify. simpl. rewrite Hu. reflexivity.
  - unfold view. simpl. apply app_nil_r.
Qed.

Lemma runsTo_hasAnyBalance addrs pref w :
  undisturbed w ->
  runsTo pi (hasAnyBalance addrs pref) w
    (hasAnyBalanceReply w (oracleCalls w) addrs) (queried w)
    (pi (HasAnyBalance addrs pref)).
Proof.
  intros Hu. unfold hasAnyBalance, runsTo. eexists. split.
  - unfold suspend, modify. simpl. rewrite Hu. reflexivity.
  - unfold view. simpl. apply app_nil_r.
Qed.

Lemma editsOnly_wordCheck chatId id word nVar nAddr :
  editsOnly (Some (handleWordCheck_onProgress chatId id word nVar nAddr)).
Proof.
  intros last call. unfold handleWordCheck_onProgress.
  destruct id; [destruct (_ <? _)|]; unfold view; simpl; rewrite ?pi_edit; reflexivity.
Qed.

Lemma editsOnly_topic chatId id info aiUsed i n word rs :
  editsOnly (Some (handleTopicExplore_onProgress E chatId id info aiUsed i n word rs)).
Proof.
  intros last call. unfold handleTopicExplore_onProgress.
  destruct id; [destruct (_ <? _)|]; unfold view; simpl; rewrite ?pi_edit; reflexivity.
Qed.

Lemma editsOnly_aiTopic chatId id info i n word rs :
  editsOnly (Some (handleAITopicExpand_onProgress E chatId id info i n word rs)).
Proof.
  intros last call. unfold handleAITopicExpand_onProgress.
  destruct id; [destruct (_ <? _)|]; unfold view; simpl; rewrite ?pi_edit; reflexivity.
Qed.

Lemma editsOnly_batch chatId id i n word rs :
  editsOnly (Some (handleBatch_onProgress E chatId id i n word rs)).
Proof.
  intros last call. unfold handleBatch_onProgress.
  destruct id; [destruct (_ <? _)|]; unfold view; simpl; rewrite ?pi_edit; reflexivity.
Qed.

Lemma undisturbed_queried w : undisturbed w -> undisturbed (queried w).
Proof. intros H. exact H. Qed.

Lemma undisturbed_cached p h t n w : undisturbed w -> undisturbed (cached p h t n w).
Proof. intros H. exact H. Qed.

(** The derivation loop, when the stop flag is down and stays down. *)
Lemma runsTo_deriveLoop chatId st word id total variants w :
  undisturbed w -> stopCurrentBatch w = false ->
  forall s,
    runsTo pi (deriveLoop E chatId st word id total variants s) w
      (deriveAll E st word variants s) w [].
Proof.
  intros Hu Hs. induction variants as [|v rest IH]; intros s.
  - apply runsTo_ret.
  - cbn [deriveLoop deriveAll fold_left].
    change [] with (@nil X ++ ([] ++ [])).
    eapply runsTo_bind; [apply runsTo_readStop |]. rewrite Hs.
    eapply runsTo_bind; [| apply IH].
    destruct id; [destruct (Nat.eqb _ _) |];
      first [apply runsTo_editMessageText; exact Hu | apply runsTo_ret].
Qed.

(** The projection ignores the history records. *)
Hypothesis pi_record : forall c w a b m, pi (RecordCheck c w a b m) = [].

Lemma runsTo_notifyAdmin word bals m w :
  undisturbed w ->
  runsTo pi (notifyAdmin E word bals m) w tt w (view pi (alert E word bals m)).
Proof.
  intros Hu. unfold notifyAdmin, alert.
  destruct (TELEGRAM_CHAT_ID E) as [admin|]; [| apply runsTo_ret].
  destruct (List.filter _ bals) as [|e es]; [apply runsTo_ret |].
  destruct (deriveBrainWallet E word) as [br|]; [| apply runsTo_ret].
  replace (view pi [SendMessage admin (notifyAdminText E word (e :: es) br m)])
    with (pi (SendMessage admin (notifyAdminText E word (e :: es) br m)) ++ [])
    by (unfold view; simpl; reflexivity).
  eapply runsTo_bind; [apply runsTo_sendMessage, Hu | apply runsTo_ret].
Qed.

Lemma runsTo_notifyAdminTestMode word bals chatId m w on :
  undisturbed w -> testNotifyMode w = on ->
  runsTo pi (notifyAdminTestMode E word bals chatId m) w tt w
    (view pi (testAlert E on word bals chatId m)).
Proof.
  intros Hu <-. unfold notifyAdminTestMode, testAlert.
  eapply runsTo_bind_l; [apply runsTo_get |]. cbv beta.
  destruct (TELEGRAM_CHAT_ID E) as [admin|]; [| apply runsTo_ret].
  destruct (negb (testNotifyMode w)); [apply runsTo_ret |].
  destruct (isAdmin E chatId); [apply runsTo_ret |].
  destruct (deriveBrainWallet E word) as [br|]; [| apply runsTo_ret].
  rewrite view_cons, view_nil.
  eapply runsTo_bind; [apply runsTo_sendMessage, Hu | apply runsTo_ret].
Qed.

Lemma runsTo_afterQuery chatId word m out w on :
  undisturbed w -> testNotifyMode w = on ->
  runsTo pi (afterQuery E chatId word m out) w (foundAmong out) w
    (view pi (afterQueryEvents E on chatId word m out)).
Proof.
  intros Hu Hon. unfold afterQuery, afterQueryEvents.
  destruct out as [balances|e]; [| apply runsTo_ret].
  rewrite view_app.
  eapply runsTo_bind.
  - destruct (foundAmong (Ok balances)); [apply runsTo_notifyAdmin, Hu | apply runsTo_ret].
  - eapply runsTo_bind_r;
      [apply runsTo_notifyAdminTestMode; [exact Hu | exact Hon] | apply runsTo_ret].
Qed.

Lemma runsTo_checkAndCache chatId st word id nVar addrs w :
  undisturbed w ->
  runsTo pi (checkAndCache chatId st word id nVar addrs) w
    (collected (nextOutcome w addrs), foundAmong (nextOutcome w addrs))
    (cached word (foundAmong (nextOutcome w addrs))
       (sumBalances (collected (nextOutcome w addrs))) (length addrs) (queried w))
    (view pi (checkAndCacheEvents chatId st word addrs w)).
Proof.
  intros Hu. unfold checkAndCache, checkAndCacheEvents, view. cbn [flat_map].
  eapply runsTo_bind;
    [apply runsTo_checkBalances; [exact Hu | apply editsOnly_wordCheck] |].
  cbv beta. eapply runsTo_bind; [apply runsTo_cacheWordResult |].
  cbv beta. eapply runsTo_bind; [apply runsTo_recordCheck | apply runsTo_ret].
Qed.

Local Abbreviation afterWordCheck := (afterWordCheck E).

Lemma runsTo_wordCheck chatId st word w :
  undisturbed w -> stopCurrentBatch w = false ->
  runsTo pi (wordCheck E st chatId word) w tt (afterWordCheck st word w)
    (view pi (wordCheckEvents E chatId st word w)).
Proof.
  intros Hu Hs. unfold wordCheck, wordCheckEvents, afterWordCheck, resultMessage.
  rewrite view_cons.
  eapply runsTo_bind; [apply runsTo_sendMessageWithKeyboard, Hu |].
  cbv beta.
  eapply runsTo_bind_l; [apply runsTo_deriveLoop; assumption |].
  cbv beta.
  eapply runsTo_bind_l; [apply runsTo_readStop |].
  cbv beta. rewrite Hs. cbv iota.
  fold (variantsOf E st word). fold (deriveAll E st word (variantsOf E st word)
    {| allAddresses := []; derivationDetails := []; checkedVariants := 0 |}).
  fold (derivedAddresses E st word).
  destruct (knownEmpty (wordCache w !! normalizePhrase word)) eqn:Hk.
  - (* the cache knows the word to be empty *)
    rewrite view_app, view_cons, pi_record, app_nil_l.
    eapply runsTo_bind_l.
    { eapply runsTo_bind_l.
      { destruct (messageId E chatId _);
          [apply runsTo_editMessageText, Hu | apply runsTo_ret]. }
      cbv beta.
      eapply runsTo_bind_l; [apply runsTo_getCachedWordResult |].
      cbv beta. rewrite Hk.
      eapply runsTo_bind_l; [| apply runsTo_ret].
      rewrite <- (pi_record chatId word (derivedAddresses E st word) [] "full_cached").
      apply runsTo_recordCheck. }
    cbv beta. cbn [fst snd].
    eapply runsTo_bind_l; [apply runsTo_deleteIfSent, Hu |].
    cbv beta. rewrite view_cons, view_nil, app_nil_r.
    eapply runsTo_bind; [apply runsTo_sendMessageWithKeyboard, Hu |].
    cbv beta.
    eapply runsTo_bind_l; [apply runsTo_ret |].
    apply runsTo_notifyAdminTestMode; [exact Hu | reflexivity].
  - (* the word is checked *)
    rewrite view_app, view_app, <- app_assoc.
    eapply runsTo_bind.
    { eapply runsTo_bind_l.
      { destruct (messageId E chatId _);
          [apply runsTo_editMessageText, Hu | apply runsTo_ret]. }
      cbv beta.
      eapply runsTo_bind_l; [apply runsTo_getCachedWordResult |].
      cbv beta. rewrite Hk.
      apply runsTo_checkAndCache, Hu. }
    cbv beta. cbn [fst snd].
    eapply runsTo_bind_l; [apply runsTo_deleteIfSent; exact Hu |].
    cbv beta. rewrite view_cons, <- app_assoc.
    eapply runsTo_bind; [apply runsTo_sendMessageWithKeyboard; exact Hu |].
    cbv beta.
    eapply runsTo_bind; [| apply runsTo_notifyAdminTestMode; [exact Hu | reflexivity]].
    destruct (foundAmong _); [apply runsTo_notifyAdmin; exact Hu | apply runsTo_ret].
Qed.

Local Abbreviation afterWord := (afterWord E).

Ltac loop_body Hu :=
  eapply runsTo_bind_l;
    [ match goal with
      | |- runsTo _ (match ?id with _ => _ end) _ _ _ _ =>
          destruct id; [apply runsTo_editMessageText, Hu | apply runsTo_ret]
      end |];
  cbv beta; rewrite view_cons;
  eapply runsTo_bind;
    [ apply runsTo_checkBalances;
      [ exact Hu
      | first [apply editsOnly_batch | apply editsOnly_topic | apply editsOnly_aiTopic] ] |];
  cbv beta; rewrite view_app;
  eapply runsTo_bind;
    [ apply runsTo_afterQuery; [exact Hu | reflexivity] |];
  cbv beta; rewrite view_cons, view_nil.

Lemma runsTo_batchWord chatId st id n i word s w :
  undisturbed w ->
  runsTo pi (batchWord E chatId st id n i word s) w
    (nextState E (handleBatch_onProgress E chatId id i n word (results s))
       st word s w false)
    (afterWord st word w)
    (view pi (wordEvents E chatId st word "batch" w)).
Proof.
  intros Hu. unfold batchWord, wordEvents, afterWord, nextState.
  loop_body Hu.
  eapply runsTo_bind; [apply runsTo_cacheWordResult | apply runsTo_ret].
Qed.

Lemma runsTo_topicWord chatId st id info aiUsed n i word s w :
  undisturbed w ->
  runsTo pi (topicWord E chatId st id info aiUsed n i word s) w
    (nextState E (handleTopicExplore_onProgress E chatId id info aiUsed i n word
                    (results s))
       st word s w true)
    (afterWord st word w)
    (view pi (wordEvents E chatId st word "topic_explore" w)).
Proof.
  intros Hu. unfold topicWord, wordEvents, afterWord, nextState.
  loop_body Hu.
  eapply runsTo_bind; [apply runsTo_cacheWordResult |].
  cbv beta. eapply runsTo_bind_l; [| apply runsTo_ret].
  rewrite <- (pi_record chatId word (fullWordCheck E word st) []
                (if aiUsed then "ai_topic" else "topic_explore")).
  apply runsTo_recordCheck.
Qed.

Lemma runsTo_aiTopicWord chatId st id info n i word s w :
  undisturbed w ->
  runsTo pi (aiTopicWord E chatId st id info n i word s) w
    (nextState E (handleAITopicExpand_onProgress E chatId id info i n word (results s))
       st word s w true)
    (afterWord st word w)
    (view pi (wordEvents E chatId st word "ai_topic_expand" w)).
Proof.
  intros Hu. unfold aiTopicWord, wordEvents, afterWord, nextState.
  loop_body Hu.
  eapply runsTo_bind; [apply runsTo_cacheWordResult |].
  cbv beta. eapply runsTo_bind_l; [| apply runsTo_ret].
  rewrite <- (pi_record chatId word (fullWordCheck E word st) [] "ai_topic_expand").
  apply runsTo_recordCheck.
Qed.

End Runs.


(** Closed statements about the demo installation are settled by
    evaluation, conjunct by conjunct. *)
Ltac evaluate :=
  intros; repeat match goal with |- _ /\ _ => split end; vm_compute; reflexivity.

(* ------------------------------------------------------------------- *)
(** *** What reaches the cache *)
(* ------------------------------------------------------------------- *)

(** What a run leaves of its trace and of the world. *)
Lemma runsTo_trace {X A} (pi : Event -> list X) (m : Bot A) w a w' v :
  runsTo pi m w a w' v ->
  view pi (trace (m w)) = v /\ after (m w) = w' /\ value (m w) = Ok a.
Proof. intros (tr & Hrun & Hview). rewrite Hrun. simpl. auto. Qed.

(** The run lemma [lem], applied to [m] in [w] for the projection [pi]:
    [Hv] is what it says of the trace, [Ha] of the world left. *)
Ltac run_of pi m w lem Hv Ha :=
  let H := fresh "Hrun" in
  eassert (H : runsTo pi m w _ _ _)
    by (eapply lem; try (intros; reflexivity); eassumption);
  apply runsTo_trace in H; destruct H as (Hv & Ha & _).

Section CacheWrites.

Variable E : Collaborators.

Lemma mapSet_fresh (m : BalanceMap) k v :
  ~ In k (List.map fst m) -> mapSet m k v = m ++ [(k, v)].
Proof.
  induction m as [|[k' v'] m IH]; simpl; intros Hk; [reflexivity |].
  destruct (String.eqb k' k) eqn:Heq.
  - apply String.eqb_eq in Heq. exfalso. apply Hk. left. exact Heq.
  - rewrite IH; [reflexivity |]. intros Hin. apply Hk. right. exact Hin.
Qed.

Lemma copyInto_nodup (m acc : BalanceMap) :
  List.NoDup (List.map fst (acc ++ m)) -> copyInto acc m = acc ++ m.
Proof.
  revert acc. induction m as [|[k v] m IH]; intros acc Hnd.
  - simpl. rewrite app_nil_r. reflexivity.
  - unfold copyInto. simpl. fold (copyInto (mapSet acc k v) m).
    assert (Hfresh : ~ In k (List.map fst acc)).
    { rewrite List.map_app in Hnd. simpl in Hnd.
      apply List.NoDup_remove_2 in Hnd. intros Hin. apply Hnd.
      apply in_or_app. left. exact Hin. }
    rewrite (mapSet_fresh acc k v Hfresh).
    rewrite IH; rewrite <- app_assoc; [reflexivity | exact Hnd].
Qed.

(** A returned map has one entry per address: copying it into an empty
    map gives it back. *)
Lemma collected_nodup (balances : BalanceMap) :
  List.NoDup (List.map fst balances) -> collected (Ok balances) = balances.
Proof. intros Hnd. exact (copyInto_nodup balances [] Hnd). Qed.

Section Silent.

Context {X : Type}.
Variable pi : Event -> list X.
Hypothesis pi_send : forall c t, pi (SendMessage c t) = [].

Lemma view_alert_silent word bals mode_ : view pi (alert E word bals mode_) = [].
Proof.
  unfold alert. destruct (TELEGRAM_CHAT_ID E); [| reflexivity].
  destruct (List.filter _ bals); [reflexivity |].
  destruct (deriveBrainWallet E word); [| reflexivity].
  unfold view, flat_map. rewrite pi_send. reflexivity.
Qed.

Lemma view_testAlert_silent on word bals chatId mode_ :
  view pi (testAlert E on word bals chatId mode_) = [].
Proof.
  unfold testAlert. destruct (TELEGRAM_CHAT_ID E); [| reflexivity].
  destruct (negb on); [reflexivity |].
  destruct (isAdmin E chatId); [reflexivity |].
  destruct (deriveBrainWallet E word); [| reflexivity].
  unfold view, flat_map. rewrite pi_send. reflexivity.
Qed.

Lemma view_afterQuery_silent on chatId word mode_ out :
  view pi (afterQueryEvents E on chatId word mode_ out) = [].
Proof.
  unfold afterQueryEvents. destruct out; [| reflexivity].
  rewrite view_app, view_testAlert_silent, app_nil_r.
  destruct (foundAmong _); [apply view_alert_silent | reflexivity].
Qed.

Hypothesis pi_keyboard : forall c t k, pi (SendMessageWithKeyboard c t k) = [].
Hypothesis pi_record : forall c w a b m, pi (RecordCheck c w a b m) = [].

(** What is left of a word check that was not skipped. *)
Lemma view_wordCheckEvents_fresh chatId st word w :
  knownEmpty (wordCache w !! normalizePhrase word) = false ->
  view pi (wordCheckEvents E chatId st word w) =
  pi (CheckBalances (derivedAddresses E st word) (api_pref st) 50 stopFlag true
        (explorerApiKeys st)) ++
  pi (CacheWordResult word
        (foundAmong (nextOutcome w (derivedAddresses E st word)))
        (sumBalances (collected (nextOutcome w (derivedAddresses E st word))))
        (length (derivedAddresses E st word))).
Proof.
  intros Hfresh. unfold wordCheckEvents, checkAndCacheEvents, resultMessage.
  rewrite Hfresh.
  rewrite view_cons, pi_keyboard, app_nil_l.
  rewrite view_app, view_testAlert_silent, app_nil_r.
  rewrite view_app.
  rewrite (view_cons pi (SendMessageWithKeyboard _ _ _)), pi_keyboard, app_nil_l.
  assert (Ha : view pi (if foundAmong (nextOutcome w (derivedAddresses E st word))
                        then alert E word
                               (collected (nextOutcome w (derivedAddresses E st word)))
                               "word_check"
                        else []) = []).
  { destruct (foundAmong _); [apply view_alert_silent | reflexivity]. }
  rewrite Ha, app_nil_r.
  rewrite !view_cons, pi_record. unfold view, flat_map.
  rewrite !app_nil_r. reflexivity.
Qed.

(** What is left of a skipped word check. *)
Lemma view_wordCheckEvents_known chatId st word w :
  knownEmpty (wordCache w !! normalizePhrase word) = true ->
  view pi (wordCheckEvents E chatId st word w) = [].
Proof.
  intros Hknown. unfold wordCheckEvents, resultMessage. rewrite Hknown.
  rewrite view_cons, pi_keyboard, app_nil_l.
  rewrite view_app, view_testAlert_silent, app_nil_r.
  rewrite !view_cons, pi_record, pi_keyboard. reflexivity.
Qed.

(** What is left of one loop iteration. *)
Lemma view_wordEvents chatId st word mode_ w :
  view pi (wordEvents E chatId st word mode_ w) =
  pi (CheckBalances (fullWordCheck E word st) (api_pref st) 50 stopFlag true
        (explorerApiKeys st)) ++
  pi (CacheWordResult word (foundAmong (nextOutcome w (fullWordCheck E word st))) 0
        (length (fullWordCheck E word st))).
Proof.
  unfold wordEvents. rewrite view_cons, view_app, view_afterQuery_silent.
  rewrite app_nil_l. unfold view, flat_map. rewrite app_nil_r. reflexivity.
Qed.

End Silent.

Lemma zeroTotals_fresh c st : freshAllowed E zeroTotals c st.
Proof. intros word _. split; [exact I | intros; reflexivity]. Qed.

(** C6, as the code has it.  The single word check writes to the cache
    the sum of the per-address balances the checker returned; the
    batch, the topic exploration, the AI topic expansion and the
    dictionary scan write a total of 0 whatever was returned. *)
Theorem cache_total_is_sum_in_word_check_zero_elsewhere
    (chatId : ChatId) (word args topicKey : string) (w : World)
    (balances : BalanceMap) :
  let addrs := derivedAddresses E (settings_get E chatId) word in
  undisturbed w ->
  stopCurrentBatch w = false ->
  knownEmpty (wordCache w !! normalizePhrase word) = false ->
  nextOutcome w addrs = Ok balances ->
  List.NoDup (List.map fst balances) ->
  view writeOf (trace (handleWordCheck E chatId word w)) =
    [(word, anyPositive balances, sumBalances balances, length addrs)] /\
  Forall (allowed zeroTotals) (trace (handleBatch E chatId args w)) /\
  Forall (allowed zeroTotals) (trace (handleTopicExplore E chatId topicKey w)) /\
  Forall (allowed zeroTotals) (trace (handleAITopicExpand E 0 chatId topicKey w)) /\
  Forall (allowed zeroTotals) (trace (handleDictionary E chatId w)).
Proof.
  intros addrs Hu Hs Hfresh Hout Hnd. split; [| repeat split].
  - unfold handleWordCheck.
    run_of writeOf (wordCheck E (settings_get E chatId) chatId word) w
      runsTo_wordCheck Hv Ha.
    rewrite Hv, view_wordCheckEvents_fresh by (intros; reflexivity || assumption).
    fold addrs. rewrite Hout. rewrite (collected_nodup balances Hnd). reflexivity.
  - exact (proj1 (t_handleBatch E zeroTotals (wordCache w) chatId args
                    (zeroTotals_fresh _ _) w eq_refl)).
  - exact (proj1 (t_handleTopicExplore E zeroTotals (wordCache w) chatId topicKey
                    (zeroTotals_fresh _ _) w eq_refl)).
  - exact (proj1 (t_handleAITopicExpand E zeroTotals (wordCache w) 0%nat chatId topicKey
                    (zeroTotals_fresh _ _) w eq_refl)).
  - refine (proj1 (t_handleDictionary E zeroTotals chatId _ _ w I)).
    + intros; exact I.
    + intros; reflexivity.
Qed.

End CacheWrites.

(** A batch over one word whose address holds 5: the checker returns a
    sum of 5, and the cache write records a total of 0. *)
Lemma batch_cache_total_is_not_the_sum :
  let w := Demo.world (Demo.replyWith ["1C7b09726f"] 5) [] in
  let addrs := fullWordCheck Demo.collaborators "satoshi" Demo.settings in
  option_map sumBalances
    (match nextOutcome w addrs with Ok m => Some m | Throw _ => None end) = Some 5 /\
  view writeOf (trace (handleBatch Demo.collaborators Demo.user "satoshi" w)) =
    [("satoshi"%string, true, 0, 4%nat)].
Proof. evaluate. Qed.

Lemma cache_total_is_sum_in_word_check_zero_elsewhere_witness :
  let w := Demo.world (Demo.replyWith ["1C7b09726f"; "1U7b09726f"] 5) [] in
  view writeOf (trace (handleWordCheck Demo.collaborators Demo.user "satoshi" w)) =
    [("satoshi"%string, true, 10, 4%nat)] /\
  Forall (allowed zeroTotals)
    (trace (handleBatch Demo.collaborators Demo.user "satoshi, hodl" w)).
Proof.
  intros w.
  assert (Hout : exists balances,
             nextOutcome w (derivedAddresses Demo.collaborators
                              (settings_get Demo.collaborators Demo.user) "satoshi")
             = Ok balances /\
             List.NoDup (List.map fst balances) /\
             anyPositive balances = true /\ sumBalances balances = 10 /\
             length (derivedAddresses Demo.collaborators
                       (settings_get Demo.collaborators Demo.user) "satoshi") = 4%nat).
  { eexists. split; [vm_compute; reflexivity |].
    split; [| split; [| split]]; try (vm_compute; reflexivity).
    repeat (apply List.NoDup_cons; [vm_compute; intuition discriminate |]).
    apply List.NoDup_nil. }
  destruct Hout as (balances & Hout & Hnd & Hany & Hsum & Hlen).
  destruct (cache_total_is_sum_in_word_check_zero_elsewhere Demo.collaborators
              Demo.user "satoshi" "satoshi, hodl" "bitcoin" w balances
              eq_refl eq_refl eq_refl Hout Hnd) as (Hw & Hb & _).
  rewrite Hany, Hsum, Hlen in Hw. split; [exact Hw | exact Hb].
Defined.
(* ------------------------------------------------------------------- *)
(** *** Cancellation tokens *)
(* ------------------------------------------------------------------- *)

Section Cancellation.

Variable E : Collaborators.

Lemma stopAware_fresh c st : freshAllowed E stopAware c st.
Proof. intros word _. split; [intros w; reflexivity | intros; exact I]. Qed.

Lemma stopAware_tokens : tokensOK stopAware.
Proof. intros a w. reflexivity. Qed.

Lemma t_wordCheck_stopAware st chatId word :
  triple (fun _ => True) (wordCheck E st chatId word) (allowed stopAware)
    (fun _ _ => True).
Proof.
  apply triple_any_cache. intros c.
  apply (t_wordCheck E stopAware c st chatId word). intros _.
  split; [exact stopAware_tokens | intros; exact I].
Qed.

Lemma t_batch_stopAware chatId args :
  triple (fun _ => True) (handleBatch E chatId args) (allowed stopAware)
    (fun _ _ => True).
Proof.
  apply triple_any_cache. intros c.
  exact (t_handleBatch E stopAware c chatId args (stopAware_fresh _ _)).
Qed.

Lemma t_run_stopAware chatId (c : Call) :
  checksBalances c = true ->
  triple (fun _ => True) (run E chatId c) (allowed (tokenPolicy c)) (fun _ _ => True).
Proof.
  intros Hc.
  destruct c as [word | phrase | key | key | args | | word | | count | ty |
                 | word | | key val | | | | | |];
    cbv [checksBalances] in Hc; try discriminate Hc; clear Hc;
    cbv [run tokenPolicy].
  - exact (t_wordCheck_stopAware _ chatId word).
  - exact (t_handleBrainWallet E stopAware chatId phrase stopAware_tokens).
  - apply triple_any_cache. intros c.
    exact (t_handleTopicExplore E stopAware c chatId key (stopAware_fresh _ _)).
  - apply triple_any_cache. intros c.
    exact (t_handleAITopicExpand E stopAware c 0%nat chatId key (stopAware_fresh _ _)).
  - exact (t_batch_stopAware chatId args).
  - apply (t_handleDictionary E stopAware chatId); intros; exact I.
  - unfold handleDeepCheck. step; [step; step |].
    exact (t_wordCheck_stopAware _ chatId word).
  - exact (t_handleFeelingLucky E stopAware chatId stopAware_tokens).
  - apply (t_handleRandomKeyHunt E neverStops chatId count). intros a w. reflexivity.
  - exact (t_batch_stopAware chatId _).
  - unfold handleSmartBatch. destruct (smartWords E chatId);
      [repeat step | exact (t_batch_stopAware chatId _)].
  - unfold handleBatchAI. destruct (aiSuggestionWords E chatId) as [[|x xs]|];
      [repeat step | exact (t_batch_stopAware chatId _) | repeat step].
  - unfold handleBatchRandom. destruct (fst (randomBatch E chatId));
      [repeat step |]. step; [step; step | exact (t_batch_stopAware chatId _)].
  - unfold handleContextPivot. step; [step; step |].
    destruct (smartWords E chatId);
      [repeat step | exact (t_batch_stopAware chatId _)].
  - unfold handleInterviewBatchCheck. destruct (interviewExtracted E chatId);
      [repeat step | exact (t_batch_stopAware chatId _)].
Qed.

Lemma triple_pre_case {A} (Pre : World -> Prop) (phi : Prop) (m : Bot A) Ev Post :
  (forall w, Pre w -> phi) -> (phi -> triple Pre m Ev Post) -> triple Pre m Ev Post.
Proof. intros H1 H2 w Hw. exact (H2 (H1 w Hw) w Hw). Qed.

(** A word check that finds the stop flag set after the derivation
    makes no query and writes nothing to the cache. *)
Lemma t_wordCheck_stopped st chatId word :
  triple (fun w => stopCurrentBatch w = true) (wordCheck E st chatId word)
    (allowed nothingAllowed) (fun _ _ => True).
Proof.
  unfold wordCheck.
  step; [step; step |]. step; [apply t_deriveLoop; step |].
  eapply triple_bind; [apply triple_readStop | intros stopped].
  apply (triple_pre_case _ (stopped = true)); [intros w [-> H]; exact H | intros ->].
  eapply triple_conseq with (Pre' := fun _ => True);
    [| intros; exact I | intros ? ? H; exact H].
  step; [step |].
  step; [step; step |]. step; [step; step |].
  step; [destruct (snd a1); step; step |]. eapply triple_weaken. step. step.
Qed.

(** C7, as the code has it.  Every handler that checks balances passes
    [checkBalances] a token that returns the current value of
    [stopCurrentBatch], except the random key hunt, whose single query
    is given a token that is constantly false.  A single word check
    started with the flag set makes no query and no cache write, and
    each multi-word loop, which tests the flag before each word,
    issues nothing more when it finds the flag set there. *)
Theorem shouldStop_reads_flag_except_key_hunt
    (chatId : ChatId) (c : Call) (w w' : World) :
  checksBalances c = true ->
  stopCurrentBatch w' = true ->
  Forall (allowed (tokenPolicy c)) (trace (run E chatId c w)) /\
  (forall word, Forall (allowed nothingAllowed) (trace (handleWordCheck E chatId word w'))) /\
  (forall st id n i words s info aiUsed source lw ls,
      trace (batchLoop E chatId st id n i words s w') = [] /\
      trace (topicLoop E chatId st id info aiUsed n i words s w') = [] /\
      trace (aiTopicLoop E chatId st id info n i words s w') = [] /\
      trace (luckyLoop E chatId st id source lw i words ls w') = [] /\
      trace (dictionaryLoop E chatId st id n i words w') = []).
Proof.
  intros Hc Hstop. split; [| split].
  - apply (t_run_stopAware chatId c Hc w I).
  - intros word. exact (proj1 (t_wordCheck_stopped _ chatId word w' Hstop)).
  - intros. destruct words as [|x xs]; [repeat split; reflexivity |].
    cbv [batchLoop topicLoop aiTopicLoop luckyLoop dictionaryLoop bind readStop
         get trace value after]; fold batchLoop topicLoop aiTopicLoop luckyLoop
         dictionaryLoop.
    rewrite Hstop. repeat split; reflexivity.
Qed.

End Cancellation.

(** The random key hunt issues one query, and the token it carries
    answers [false] in a world whose stop flag is set. *)
Lemma key_hunt_token_ignores_stop_flag :
  let stopped := setStop true (Demo.world (Demo.replyWith [] 0) []) in
  stopCurrentBatch stopped = true /\
  view (tokensAt stopped)
    (trace (run Demo.collaborators Demo.user (RandomKeyHunt 1)
              (Demo.world (Demo.replyWith [] 0) []))) = [false].
Proof. evaluate. Qed.

(** The flag is tested before the awaited status edit: a stop request
    that arrives during that edit comes too late for the query that
    follows it.  The query is issued with a token that by then answers
    [true], and the cache entry is written. *)
Lemma stop_during_status_edit_comes_too_late :
  let w := Demo.world (Demo.replyWith [] 0) [false; true] in
  let out := handleWordCheck Demo.collaborators Demo.user "satoshi" w in
  stopCurrentBatch (after out) = true /\
  view (tokensAt (after out)) (trace out) = [true] /\
  length (Demo.cacheWrites (trace out)) = 1%nat.
Proof. evaluate. Qed.

Lemma shouldStop_reads_flag_except_key_hunt_witness :
  checksBalances (Batch "satoshi, hodl") = true /\
  stopCurrentBatch (setStop true (Demo.world (Demo.replyWith [] 0) [])) = true /\
  Forall (allowed stopAware)
    (trace (run Demo.collaborators Demo.user (Batch "satoshi, hodl")
              (Demo.world (Demo.replyWith [] 0) []))) /\
  trace (batchLoop Demo.collaborators Demo.user Demo.settings (Some 7) 2 0
           ["satoshi"; "hodl"]%string
           {| results := []; lastProgress := 0; foundAny := false |}
           (setStop true (Demo.world (Demo.replyWith [] 0) []))) = [].
Proof.
  split; [reflexivity | split; [reflexivity |]].
  destruct (shouldStop_reads_flag_except_key_hunt Demo.collaborators Demo.user
              (Batch "satoshi, hodl") (Demo.world (Demo.replyWith [] 0) [])
              (setStop true (Demo.world (Demo.replyWith [] 0) []))
              eq_refl eq_refl) as (Hall & _ & Hloops).
  split; [exact Hall |].
  exact (proj1 (Hloops Demo.settings (Some 7) 2%nat 0%nat ["satoshi"; "hodl"]%string
                  {| results := []; lastProgress := 0; foundAny := false |}
                  {| label := "Bitcoin"; category := None; topicWords := [] |}
                  true EmptyString [] {| luckyResults := []; jackpot := None |})).
Defined.

(* ------------------------------------------------------------------- *)
(** *** Rejected balance queries *)
(* ------------------------------------------------------------------- *)

Section Rejected.

Variable E : Collaborators.

Lemma lookup_cached phrase h t n w :
  wordCache (cached phrase h t n w) !! normalizePhrase phrase =
  Some {| hasBalance := h; balanceTotal := t; addressCount := n |}.
Proof. unfold cached. destruct w. simpl. apply lookup_insert_eq. Qed.

(** C5, as the code has it.  The cache write follows the [try]/[catch]
    around the query: when the query is rejected, the single word
    check and each iteration of the batch, topic and AI topic loops
    still write an entry for the phrase, recording no balance, a total
    of 0 and the number of derived addresses. *)
Theorem rejected_query_is_cached_as_empty
    (chatId : ChatId) (st : Settings) (word : string) (w : World) (e e' : string)
    (id : option MsgId) (n i : nat) (s : LoopState) (info : TopicInfo)
    (aiUsed : bool) :
  undisturbed w ->
  stopCurrentBatch w = false ->
  knownEmpty (wordCache w !! normalizePhrase word) = false ->
  nextOutcome w (derivedAddresses E st word) = Throw e ->
  nextOutcome w (fullWordCheck E word st) = Throw e' ->
  let empty k := {| hasBalance := false; balanceTotal := 0; addressCount := k |} in
  let single := wordCheck E st chatId word w in
  let inBatch := batchWord E chatId st id n i word s w in
  let inTopic := topicWord E chatId st id info aiUsed n i word s w in
  let inAITopic := aiTopicWord E chatId st id info n i word s w in
  (view writeOf (trace single) =
     [(word, false, 0, length (derivedAddresses E st word))] /\
   wordCache (after single) !! normalizePhrase word =
     Some (empty (length (derivedAddresses E st word)))) /\
  Forall (fun o : Out LoopState =>
            view writeOf (trace o) = [(word, false, 0, length (fullWordCheck E word st))] /\
            wordCache (after o) !! normalizePhrase word =
              Some (empty (length (fullWordCheck E word st))))
    [inBatch; inTopic; inAITopic].
Proof.
  intros Hu Hs Hfresh Hout Hout' empty single inBatch inTopic inAITopic.
  split.
  - subst single.
    run_of writeOf (wordCheck E st chatId word) w runsTo_wordCheck Hv Ha.
    rewrite Hv, Ha, view_wordCheckEvents_fresh by (intros; reflexivity || assumption).
    unfold afterWordCheck. rewrite Hfresh, Hout. split; [reflexivity |].
    apply lookup_cached.
  - subst inBatch inTopic inAITopic. 
    apply List.Forall_cons; [| apply List.Forall_cons; [| apply List.Forall_cons;
      [| apply List.Forall_nil]]].
    + run_of writeOf (batchWord E chatId st id n i word s) w runsTo_batchWord Hv Ha.
      rewrite Hv, Ha, view_wordEvents by (intros; reflexivity).
      unfold afterWord. rewrite Hout'. split; [reflexivity | apply lookup_cached].
    + run_of writeOf (topicWord E chatId st id info aiUsed n i word s) w
        runsTo_topicWord Hv Ha.
      rewrite Hv, Ha, view_wordEvents by (intros; reflexivity).
      unfold afterWord. rewrite Hout'. split; [reflexivity | apply lookup_cached].
    + run_of writeOf (aiTopicWord E chatId st id info n i word s) w
        runsTo_aiTopicWord Hv Ha.
      rewrite Hv, Ha, view_wordEvents by (intros; reflexivity).
      unfold afterWord. rewrite Hout'. split; [reflexivity | apply lookup_cached].
Qed.

End Rejected.

(** A word check whose balance query is rejected: the cache, empty
    before, holds an entry for the word afterwards. *)
Lemma rejected_query_still_writes_cache :
  let w := Demo.world Demo.replyFailing [] in
  let out := handleWordCheck Demo.collaborators Demo.user "satoshi" w in
  wordCache w !! normalizePhrase "satoshi" = None /\
  nextOutcome w (derivedAddresses Demo.collaborators Demo.settings "satoshi") =
    Throw "All providers exhausted" /\
  wordCache (after out) !! normalizePhrase "satoshi" =
    Some {| hasBalance := false; balanceTotal := 0; addressCount := 4 |}.
Proof. evaluate. Qed.

Lemma rejected_query_is_cached_as_empty_witness :
  let w := Demo.world Demo.replyFailing [] in
  view writeOf (trace (wordCheck Demo.collaborators Demo.settings Demo.user "satoshi" w)) =
    [("satoshi"%string, false, 0, 4%nat)] /\
  view writeOf
    (trace (batchWord Demo.collaborators Demo.user Demo.settings (Some 7) 1 0 "satoshi"
              {| results := []; lastProgress := 0; foundAny := false |} w)) =
    [("satoshi"%string, false, 0, 4%nat)].
Proof.
  intros w.
  assert (Hlen : length (derivedAddresses Demo.collaborators Demo.settings "satoshi") = 4%nat
                 /\ length (fullWordCheck Demo.collaborators "satoshi" Demo.settings) = 4%nat)
    by (split; vm_compute; reflexivity).
  destruct Hlen as [Hlen Hlen'].
  destruct (rejected_query_is_cached_as_empty Demo.collaborators Demo.user Demo.settings
              "satoshi" w "All providers exhausted" "All providers exhausted"
              (Some 7) 1%nat 0%nat
              {| results := []; lastProgress := 0; foundAny := false |}
              {| label := "Bitcoin"; category := None; topicWords := [] |} false
              eq_refl eq_refl eq_refl eq_refl eq_refl) as [[Hw _] Hloops].
  apply Forall_cons_1 in Hloops. destruct Hloops as [[Hb _] _].
  rewrite Hlen in Hw. rewrite Hlen' in Hb. split; [exact Hw | exact Hb].
Defined.

(* ------------------------------------------------------------------- *)
(** *** Skipping what the cache knows to be empty *)
(* ------------------------------------------------------------------- *)

Section Skipping.

Variable E : Collaborators.

Lemma nothingAllowed_silent (tr : list Event) :
  Forall (allowed nothingAllowed) tr -> view oracleOrCache tr = [].
Proof.
  induction 1 as [|e tr He _ IH]; [reflexivity |].
  unfold view in *. simpl. rewrite IH.
  destruct e; simpl in He; try contradiction; reflexivity.
Qed.

Lemma freshOnly_fresh st c : freshAllowed E (freshOnly E st c) c st.
Proof.
  intros word Hword. split; simpl.
  - exists word. split; [exact Hword | reflexivity].
  - intros _. exact Hword.
Qed.

(** C3, as the code has it.  A word the cache knows to be empty is
    skipped by the single word check and by the dictionary scan: no
    query, no cache write.  A word it does not know to be empty is
    queried and the outcome written back by the single word check,
    provided no stop request arrives, and by each iteration of the
    batch loop.  The batch and the topic exploration query and write
    only words that were not known to be empty when they started. *)
Theorem known_empty_skipped_others_queried_and_cached
    (chatId : ChatId) (known fresh args topicKey : string) (w : World) :
  let st := settings_get E chatId in
  let addrs := derivedAddresses E st fresh in
  let out := nextOutcome w addrs in
  let addrs' := fullWordCheck E fresh st in
  knownEmpty (wordCache w !! normalizePhrase known) = true ->
  knownEmpty (wordCache w !! normalizePhrase fresh) = false ->
  undisturbed w ->
  stopCurrentBatch w = false ->
  view oracleOrCache (trace (handleWordCheck E chatId known w)) = [] /\
  (forall id n i, trace (dictionaryWord E chatId st id n i known w) = []) /\
  view oracleOrCache (trace (handleWordCheck E chatId fresh w)) =
    [ CheckBalances addrs (api_pref st) 50 stopFlag true (explorerApiKeys st);
      CacheWordResult fresh (foundAmong out) (sumBalances (collected out))
        (length addrs) ] /\
  (forall id n i s,
      view oracleOrCache (trace (batchWord E chatId st id n i fresh s w)) =
        [ CheckBalances addrs' (api_pref st) 50 stopFlag true (explorerApiKeys st);
          CacheWordResult fresh (foundAmong (nextOutcome w addrs')) 0
            (length addrs') ]) /\
  Forall (allowed (freshOnly E st (wordCache w)))
    (trace (handleBatch E chatId args w)) /\
  Forall (allowed (freshOnly E st (wordCache w)))
    (trace (handleTopicExplore E chatId topicKey w)).
Proof.
  intros st addrs out addrs' Hknown Hfresh Hu Hs.
  split; [| split; [| split; [| split; [| split]]]].
  - apply nothingAllowed_silent. unfold handleWordCheck.
    refine (proj1 (t_wordCheck E nothingAllowed (wordCache w) st chatId known _ w
                     eq_refl)).
    intros Hk. rewrite Hknown in Hk. discriminate Hk.
  - intros id n i. unfold dictionaryWord, bind, getCachedWordResult, ret. simpl.
    rewrite Hknown. reflexivity.
  - unfold handleWordCheck. fold st.
    run_of oracleOrCache (wordCheck E st chatId fresh) w runsTo_wordCheck Hv Ha.
    rewrite Hv, view_wordCheckEvents_fresh by (intros; reflexivity || assumption).
    reflexivity.
  - intros id n i s.
    run_of oracleOrCache (batchWord E chatId st id n i fresh s) w runsTo_batchWord
      Hv Ha.
    rewrite Hv, view_wordEvents by (intros; reflexivity). reflexivity.
  - exact (proj1 (t_handleBatch E _ (wordCache w) chatId args
                    (freshOnly_fresh st _) w eq_refl)).
  - exact (proj1 (t_handleTopicExplore E _ (wordCache w) chatId topicKey
                    (freshOnly_fresh st _) w eq_refl)).
Qed.

End Skipping.

(** A word check that a stop request interrupts while the addresses
    are derived: the cache has no entry for the word, and yet no query
    is made and nothing is written.  And the dictionary scan of a word
    cached as found: the word is queried again, and the outcome (no
    balance this time) is not written back. *)
Lemma stopped_word_check_neither_queries_nor_caches :
  let w := Demo.world (Demo.replyWith [] 0) [true] in
  let out := handleWordCheck Demo.collaborators Demo.user "satoshi" w in
  let w' := cached "abandon" true 0 6 (Demo.world (Demo.replyWith [] 0) []) in
  let out' := dictionaryWord Demo.collaborators Demo.user Demo.settings (Some 7) 2 0
                "abandon" w' in
  (getCachedWordResult "satoshi" w =
     {| value := Ok None; after := w; trace := [] |} /\
   value out = Ok tt /\
   view oracleOrCache (trace out) = [] /\
   wordCache (after out) = wordCache w) /\
  (length (view queryOf (trace out')) = 1%nat /\
   view writeOf (trace out') = [] /\
   wordCache (after out') = wordCache w').
Proof. evaluate. Qed.

Lemma known_empty_skipped_others_queried_and_cached_witness :
  let w := cached "hodl" false 0 4 (Demo.world (Demo.replyWith [] 0) []) in
  view oracleOrCache (trace (handleWordCheck Demo.collaborators Demo.user "hodl" w)) = [] /\
  view queryOf (view oracleOrCache
                  (trace (handleWordCheck Demo.collaborators Demo.user "satoshi" w))) =
    [["1S12xsatoshi0"; "bc1s12xsatoshi0"; "1C7b09726f"; "1U7b09726f"]%string] /\
  Forall (allowed (freshOnly Demo.collaborators Demo.settings (wordCache w)))
    (trace (handleBatch Demo.collaborators Demo.user "hodl, satoshi" w)).
Proof.
  intros w.
  assert (Hk : knownEmpty (wordCache w !! normalizePhrase "hodl") = true)
    by (vm_compute; reflexivity).
  assert (Hf : knownEmpty (wordCache w !! normalizePhrase "satoshi") = false)
    by (vm_compute; reflexivity).
  assert (Ha : derivedAddresses Demo.collaborators Demo.settings "satoshi" =
               ["1S12xsatoshi0"; "bc1s12xsatoshi0"; "1C7b09726f"; "1U7b09726f"]%string)
    by (vm_compute; reflexivity).
  destruct (known_empty_skipped_others_queried_and_cached Demo.collaborators Demo.user
              "hodl" "satoshi" "hodl, satoshi" "bitcoin" w Hk Hf eq_refl eq_refl)
    as (H1 & _ & H3 & _ & H5 & _).
  split; [exact H1 |]. split; [| exact H5].
  rewrite H3. change (settings_get Demo.collaborators Demo.user) with Demo.settings.
  rewrite Ha. reflexivity.
Defined.

(* ------------------------------------------------------------------- *)
(** *** The dictionary scan and the cache *)
(* ------------------------------------------------------------------- *)

Section DictionaryCache.

Variable E : Collaborators.

(** C4, as the code has it.  What the dictionary scan does to the
    cache entry of a word it has no entry for, when the checker
    reports a balance on the addresses of the word repeated [count]
    times: it records the word as found, alerts the admin chat, and
    then, because no entry existed when the iteration began, records
    it as empty.  [hasBalance = true] is not preserved. *)
Theorem dictionary_scan_overwrites_found_word
    (chatId : ChatId) (st : Settings) (id : option MsgId) (n i count : nat)
    (word : string) (res : SeedResult) (w : World) :
  let addrs := getRepeatedSeedAddresses E res in
  let run := dictionaryWord E chatId st id n i word w in
  undisturbed w ->
  repeats st = [count] ->
  deriveRepeatedWordSeed E word count ["bip44"%string] 3 = Ok res ->
  wordCache w !! normalizePhrase word = None ->
  hasAnyBalanceReply w (oracleCalls w) addrs = Ok true ->
  value run = Ok tt /\
  view writeOf (trace run) = [(word, true, 0, length addrs); (word, false, 0, 0%nat)] /\
  wordCache (after run) !! normalizePhrase word =
    Some {| hasBalance := false; balanceTotal := 0; addressCount := 0 |}.
Proof.
  intros addrs run Hu Hrep Hseed Hnone Hreply. subst run.
  eassert (Hrun : runsTo writeOf (dictionaryWord E chatId st id n i word) w _ _ _).
  { unfold dictionaryWord.
    eapply runsTo_bind; [apply runsTo_getCachedWordResult |].
    cbv beta. rewrite Hnone. cbn [knownEmpty]. rewrite Hrep. cbn [forEach].
    eapply runsTo_bind.
    { eapply runsTo_bind; [| apply runsTo_ret].
      unfold dictionaryCount. rewrite Hseed. fold addrs.
      eapply runsTo_bind; [apply runsTo_hasAnyBalance, Hu |].
      cbv beta. rewrite Hreply.
      eapply runsTo_bind; [apply runsTo_cacheWordResult |].
      apply runsTo_notifyAdmin; first [exact Hu | intros; reflexivity]. }
    cbv beta.
    eapply runsTo_bind; [apply runsTo_cacheWordResult |].
    destruct id as [k|]; [destruct (Nat.eqb _ _) |];
      [apply runsTo_editMessageText; first [exact Hu | intros; reflexivity]
      | apply runsTo_ret | apply runsTo_ret]. }
  apply runsTo_trace in Hrun. destruct Hrun as (Hv & Ha & Hval).
  rewrite Hv, Ha, Hval. split; [reflexivity |]. split.
  - rewrite view_alert_silent by (intros; reflexivity). reflexivity.
  - apply lookup_cached.
Qed.

End DictionaryCache.

(** The scan of a two-word list in a world where every seed address
    list holds a balance: each word is written as found and then as
    empty, and the cache ends up recording both as empty. *)
Lemma dictionary_scan_leaves_found_words_empty :
  let out := handleDictionary Demo.collaborators Demo.user Demo.seedsFunded in
  view writeOf (trace out) =
    [("abandon", true, 0, 6%nat); ("abandon", false, 0, 0%nat);
     ("zoo", true, 0, 6%nat); ("zoo", false, 0, 0%nat)]%string /\
  option_map hasBalance (wordCache (after out) !! normalizePhrase "abandon") = Some false /\
  length (view (alertsTo Demo.admin) (trace out)) = 2%nat.
Proof. evaluate. Qed.

Lemma dictionary_scan_overwrites_found_word_witness :
  let run := dictionaryWord Demo.collaborators Demo.user Demo.settings (Some 7) 2 0
               "abandon" Demo.seedsFunded in
  view writeOf (trace run) =
    [("abandon", true, 0, 6%nat); ("abandon", false, 0, 0%nat)]%string /\
  wordCache (after run) !! normalizePhrase "abandon" =
    Some {| hasBalance := false; balanceTotal := 0; addressCount := 0 |}.
Proof.
  intros run.
  assert (Hseed : exists res,
             deriveRepeatedWordSeed Demo.collaborators "abandon" 12 ["bip44"%string] 3
             = Ok res /\
             length (getRepeatedSeedAddresses Demo.collaborators res) = 6%nat).
  { eexists. split; [reflexivity | vm_compute; reflexivity]. }
  destruct Hseed as (res & Hseed & Hlen).
  destruct (dictionary_scan_overwrites_found_word Demo.collaborators Demo.user
              Demo.settings (Some 7) 2%nat 0%nat 12%nat "abandon" res Demo.seedsFunded
              eq_refl eq_refl Hseed eq_refl eq_refl) as (_ & Hw & Hc).
  rewrite Hlen in Hw. split; [exact Hw | exact Hc].
Defined.

(* ------------------------------------------------------------------- *)
(** *** One long-running operation at a time *)
(* ------------------------------------------------------------------- *)

Section LongRunning.

Variable E : Collaborators.

(** While [longRunning] is set, an update other than a stop request
    gets a notice at most: no handler starts and nothing changes. *)
Lemma processUpdate_rejects_while_running (u : Update) (w : World) :
  longRunning w = true ->
  isStopRequest u = false ->
  after (processUpdate E u w) = w /\
  value (processUpdate E u w) = Ok tt /\
  Forall (fun e => exists c t, e = SendMessage c t) (trace (processUpdate E u w)).
Proof.
  intros Hrun Hstop. destruct u as [chat data | chatId text]; unfold processUpdate.
  - unfold isStopRequest in Hstop. rewrite Hstop.
    unfold bind, get. cbn [value after trace]. rewrite Hrun.
    destruct chat; cbn; repeat split; repeat constructor; eauto.
  - unfold isStopRequest in Hstop. rewrite Hstop.
    unfold bind, get. cbn [value after trace]. rewrite Hrun.
    cbn; repeat split; repeat constructor; eauto.
Qed.

(** [runLongOp] holds the flag while [fn] runs: [fn] starts in a world
    where it is set. *)
Lemma runLongOp_raises_flag (fn : Bot unit) (w : World) :
  exists w0,
    longRunning w0 = true /\
    trace (runLongOp fn w) = trace (tryCatch fn (fun _ => ret tt) w0) /\
    longRunning (after (runLongOp fn w)) = false.
Proof.
  exists (setLongRunning true (setStop false w)). split; [reflexivity |].
  unfold runLongOp, bind, modify, tryCatch, ret. cbn [value after trace app].
  destruct (fn (setLongRunning true (setStop false w))) as [[a | e] w1 tr];
    cbn [value after trace app]; rewrite ?app_nil_r; split; reflexivity.
Qed.

(** C8, as the code has it.  The gate of the polling loop turns away
    every update but a stop request while [longRunning] is set; but
    the flag is not raised by every handler that checks balances.  The
    dictionary button ([dictionary:go]) awaits [handleDictionary]
    directly, where the [/dictionary] command and the
    [check_word:dictionary] button start it through [runLongOp]; the
    [/brain], [/topic] and [/deep] commands and the [pivot] and
    [interview:check_extracted] buttons await their handlers directly
    as well. *)
Theorem dictionary_button_bypasses_runLongOp
    (chatId : ChatId) (u : Update) (w : World) :
  longRunning w = true ->
  isStopRequest u = false ->
  (after (processUpdate E u w) = w /\
   Forall (fun e => exists c t, e = SendMessage c t) (trace (processUpdate E u w))) /\
  checksBalances Dictionary = true /\
  handleCallback E chatId "dictionary:go" =
    tryCatch (handleDictionary E chatId) (errorReply E chatId) /\
  handleCallback E chatId "check_word:dictionary" =
    tryCatch (runLongOp (handleDictionary E chatId)) (errorReply E chatId) /\
  handleCommand_route E chatId "/dictionary" = ViaRunLongOp Dictionary /\
  Forall (fun s => exists c, s = Awaited c /\ checksBalances c = true)
    [ handleCommand_route E chatId "/brain correct horse";
      handleCommand_route E chatId "/topic bitcoin";
      handleCommand_route E chatId "/deep satoshi";
      handleCallback_route E chatId "pivot:year:2011";
      handleCallback_route E chatId "interview:check_extracted" ].
Proof.
  intros Hrun Hstop.
  destruct (processUpdate_rejects_while_running u w Hrun Hstop) as (Ha & _ & Ht).
  split; [split; assumption |]. split; [reflexivity |].
  assert (H1 : handleCallback_route E chatId "dictionary:go" = Awaited Dictionary)
    by (vm_compute; reflexivity).
  assert (H2 : handleCallback_route E chatId "check_word:dictionary" =
               ViaRunLongOp Dictionary) by (vm_compute; reflexivity).
  split; [unfold handleCallback; rewrite H1; reflexivity |].
  split; [unfold handleCallback; rewrite H2; reflexivity |].
  split; [vm_compute; reflexivity |].
  repeat (apply List.Forall_cons;
          [eexists; split; [vm_compute; reflexivity | reflexivity] |]).
  apply List.Forall_nil.
Qed.

End LongRunning.

(** The dictionary button pressed while nothing runs: the scan queries
    the checker, and [longRunning] is down at the end as it was at the
    start, no [runLongOp] having raised it in between. *)
Lemma dictionary_button_scans_with_flag_down :
  let w := Demo.world (Demo.replyWith [] 0) [] in
  let out := processUpdate Demo.collaborators
               (CallbackQuery (Some Demo.user) "dictionary:go") w in
  longRunning w = false /\
  out = tryCatch (handleDictionary Demo.collaborators Demo.user)
          (errorReply Demo.collaborators Demo.user) w /\
  length (view queryOf (trace out)) = 2%nat.
Proof. evaluate. Qed.

Lemma dictionary_button_bypasses_runLongOp_witness :
  let w := setLongRunning true (Demo.world (Demo.replyWith [] 0) []) in
  let u := TextMessage Demo.user "satoshi" in
  after (processUpdate Demo.collaborators u w) = w /\
  handleCallback Demo.collaborators Demo.user "dictionary:go" =
    tryCatch (handleDictionary Demo.collaborators Demo.user)
      (errorReply Demo.collaborators Demo.user).
Proof.
  intros w u.
  destruct (dictionary_button_bypasses_runLongOp Demo.collaborators Demo.user u w
              eq_refl eq_refl) as ((Ha & _) & _ & Hd & _).
  split; [exact Ha | exact Hd].
Defined.

(* ------------------------------------------------------------------- *)
(** *** What the requesting chat and the admin chat are sent *)
(* ------------------------------------------------------------------- *)

Section Substrings.

Lemma append_nil_l (b : string) : EmptyString +:+ b = b.
Proof. reflexivity. Qed.

Lemma append_cons (x : ascii) (a b : string) : String x a +:+ b = String x (a +:+ b).
Proof. reflexivity. Qed.

Lemma append_assoc (a b c : string) : (a +:+ b) +:+ c = a +:+ b +:+ c.
Proof.
  induction a as [|x a IH]; [reflexivity |].
  rewrite !append_cons, IH. reflexivity.
Qed.

Lemma append_empty_r (a : string) : a +:+ EmptyString = a.
Proof.
  induction a as [|x a IH]; [reflexivity |]. rewrite append_cons, IH. reflexivity.
Qed.

Lemma includes_refl (t : string) : Js.includes t t.
Proof.
  exists EmptyString, EmptyString. rewrite append_nil_l, append_empty_r. reflexivity.
Qed.

Lemma includes_here (t post : string) : Js.includes (t +:+ post) t.
Proof. exists EmptyString, post. reflexivity. Qed.

Lemma includes_skip (p s t : string) : Js.includes s t -> Js.includes (p +:+ s) t.
Proof.
  intros (pre & post & ->). exists (p +:+ pre), post. rewrite append_assoc. reflexivity.
Qed.

Lemma includes_app_l (s q t : string) : Js.includes s t -> Js.includes (s +:+ q) t.
Proof.
  intros (pre & post & ->). exists pre, (post +:+ q).
  rewrite !append_assoc. reflexivity.
Qed.

Lemma concat_cons (x : string) (xs : list string) :
  String.concat EmptyString (x :: xs) = x +:+ String.concat EmptyString xs.
Proof.
  destruct xs as [|y ys]; [| reflexivity].
  cbn [String.concat]. rewrite append_empty_r. reflexivity.
Qed.

Lemma includes_concat (f : string * BalanceRecord -> string) (t : string)
    (e : string * BalanceRecord) (es : list (string * BalanceRecord)) :
  In e es -> Js.includes (f e) t ->
  Js.includes (String.concat EmptyString (List.map f es)) t.
Proof.
  intros Hin Hf. induction es as [|x es IH]; [contradiction |].
  cbn [List.map]. rewrite concat_cons. destruct Hin as [-> | Hin].
  - apply includes_app_l, Hf.
  - apply includes_skip, IH, Hin.
Qed.

Lemma prefix_split (t s : string) :
  String.prefix t s = true -> exists post, s = t +:+ post.
Proof.
  revert s. induction t as [|a t IH]; intros s H.
  - exists s. reflexivity.
  - destruct s as [|b s]; [discriminate |]. cbn [String.prefix] in H.
    destruct (Ascii.ascii_dec a b) as [-> |]; [| discriminate].
    destruct (IH s H) as (post & ->). exists post. reflexivity.
Qed.

Lemma prefix_append (t post : string) : String.prefix t (t +:+ post) = true.
Proof.
  induction t as [|a t IH]; [destruct post; reflexivity |].
  rewrite append_cons. cbn [String.prefix].
  destruct (Ascii.ascii_dec a a); [exact IH | contradiction].
Qed.

Lemma includesb_spec (s t : string) : includesb s t = true <-> Js.includes s t.
Proof.
  split.
  - induction s as [|a s IH]; cbn [includesb]; intros H.
    + apply orb_true_iff in H. destruct H as [H | H]; [| discriminate].
      destruct (prefix_split _ _ H) as (post & ->). apply includes_here.
    + apply orb_true_iff in H. destruct H as [H | H].
      * destruct (prefix_split _ _ H) as (post & ->). apply includes_here.
      * apply (includes_skip (String a EmptyString) s t), IH, H.
  - intros (pre & post & ->). induction pre as [|a pre IH].
    + rewrite append_nil_l.
      destruct (t +:+ post) eqn:Hs; cbn [includesb]; rewrite <- ?Hs, prefix_append;
        reflexivity.
    + rewrite append_cons. cbn [includesb]. rewrite IH. apply orb_true_r.
Qed.

End Substrings.

(** Finds the part [t] inside an appended text. *)
Ltac find_part :=
  solve [ apply includes_refl
        | apply includes_here
        | apply includes_skip; find_part
        | apply includes_app_l; find_part ].

Section MoreRuns.

Variable E : Collaborators.
Context {X : Type}.
Variable pi : Event -> list X.
Hypothesis pi_edit : forall c i t k, pi (EditMessageText c i t k) = [].
Hypothesis pi_delete : forall c i, pi (DeleteMessage c i) = [].

Lemma runsTo_handleBrainWallet chatId phrase r w :
  undisturbed w ->
  deriveBrainWallet E phrase = Ok r ->
  runsTo pi (handleBrainWallet E chatId phrase) w tt (queried w)
    (view pi (brainWalletEvents E chatId phrase r w)).
Proof.
  intros Hu Hr. unfold handleBrainWallet, brainWalletEvents.
  rewrite Hr. cbv zeta. cbn [app]. rewrite view_cons.
  eapply runsTo_bind; [apply runsTo_sendMessage, Hu |].
  cbv beta. rewrite view_cons.
  eapply runsTo_bind.
  { apply runsTo_checkBalances; first [exact Hu | exact I | assumption]. }
  cbv beta. unfold settled. cbn [fst snd]. rewrite view_app.
  eapply runsTo_bind.
  { instantiate (1 := queried w). instantiate (1 := tt).
    unfold nextOutcome.
    destruct (foundAmong _);
      [apply runsTo_notifyAdmin; first [exact Hu | assumption] | apply runsTo_ret]. }
  cbv beta.
  eapply runsTo_bind_l; [apply runsTo_deleteIfSent; first [exact Hu | assumption] |].
  cbv beta. rewrite view_cons.
  eapply runsTo_bind; [apply runsTo_sendMessageWithKeyboard, Hu |].
  cbv beta. rewrite view_cons, view_nil, app_nil_r.
  apply runsTo_recordCheck.
Qed.

End MoreRuns.

Section Views.

Variable E : Collaborators.

(** An alert never reaches a chat that is not the admin chat. *)
Lemma sentTo_alert chat word bals mode_ :
  isAdmin E chat = false -> view (sentTo chat) (alert E word bals mode_) = [].
Proof.
  unfold isAdmin, alert. intros Hchat.
  destruct (TELEGRAM_CHAT_ID E) as [admin|]; [| reflexivity].
  destruct (List.filter _ bals); [reflexivity |].
  destruct (deriveBrainWallet E word); [| reflexivity].
  unfold view. cbn [flat_map sentTo]. rewrite Z.eqb_sym, Hchat. reflexivity.
Qed.

Lemma sentTo_testAlert chat on word bals mode_ :
  view (sentTo chat) (testAlert E on word bals chat mode_) = [].
Proof.
  unfold testAlert. destruct (TELEGRAM_CHAT_ID E) as [admin|] eqn:Hadmin; [| reflexivity].
  destruct (negb on); [reflexivity |].
  destruct (isAdmin E chat) eqn:Hchat; [reflexivity |].
  destruct (deriveBrainWallet E word); [| reflexivity].
  unfold isAdmin in Hchat. rewrite Hadmin in Hchat.
  unfold view. cbn [flat_map sentTo]. rewrite Z.eqb_sym, Hchat. reflexivity.
Qed.

(** What the requesting chat is sent by a single word check does not
    depend on the world it runs in. *)
Lemma sentTo_wordCheckEvents chat st word w :
  isAdmin E chat = false ->
  view (sentTo chat) (wordCheckEvents E chat st word w) =
  view (sentTo chat) (wordCheckMessages E chat st word).
Proof.
  intros Hchat. unfold wordCheckEvents, wordCheckMessages, checkAndCacheEvents.
  rewrite !view_cons. f_equal.
  rewrite view_app, sentTo_testAlert, app_nil_r.
  destruct (knownEmpty _).
  - rewrite !view_cons. reflexivity.
  - rewrite view_app, !view_cons.
    assert (Ha : forall b bals,
               view (sentTo chat)
                 (if b : bool then alert E word bals "word_check" else []) = []).
    { intros [|] bals; [apply sentTo_alert, Hchat | reflexivity]. }
    rewrite Ha. reflexivity.
Qed.

Lemma sentTo_wordEvents chat st word mode_ w :
  isAdmin E chat = false ->
  view (sentTo chat) (wordEvents E chat st word mode_ w) = [].
Proof.
  intros Hchat. unfold wordEvents, afterQueryEvents.
  rewrite view_cons, view_app. cbn [sentTo app].
  destruct (nextOutcome _ _); [| reflexivity].
  rewrite view_app, sentTo_testAlert, app_nil_r.
  destruct (foundAmong _); [rewrite sentTo_alert by exact Hchat |]; reflexivity.
Qed.

Lemma brainBalanceLines_addresses (m1 m2 : BalanceMap) :
  List.map fst m1 = List.map fst m2 ->
  List.map brainBalanceLine m1 = List.map brainBalanceLine m2.
Proof.
  revert m2. induction m1 as [|[a1 d1] m1 IH]; intros [|[a2 d2] m2] H;
    try discriminate; [reflexivity |].
  cbn [List.map fst] in H. injection H as -> H.
  cbn [List.map]. rewrite (IH m2 H). reflexivity.
Qed.

(** What the requesting chat is sent by a brain-wallet check depends on
    the addresses the checker returned, not on their balances. *)
Lemma sentTo_brainWalletEvents chat phrase r w1 w2 :
  isAdmin E chat = false ->
  sameAddresses (nextOutcome w1 (getBrainWalletAddresses E r))
                (nextOutcome w2 (getBrainWalletAddresses E r)) ->
  view (sentTo chat) (brainWalletEvents E chat phrase r w1) =
  view (sentTo chat) (brainWalletEvents E chat phrase r w2).
Proof.
  intros Hchat Hsame. unfold brainWalletEvents. cbv zeta. cbn [app].
  rewrite !view_cons, !view_app. cbn [sentTo].
  assert (Ha : forall b bals,
             view (sentTo chat)
               (if b : bool then alert E phrase bals "brain_wallet" else []) = []).
  { intros [|] bals; [apply sentTo_alert, Hchat | reflexivity]. }
  rewrite !Ha. rewrite !view_cons.
  destruct (nextOutcome w1 _) as [m1 | e1], (nextOutcome w2 _) as [m2 | e2];
    cbn [sameAddresses] in Hsame; try contradiction.
  - rewrite (brainBalanceLines_addresses m1 m2 Hsame). reflexivity.
  - subst e2. reflexivity.
Qed.

(** The alerts of an event list that holds one alert at most. *)
Lemma alertsTo_alert admin word bals mode_ br :
  TELEGRAM_CHAT_ID E = Some admin ->
  deriveBrainWallet E word = Ok br ->
  view (alertsTo admin) (alert E word bals mode_) =
  if anyPositive bals
  then [notifyAdminText E word (List.filter (fun e => positive (snd e)) bals) br mode_]
  else [].
Proof.
  intros Hadmin Hbr. unfold alert, anyPositive. rewrite Hadmin, Hbr.
  induction bals as [|e bals IH]; [reflexivity |].
  cbn [List.filter existsb]. destruct (positive (snd e)); cbn [orb].
  - unfold view. cbn [flat_map alertsTo]. rewrite Z.eqb_refl. reflexivity.
  - exact IH.
Qed.

Lemma alertsTo_testAlert_off admin word bals chat mode_ :
  view (alertsTo admin) (testAlert E false word bals chat mode_) = [].
Proof. unfold testAlert. destruct (TELEGRAM_CHAT_ID E); reflexivity. Qed.

Lemma anyPositive_filter (bals : BalanceMap) :
  foundAmong (Ok bals) = anyPositive bals.
Proof. reflexivity. Qed.

(** The parts of an alert. *)
Lemma notifyAdminText_parts word entries br mode_ :
  Forall (Js.includes (notifyAdminText E word entries br mode_))
    ([ escHtml word; privateKey br; wifCompressed br; wifUncompressed br;
       legacy_compressed (addresses br); legacy_uncompressed (addresses br);
       segwit (addresses br); nativeSegwit (addresses br) ] ++
     List.map fst entries).
Proof.
  apply Forall_app. split.
  - unfold notifyAdminText, brainKeysText, allAddressesText.
    repeat (apply List.Forall_cons; [find_part |]). apply List.Forall_nil.
  - apply List.Forall_forall. intros a Ha.
    apply in_map_iff in Ha. destruct Ha as (e & <- & He).
    unfold notifyAdminText.
    do 11 apply includes_skip. apply includes_app_l.
    apply (includes_concat foundEntryText (fst e) e entries He).
    unfold foundEntryText. find_part.
Qed.

End Views.

Section LoopRuns.

Variable E : Collaborators.
Context {X : Type}.
Variable pi : Event -> list X.
Hypothesis pi_edit : forall c i t k, pi (EditMessageText c i t k) = [].
Hypothesis pi_delete : forall c i, pi (DeleteMessage c i) = [].
Hypothesis pi_record : forall c w a b m, pi (RecordCheck c w a b m) = [].

Lemma runsTo_filterUncached ws w :
  runsTo pi (filterUncached ws) w (uncached (wordCache w) ws) w [].
Proof. exists []. split; [apply filterUncached_run | reflexivity]. Qed.

Lemma runsTo_sendWebHint chatId url w :
  runsTo pi (sendWebHint chatId url) w tt w
    (view pi (trace (sendWebHint chatId url w))).
Proof.
  destruct url as [u|]; [| apply runsTo_ret].
  cbn [sendWebHint emit trace]. rewrite view_cons, view_nil, app_nil_r.
  apply runsTo_emit.
Qed.

Lemma runsTo_warn chatId (b : bool) text w :
  undisturbed w ->
  runsTo pi (if b then bind (sendMessage E chatId text) (fun _ => ret tt) else ret tt)
    w tt w (if b then pi (SendMessage chatId text) else []).
Proof.
  intros Hu. destruct b; [| apply runsTo_ret].
  eapply runsTo_bind_r; [apply runsTo_sendMessage, Hu | apply runsTo_ret].
Qed.

Lemma runsTo_batchLoop chatId st id n words :
  forall i s w,
    undisturbed w -> stopCurrentBatch w = false ->
    runsTo pi (batchLoop E chatId st id n i words s) w
      (batchFinal E chatId st id n i words s w) (loopWorld E st words w)
      (view pi (loopEvents E chatId st "batch" words w)).
Proof.
  induction words as [|x rest IH]; intros i s w Hu Hs.
  - apply runsTo_ret.
  - cbn [batchLoop batchFinal loopWorld loopEvents]. rewrite view_app.
    eapply runsTo_bind_l; [apply runsTo_readStop |].
    cbv beta. rewrite Hs. cbv iota.
    eapply runsTo_bind.
    + apply runsTo_batchWord; first [exact Hu | assumption].
    + cbv beta. apply IH; [exact Hu | exact Hs].
Qed.

Lemma runsTo_aiTopicLoop chatId st id info n words :
  forall i s w,
    undisturbed w -> stopCurrentBatch w = false ->
    runsTo pi (aiTopicLoop E chatId st id info n i words s) w
      (aiTopicFinal E chatId st id info n i words s w) (loopWorld E st words w)
      (view pi (loopEvents E chatId st "ai_topic_expand" words w)).
Proof.
  induction words as [|x rest IH]; intros i s w Hu Hs.
  - apply runsTo_ret.
  - cbn [aiTopicLoop aiTopicFinal loopWorld loopEvents]. rewrite view_app.
    eapply runsTo_bind_l; [apply runsTo_readStop |].
    cbv beta. rewrite Hs. cbv iota.
    eapply runsTo_bind.
    + apply runsTo_aiTopicWord; first [exact Hu | assumption].
    + cbv beta. apply IH; [exact Hu | exact Hs].
Qed.

End LoopRuns.

Section LoopFacts.

Variable E : Collaborators.

Lemma undisturbed_loopWorld st words w :
  undisturbed w -> undisturbed (loopWorld E st words w).
Proof.
  revert w. induction words as [|x rest IH]; intros w Hu; [exact Hu |].
  cbn [loopWorld]. apply IH. exact Hu.
Qed.

Lemma stop_loopWorld st words w :
  stopCurrentBatch (loopWorld E st words w) = stopCurrentBatch w.
Proof.
  revert w. induction words as [|x rest IH]; intros w; [reflexivity |].
  cbn [loopWorld]. rewrite IH. reflexivity.
Qed.

Lemma samePhrases_afterWord st x w1 w2 :
  samePhrases w1 w2 -> samePhrases (afterWord E st x w1) (afterWord E st x w2).
Proof.
  unfold samePhrases, afterWord, cached, queried. intros H.
  destruct w1, w2. simpl in *. rewrite !dom_insert_L, H. reflexivity.
Qed.

Lemma samePhrases_loopWorld st words w1 w2 :
  samePhrases w1 w2 ->
  samePhrases (loopWorld E st words w1) (loopWorld E st words w2).
Proof.
  revert w1 w2. induction words as [|x rest IH]; intros w1 w2 H; [exact H |].
  cbn [loopWorld]. apply IH, samePhrases_afterWord, H.
Qed.

Lemma samePhrases_size w1 w2 :
  samePhrases w1 w2 -> size (wordCache w1) = size (wordCache w2).
Proof. unfold samePhrases. intros H. rewrite <- !size_dom, H. reflexivity. Qed.

Lemma results_batchFinal chatId st id n words :
  forall i s w,
    results (batchFinal E chatId st id n i words s w) =
    results s ++ List.map (shownAsEmpty E st) words.
Proof.
  induction words as [|x rest IH]; intros i s w.
  - cbn [batchFinal List.map]. rewrite app_nil_r. reflexivity.
  - cbn [batchFinal List.map]. rewrite IH. unfold nextState. cbn [results].
    rewrite <- app_assoc. reflexivity.
Qed.

Lemma results_aiTopicFinal chatId st id info n words :
  forall i s w,
    results (aiTopicFinal E chatId st id info n i words s w) =
    results s ++ List.map (shownAsEmpty E st) words.
Proof.
  induction words as [|x rest IH]; intros i s w.
  - cbn [aiTopicFinal List.map]. rewrite app_nil_r. reflexivity.
  - cbn [aiTopicFinal List.map]. rewrite IH. unfold nextState. cbn [results].
    rewrite <- app_assoc. reflexivity.
Qed.

Lemma sentTo_loopEvents chat st mode_ words :
  isAdmin E chat = false ->
  forall w, view (sentTo chat) (loopEvents E chat st mode_ words w) = [].
Proof.
  intros Hchat. induction words as [|x rest IH]; intros w; [reflexivity |].
  cbn [loopEvents]. rewrite view_app, sentTo_wordEvents, IH by exact Hchat.
  reflexivity.
Qed.

End LoopFacts.

(** One step of an undisturbed run: the run lemma of the head of the
    program, its side conditions taken from the context. *)
Ltac run_step :=
  cbv beta zeta;
  first
    [ apply runsTo_suspend
    | apply runsTo_sendMessage
    | apply runsTo_sendMessageWithKeyboard
    | apply runsTo_deleteIfSent
    | apply runsTo_getWordCacheSize
    | apply runsTo_filterUncached
    | apply runsTo_sendWebHint
    | apply runsTo_warn
    | apply runsTo_batchLoop
    | apply runsTo_aiTopicLoop
    | eapply runsTo_bind; [| cbv beta]
    | apply runsTo_ret ];
  try first [assumption | intros; reflexivity].

(** Both runs of a goal [view pi (trace (m w1)) = view pi (trace (m w2))],
    built with [tac], replace the two traces by what the run lemmas say
    of them. *)
Ltac both_runs tac :=
  match goal with
  | |- view ?pi (trace (?m ?w1)) = view ?pi (trace (?m' ?w2)) =>
      let H1 := fresh "Hrun" in
      let H2 := fresh "Hrun" in
      eassert (H1 : runsTo pi m w1 _ _ _) by tac;
      eassert (H2 : runsTo pi m' w2 _ _ _) by tac;
      apply runsTo_trace in H1; apply runsTo_trace in H2;
      destruct H1 as (-> & _); destruct H2 as (-> & _)
  end.

(** The trace of a program whose head runs as a run lemma says. *)
Lemma trace_bind_run {X A B} (pi : Event -> list X) (m : Bot A) (k : A -> Bot B)
    (w : World) (a : A) (w' : World) (v : list X) :
  runsTo pi m w a w' v ->
  view pi (trace (bind m k w)) = v ++ view pi (trace (k a w')).
Proof.
  intros (tr & Hrun & Hview). unfold bind. rewrite Hrun. cbn [value after trace].
  rewrite view_app, Hview. reflexivity.
Qed.

Section Agreement.

Variable E : Collaborators.
Variable chat : ChatId.
Hypothesis Hchat : isAdmin E chat = false.

Lemma sendWebHint_trace url w1 w2 :
  trace (sendWebHint chat url w1) = trace (sendWebHint chat url w2).
Proof. destruct url; reflexivity. Qed.

(** What the requesting chat is sent by an AI topic expansion is the
    same in two undisturbed worlds that start from the same cache. *)
Lemma sentTo_handleAITopicExpand round topicKey w1 w2 :
  undisturbed w1 -> undisturbed w2 ->
  stopCurrentBatch w1 = false -> stopCurrentBatch w2 = false ->
  wordCache w1 = wordCache w2 ->
  view (sentTo chat) (trace (handleAITopicExpand E round chat topicKey w1)) =
  view (sentTo chat) (trace (handleAITopicExpand E round chat topicKey w2)).
Proof.
  intros Hu1 Hu2 Hs1 Hs2 Hcache. unfold handleAITopicExpand.
  assert (Hsame : samePhrases w1 w2) by (unfold samePhrases; rewrite Hcache; reflexivity).
  destruct (getTopicInfo E topicKey) as [info|];
    [| both_runs ltac:(repeat run_step); reflexivity].
  destruct (String.eqb (ai_provider (settings_get E chat)) "none");
    [both_runs ltac:(repeat run_step); reflexivity |].
  cbv zeta.
  destruct (negb (ai_ok (getTopicWords E round info))).
  { unfold showAIError. both_runs ltac:(repeat run_step). reflexivity. }
  pose proof (f_equal (fun c => uncached c (ai_words (getTopicWords E round info)))
                Hcache) as Hwords.
  cbv beta in Hwords.
  destruct (uncached (wordCache w1) (ai_words (getTopicWords E round info)))
    as [|x xs] eqn:Hw1.
  - both_runs ltac:(repeat run_step; rewrite ?Hw1, <- ?Hwords; repeat run_step).
    rewrite Hcache. reflexivity.
  - pose proof (undisturbed_loopWorld E (settings_get E chat) (x :: xs) w1 Hu1) as Hl1.
    pose proof (undisturbed_loopWorld E (settings_get E chat) (x :: xs) w2 Hu2) as Hl2.
    both_runs ltac:(repeat run_step; rewrite ?Hw1, <- ?Hwords; repeat run_step).
    rewrite !sentTo_loopEvents by exact Hchat.
    rewrite !results_aiTopicFinal.
    rewrite (samePhrases_size _ _
               (samePhrases_loopWorld E (settings_get E chat) (x :: xs) w1 w2 Hsame)).
    rewrite (sendWebHint_trace _ w1 w2). reflexivity.
Qed.

(** What the requesting chat is sent by a batch is the same in two
    undisturbed worlds that start from the same cache. *)
Lemma sentTo_handleBatch args w1 w2 :
  undisturbed w1 -> undisturbed w2 ->
  stopCurrentBatch w1 = false -> stopCurrentBatch w2 = false ->
  wordCache w1 = wordCache w2 ->
  view (sentTo chat) (trace (handleBatch E chat args w1)) =
  view (sentTo chat) (trace (handleBatch E chat args w2)).
Proof.
  intros Hu1 Hu2 Hs1 Hs2 Hcache. unfold handleBatch.
  assert (Hsame : samePhrases w1 w2) by (unfold samePhrases; rewrite Hcache; reflexivity).
  destruct (splitWords args) as [|y ys];
    [both_runs ltac:(repeat run_step); reflexivity |].
  cbv zeta.
  set (st := settings_get E chat).
  set (allWords := if Nat.ltb (batch_limit st) (length (y :: ys))
                   then firstn (batch_limit st) (y :: ys) else y :: ys).
  pose proof (f_equal (fun c => uncached c allWords) Hcache) as Hwords.
  cbv beta in Hwords.
  destruct (uncached (wordCache w1) allWords) as [|x xs] eqn:Hw1.
  - destruct (if String.eqb (ai_provider st) "none" then None else detectedTopic E chat)
      as [t|] eqn:Htopic.
    + (* the AI expansion takes over *)
      erewrite (trace_bind_run _ _ _ w1) by (apply runsTo_warn; assumption).
      erewrite (trace_bind_run _ _ _ w2) by (apply runsTo_warn; assumption).
      erewrite (trace_bind_run _ _ _ w1) by apply runsTo_filterUncached.
      erewrite (trace_bind_run _ _ _ w2) by apply runsTo_filterUncached.
      rewrite Hw1, <- Hwords. cbv iota.
      erewrite (trace_bind_run _ _ _ w1) by apply runsTo_getWordCacheSize.
      erewrite (trace_bind_run _ _ _ w2) by apply runsTo_getWordCacheSize.
      rewrite (sentTo_handleAITopicExpand 0 t w1 w2 Hu1 Hu2 Hs1 Hs2 Hcache).
      reflexivity.
    + both_runs ltac:(repeat run_step; rewrite ?Hw1, <- ?Hwords; cbv iota;
                      repeat run_step; rewrite ?Htopic; repeat run_step).
      rewrite Hcache. reflexivity.
  - pose proof (undisturbed_loopWorld E st (x :: xs) w1 Hu1) as Hl1.
    pose proof (undisturbed_loopWorld E st (x :: xs) w2 Hu2) as Hl2.
    both_runs ltac:(repeat run_step; rewrite ?Hw1, <- ?Hwords; cbv iota;
                    repeat run_step).
    rewrite !sentTo_loopEvents by exact Hchat.
    rewrite !results_batchFinal.
    rewrite (samePhrases_size _ _ (samePhrases_loopWorld E st (x :: xs) w1 w2 Hsame)).
    rewrite (sendWebHint_trace _ w1 w2). reflexivity.
Qed.

End Agreement.

Section Alerts.

Variable E : Collaborators.

Lemma alertsTo_wordCheckEvents admin chat st word w :
  knownEmpty (wordCache w !! normalizePhrase word) = false ->
  testNotifyMode w = false ->
  view (alertsTo admin) (wordCheckEvents E chat st word w) =
  view (alertsTo admin)
    (if foundAmong (nextOutcome w (derivedAddresses E st word))
     then alert E word (collected (nextOutcome w (derivedAddresses E st word)))
            "word_check"
     else []).
Proof.
  intros Hfresh Hoff. unfold wordCheckEvents, checkAndCacheEvents, resultMessage.
  rewrite Hfresh, Hoff.
  rewrite view_cons, view_app, alertsTo_testAlert_off, app_nil_r.
  rewrite view_app, !view_cons. reflexivity.
Qed.

Lemma alertsTo_wordEvents admin chat st word mode_ w :
  testNotifyMode w = false ->
  view (alertsTo admin) (wordEvents E chat st word mode_ w) =
  view (alertsTo admin)
    (if foundAmong (nextOutcome w (fullWordCheck E word st))
     then alert E word (collected (nextOutcome w (fullWordCheck E word st))) mode_
     else []).
Proof.
  intros Hoff. unfold wordEvents, afterQueryEvents. rewrite Hoff.
  rewrite view_cons, view_app. cbn [alertsTo app].
  destruct (nextOutcome _ _) as [m | e] eqn:Hout.
  - rewrite view_app, alertsTo_testAlert_off, !app_nil_r. reflexivity.
  - reflexivity.
Qed.

Lemma alert_of_map admin word mode_ br (balances : BalanceMap) :
  TELEGRAM_CHAT_ID E = Some admin ->
  deriveBrainWallet E word = Ok br ->
  List.NoDup (List.map fst balances) ->
  view (alertsTo admin)
    (if foundAmong (Ok balances) then alert E word (collected (Ok balances)) mode_
     else []) =
  if anyPositive balances
  then [notifyAdminText E word (List.filter (fun e => positive (snd e)) balances) br
          mode_]
  else [].
Proof.
  intros Hadmin Hbr Hnd. rewrite (collected_nodup balances Hnd). cbn [foundAmong].
  destruct (anyPositive balances) eqn:Hany; [| reflexivity].
  rewrite (alertsTo_alert E admin word balances mode_ br Hadmin Hbr), Hany.
  reflexivity.
Qed.

(** C2, as the code has it.  With an admin chat configured, test mode
    off and a brain wallet that derives, a single word check that is
    neither skipped nor stopped, and one iteration of the batch loop,
    send the admin chat one alert exactly when an address of the
    returned map has a positive balance.  The alert carries the
    HTML-escaped word, the brain-wallet key in hex and in both WIF
    encodings, the four brain-wallet addresses and the addresses
    found with a balance; the other derived addresses are not in it.
    A requesting chat other than the admin chat is sent the same
    messages either way. *)
Theorem alert_to_admin_iff_positive_balance
    (chatId admin : ChatId) (word : string) (w : World) (br : BrainResult)
    (balances balances' : BalanceMap)
    (id : option MsgId) (n i : nat) (s : LoopState) :
  let st := settings_get E chatId in
  let single := handleWordCheck E chatId word w in
  let inBatch := batchWord E chatId st id n i word s w in
  let found (m : BalanceMap) := List.filter (fun e => positive (snd e)) m in
  TELEGRAM_CHAT_ID E = Some admin ->
  isAdmin E chatId = false ->
  testNotifyMode w = false ->
  undisturbed w ->
  stopCurrentBatch w = false ->
  knownEmpty (wordCache w !! normalizePhrase word) = false ->
  deriveBrainWallet E word = Ok br ->
  nextOutcome w (derivedAddresses E st word) = Ok balances ->
  nextOutcome w (fullWordCheck E word st) = Ok balances' ->
  List.NoDup (List.map fst balances) ->
  List.NoDup (List.map fst balances') ->
  (view (alertsTo admin) (trace single) =
     (if anyPositive balances
      then [notifyAdminText E word (found balances) br "word_check"] else []) /\
   view (sentTo chatId) (trace single) =
     view (sentTo chatId) (wordCheckMessages E chatId st word)) /\
  (view (alertsTo admin) (trace inBatch) =
     (if anyPositive balances'
      then [notifyAdminText E word (found balances') br "batch"] else []) /\
   view (sentTo chatId) (trace inBatch) = []) /\
  (forall mode_ m,
      Forall (Js.includes (notifyAdminText E word (found m) br mode_))
        (alertParts word br m)).
Proof.
  intros st single inBatch found Hadmin Hchat Hoff Hu Hs Hfresh Hbr Hout Hout'
         Hnd Hnd'.
  split; [| split].
  - subst single. unfold handleWordCheck. fold st. split.
    + run_of (alertsTo admin) (wordCheck E st chatId word) w runsTo_wordCheck Hv Ha.
      rewrite Hv, (alertsTo_wordCheckEvents admin chatId st word w Hfresh Hoff), Hout.
      apply alert_of_map; assumption.
    + run_of (sentTo chatId) (wordCheck E st chatId word) w runsTo_wordCheck Hv Ha.
      rewrite Hv. apply sentTo_wordCheckEvents, Hchat.
  - subst inBatch. split.
    + run_of (alertsTo admin) (batchWord E chatId st id n i word s) w
        runsTo_batchWord Hv Ha.
      rewrite Hv, (alertsTo_wordEvents admin chatId st word "batch" w Hoff), Hout'.
      apply alert_of_map; assumption.
    + run_of (sentTo chatId) (batchWord E chatId st id n i word s) w
        runsTo_batchWord Hv Ha.
      rewrite Hv. apply sentTo_wordEvents, Hchat.
  - intros mode_ m. apply notifyAdminText_parts.
Qed.

(** Where the result text does not depend on the balances.  For a
    requesting chat other than the admin chat and runs that no stop
    request disturbs, started from the same cache in two worlds whose
    balance checkers return the same addresses with different
    balances: a single word check, a brain-wallet check, a batch and
    an AI topic expansion send the requesting chat the same messages
    in both; and each iteration of the batch, topic and AI topic
    loops sends the requesting chat nothing and records the word with
    [hasBalance: false]. *)
Theorem user_messages_do_not_depend_on_balances
    (chatId : ChatId) (word phrase args topicKey : string) (w1 w2 : World)
    (st : Settings) (id : option MsgId) (n i : nat) (s : LoopState)
    (info : TopicInfo) (aiUsed : bool) :
  isAdmin E chatId = false ->
  undisturbed w1 -> undisturbed w2 ->
  stopCurrentBatch w1 = false -> stopCurrentBatch w2 = false ->
  wordCache w1 = wordCache w2 ->
  (forall addrs, sameAddresses (nextOutcome w1 addrs) (nextOutcome w2 addrs)) ->
  Forall (fun c : Call =>
            view (sentTo chatId) (trace (run E chatId c w1)) =
            view (sentTo chatId) (trace (run E chatId c w2)))
    [WordCheck word; BrainWallet phrase; Batch args; AITopicExpand topicKey] /\
  Forall (fun o : Out LoopState =>
            view (sentTo chatId) (trace o) = [] /\
            resultsOf o = Some (results s ++ [shownAsEmpty E st word]))
    [ batchWord E chatId st id n i word s w1;
      topicWord E chatId st id info aiUsed n i word s w1;
      aiTopicWord E chatId st id info n i word s w1 ].
Proof.
  intros Hchat Hu1 Hu2 Hs1 Hs2 Hcache Hsame. split.
  - apply List.Forall_cons; [| apply List.Forall_cons; [| apply List.Forall_cons;
      [| apply List.Forall_cons; [| apply List.Forall_nil]]]]; cbn [run].
    + unfold handleWordCheck.
      run_of (sentTo chatId) (wordCheck E (settings_get E chatId) chatId word) w1
        runsTo_wordCheck Hv1 Ha1.
      run_of (sentTo chatId) (wordCheck E (settings_get E chatId) chatId word) w2
        runsTo_wordCheck Hv2 Ha2.
      rewrite Hv1, Hv2, !sentTo_wordCheckEvents by exact Hchat. reflexivity.
    + destruct (deriveBrainWallet E phrase) as [r | e] eqn:Hr.
      * run_of (sentTo chatId) (handleBrainWallet E chatId phrase) w1
          runsTo_handleBrainWallet Hv1 Ha1.
        run_of (sentTo chatId) (handleBrainWallet E chatId phrase) w2
          runsTo_handleBrainWallet Hv2 Ha2.
        rewrite Hv1, Hv2. apply sentTo_brainWalletEvents; [exact Hchat | apply Hsame].
      * unfold handleBrainWallet. rewrite Hr.
        cbv [bind sendMessage emit suspend modify ret throw value after trace app].
        reflexivity.
    + apply sentTo_handleBatch; assumption.
    + apply sentTo_handleAITopicExpand; assumption.
  - apply List.Forall_cons; [| apply List.Forall_cons; [| apply List.Forall_cons;
      [| apply List.Forall_nil]]].
    + eassert (Hrun : runsTo (sentTo chatId) (batchWord E chatId st id n i word s) w1 _ _ _)
        by (eapply runsTo_batchWord; try (intros; reflexivity); eassumption).
      apply runsTo_trace in Hrun. destruct Hrun as (Hv & _ & Hval).
      unfold resultsOf. rewrite Hv, Hval, sentTo_wordEvents by exact Hchat.
      split; reflexivity.
    + eassert (Hrun : runsTo (sentTo chatId)
                        (topicWord E chatId st id info aiUsed n i word s) w1 _ _ _)
        by (eapply runsTo_topicWord; try (intros; reflexivity); eassumption).
      apply runsTo_trace in Hrun. destruct Hrun as (Hv & _ & Hval).
      unfold resultsOf. rewrite Hv, Hval, sentTo_wordEvents by exact Hchat.
      split; reflexivity.
    + eassert (Hrun : runsTo (sentTo chatId)
                        (aiTopicWord E chatId st id info n i word s) w1 _ _ _)
        by (eapply runsTo_aiTopicWord; try (intros; reflexivity); eassumption).
      apply runsTo_trace in Hrun. destruct Hrun as (Hv & _ & Hval).
      unfold resultsOf. rewrite Hv, Hval, sentTo_wordEvents by exact Hchat.
      split; reflexivity.
Qed.

End Alerts.

(** The two demo worlds differ in the balance of one address only. *)
Lemma demo_worlds_same_addresses (funded : list string) (amount : Z)
    (addrs : list string) :
  sameAddresses
    (nextOutcome (Demo.world (Demo.replyWith [] 0) []) addrs)
    (nextOutcome (Demo.world (Demo.replyWith funded amount) []) addrs).
Proof.
  unfold nextOutcome, Demo.world, Demo.replyWith. cbn [checkBalancesReply outcome].
  cbn [sameAddresses]. rewrite !List.map_map. reflexivity.
Qed.

(** Feeling Lucky in two worlds that differ in one balance: the
    closing message sent to the requesting chat announces the find in
    one and not in the other.  And a word check requested from the
    admin chat itself is answered with the alert as a third message. *)
Lemma feeling_lucky_tells_the_user :
  let w0 := Demo.world (Demo.replyWith [] 0) [] in
  let w5 := Demo.world (Demo.replyWith ["1C7b09726f"] 5) [] in
  let announced (w : World) :=
    List.map (fun m => includesb (fst m) "Found balance on")
      (view (sentTo Demo.user) (trace (handleFeelingLucky Demo.collaborators Demo.user w))) in
  let toAdmin (w : World) :=
    length (view (sentTo Demo.admin)
              (trace (handleWordCheck Demo.collaborators Demo.admin "satoshi" w))) in
  isAdmin Demo.collaborators Demo.user = false /\
  announced w0 = [false; false] /\ announced w5 = [false; true] /\
  toAdmin w0 = 2%nat /\ toAdmin w5 = 3%nat.
Proof. evaluate. Qed.

Lemma user_messages_do_not_depend_on_balances_witness :
  let w0 := Demo.world (Demo.replyWith [] 0) [] in
  let w5 := Demo.world (Demo.replyWith ["1C7b09726f"] 5) [] in
  view (sentTo Demo.user) (trace (handleWordCheck Demo.collaborators Demo.user "satoshi" w0)) =
  view (sentTo Demo.user) (trace (handleWordCheck Demo.collaborators Demo.user "satoshi" w5)) /\
  view (sentTo Demo.user)
    (trace (handleBatch Demo.collaborators Demo.user "satoshi, hodl" w0)) =
  view (sentTo Demo.user)
    (trace (handleBatch Demo.collaborators Demo.user "satoshi, hodl" w5)).
Proof.
  intros w0 w5.
  destruct (user_messages_do_not_depend_on_balances Demo.collaborators Demo.user
              "satoshi" "satoshi" "satoshi, hodl" "bitcoin" w0 w5 Demo.settings
              (Some 7) 1%nat 0%nat
              {| results := []; lastProgress := 0; foundAny := false |}
              {| label := "Bitcoin"; category := None; topicWords := [] |} false
              eq_refl eq_refl eq_refl eq_refl eq_refl eq_refl
              (demo_worlds_same_addresses ["1C7b09726f"%string] 5))
    as (Hcalls & _).
  apply Forall_cons_1 in Hcalls. destruct Hcalls as [Hw Hcalls].
  apply Forall_cons_1 in Hcalls. destruct Hcalls as [_ Hcalls].
  apply Forall_cons_1 in Hcalls. destruct Hcalls as [Hb _].
  split; [exact Hw | exact Hb].
Defined.

(** C1.  The summary of [handleTopicExplore] gives a found balance
    away.  Two worlds with the same cache whose balance checkers return
    the same addresses, with a balance of 5 on one address in the
    second: the messages the topic exploration sends the requesting
    chat differ, the closing line [No balances found.] being in the
    summary of the first run and missing from the summary of the
    second, although each word was recorded as not found and the
    summary says [Found: 0] in both.  The AI topic expansion, which
    builds the same summary, sends the same messages in both worlds
    and closes with the line in both. *)
Theorem topic_summary_depends_on_balances :
  let w0 := Demo.world (Demo.replyWith [] 0) [] in
  let w5 := Demo.world (Demo.replyWith ["1C7b09726f"] 5) [] in
  let toUser (m : Bot unit) (w : World) := view (sentTo Demo.user) (trace (m w)) in
  let says (line : string) (msgs : list (string * option Keyboard)) :=
    List.map (fun m => includesb (fst m) line) msgs in
  let topic := handleTopicExplore Demo.collaborators Demo.user "bitcoin" in
  let aiTopic := handleAITopicExpand Demo.collaborators 0 Demo.user "bitcoin" in
  isAdmin Demo.collaborators Demo.user = false /\
  wordCache w0 = wordCache w5 /\
  (forall addrs, sameAddresses (nextOutcome w0 addrs) (nextOutcome w5 addrs)) /\
  toUser topic w0 <> toUser topic w5 /\
  says "No balances found." (toUser topic w0) = [false; false; true] /\
  says "No balances found." (toUser topic w5) = [false; false; false] /\
  says "Found: 0" (toUser topic w0) = [false; false; true] /\
  says "Found: 0" (toUser topic w5) = [false; false; true] /\
  toUser aiTopic w0 = toUser aiTopic w5 /\
  says "No balances found." (toUser aiTopic w5) = [false; false; true].
Proof.
  intros w0 w5 toUser says topic aiTopic.
  split; [reflexivity|]. split; [reflexivity|].
  split; [exact (demo_worlds_same_addresses ["1C7b09726f"%string] 5)|].
  split.
  { intros H. apply (f_equal (says "No balances found.")) in H.
    vm_compute in H. discriminate H. }
  repeat match goal with |- _ /\ _ => split end; vm_compute; reflexivity.
Qed.

(** The alert for a word whose brain-wallet address holds a balance:
    the seed address of the word, which was derived and submitted to the
    checker with the others, is not in it. *)
Lemma alert_omits_derived_seed_address :
  let w := Demo.world (Demo.replyWith ["1C7b09726f"] 5) [] in
  let run := handleWordCheck Demo.collaborators Demo.user "satoshi" w in
  view queryOf (trace run) =
    [["1S12xsatoshi0"; "bc1s12xsatoshi0"; "1C7b09726f"; "1U7b09726f"]%string] /\
  exists text,
    view (alertsTo Demo.admin) (trace run) = [text] /\
    ~ Js.includes text "1S12xsatoshi0".
Proof.
  split; [vm_compute; reflexivity |].
  eexists. split; [vm_compute; reflexivity |].
  intros H. apply includesb_spec in H. vm_compute in H. discriminate H.
Qed.

Lemma alert_to_admin_iff_positive_balance_witness :
  let w5 := Demo.world (Demo.replyWith ["1C7b09726f"] 5) [] in
  let w0 := Demo.world (Demo.replyWith [] 0) [] in
  let alerts (w : World) :=
    view (alertsTo Demo.admin)
      (trace (handleWordCheck Demo.collaborators Demo.user "satoshi" w)) in
  length (alerts w5) = 1%nat /\ alerts w0 = [].
Proof.
  intros w5 w0 alerts.
  destruct (deriveBrainWallet Demo.collaborators "satoshi") as [br | e] eqn:Hbr;
    [| exfalso; vm_compute in Hbr; discriminate Hbr].
  assert (H5 : nextOutcome w5 (derivedAddresses Demo.collaborators
                                 (settings_get Demo.collaborators Demo.user) "satoshi")
               = Ok (Demo.satoshiBalances 5)) by (vm_compute; reflexivity).
  assert (H5' : nextOutcome w5 (fullWordCheck Demo.collaborators "satoshi"
                                  (settings_get Demo.collaborators Demo.user))
                = Ok (Demo.satoshiBalances 5)) by (vm_compute; reflexivity).
  assert (H0 : nextOutcome w0 (derivedAddresses Demo.collaborators
                                 (settings_get Demo.collaborators Demo.user) "satoshi")
               = Ok (Demo.satoshiBalances 0)) by (vm_compute; reflexivity).
  assert (H0' : nextOutcome w0 (fullWordCheck Demo.collaborators "satoshi"
                                  (settings_get Demo.collaborators Demo.user))
                = Ok (Demo.satoshiBalances 0)) by (vm_compute; reflexivity).
  assert (Hnd : forall amount, List.NoDup (List.map fst (Demo.satoshiBalances amount))).
  { intros amount. unfold Demo.satoshiBalances. rewrite List.map_map. cbn [fst List.map].
    unfold Demo.satoshiAddresses.
    repeat (apply List.NoDup_cons; [vm_compute; intuition discriminate |]).
    apply List.NoDup_nil. }
  destruct (alert_to_admin_iff_positive_balance Demo.collaborators Demo.user Demo.admin
              "satoshi" w5 br (Demo.satoshiBalances 5) (Demo.satoshiBalances 5)
              (Some 7) 1%nat 0%nat
              {| results := []; lastProgress := 0; foundAny := false |}
              eq_refl eq_refl eq_refl eq_refl eq_refl eq_refl Hbr H5 H5' (Hnd 5) (Hnd 5))
    as ((Hal5 & _) & _ & _).
  destruct (alert_to_admin_iff_positive_balance Demo.collaborators Demo.user Demo.admin
              "satoshi" w0 br (Demo.satoshiBalances 0) (Demo.satoshiBalances 0)
              (Some 7) 1%nat 0%nat
              {| results := []; lastProgress := 0; foundAny := false |}
              eq_refl eq_refl eq_refl eq_refl eq_refl eq_refl Hbr H0 H0' (Hnd 0) (Hnd 0))
    as ((Hal0 & _) & _ & _).
  subst alerts. cbv beta. rewrite Hal5, Hal0. split; reflexivity.
Defined.
(* ===================================================================== *)
(** ** escHtml *)
(* ===================================================================== *)

Section Escaping.

Lemma replaceAll_app (c : ascii) (by_ a b : string) :
  Js.replaceAll c by_ (a +:+ b) = Js.replaceAll c by_ a +:+ Js.replaceAll c by_ b.
Proof.
  induction a as [|x a IH].
  - reflexivity.
  - rewrite append_cons. cbn [Js.replaceAll].
    destruct (Ascii.eqb x c).
    + rewrite IH, append_assoc. reflexivity.
    + rewrite IH, append_cons. reflexivity.
Qed.

Lemma escHtml_append (a b : string) : escHtml (a +:+ b) = escHtml a +:+ escHtml b.
Proof. unfold escHtml. rewrite !replaceAll_app. reflexivity. Qed.

Lemma escHtml_cons (x : ascii) (s : string) :
  escHtml (String x s) = escHtml (String x EmptyString) +:+ escHtml s.
Proof.
  change (String x s) with (String x EmptyString +:+ s).
  apply escHtml_append.
Qed.

(** What one character becomes. *)
Lemma escHtml_char (x : ascii) :
  escHtml (String x EmptyString) =
  if Ascii.eqb x "&" then "&amp;"
  else if Ascii.eqb x "<" then "&lt;"
  else if Ascii.eqb x ">" then "&gt;"
  else String x EmptyString.
Proof.
  unfold escHtml. cbn [Js.replaceAll].
  destruct (Ascii.eqb x "&") eqn:Ha.
  - reflexivity.
  - cbn [Js.replaceAll]. destruct (Ascii.eqb x "<") eqn:Hl.
    + reflexivity.
    + cbn [Js.replaceAll]. destruct (Ascii.eqb x ">"); reflexivity.
Qed.

End Escaping.

Section EscapingFacts.

Lemma chars_append (a b : string) :
  list_ascii_of_string (a +:+ b) = list_ascii_of_string a ++ list_ascii_of_string b.
Proof.
  induction a as [|x a IH]; [reflexivity|].
  rewrite append_cons. cbn [list_ascii_of_string]. rewrite IH. reflexivity.
Qed.

(** X1: the text [escHtml] returns contains neither [<] nor [>],
    whatever the input: the three replaces leave no character that
    could open or close a tag. *)
Theorem escHtml_output_has_no_angle_bracket (text : string) :
  Forall (fun c => c <> "<"%char /\ c <> ">"%char)
    (list_ascii_of_string (escHtml text)).
Proof.
  induction text as [|x s IH].
  - constructor.
  - rewrite escHtml_cons, chars_append. apply Forall_app. split; [|exact IH].
    rewrite escHtml_char.
    destruct (Ascii.eqb x "&") eqn:Ha;
      [repeat constructor; discriminate|].
    destruct (Ascii.eqb x "<") eqn:Hl;
      [repeat constructor; discriminate|].
    destruct (Ascii.eqb x ">") eqn:Hg;
      [repeat constructor; discriminate|].
    apply Ascii.eqb_neq in Hl, Hg.
    repeat constructor; assumption.
Qed.

(** X2: [escHtml] loses nothing: two texts with the same escaped form
    are the same text, so the escaped form determines the original. *)
Theorem escHtml_is_injective (s1 s2 : string) :
  escHtml s1 = escHtml s2 <-> s1 = s2.
Proof.
  split; [|intros ->; reflexivity].
  revert s2. induction s1 as [|x s1 IH]; intros [|y s2] H.
  - reflexivity.
  - exfalso. rewrite (escHtml_cons y), escHtml_char in H.
    destruct (Ascii.eqb y "&"); [|destruct (Ascii.eqb y "<"); [|destruct (Ascii.eqb y ">")]];
      rewrite ?append_cons in H; discriminate.
  - exfalso. rewrite (escHtml_cons x), escHtml_char in H.
    destruct (Ascii.eqb x "&"); [|destruct (Ascii.eqb x "<"); [|destruct (Ascii.eqb x ">")]];
      rewrite ?append_cons in H; discriminate.
  - rewrite (escHtml_cons x), (escHtml_cons y), !escHtml_char in H.
    destruct (Ascii.eqb x "&") eqn:Xa; [apply Ascii.eqb_eq in Xa|apply Ascii.eqb_neq in Xa];
    [|destruct (Ascii.eqb x "<") eqn:Xl; [apply Ascii.eqb_eq in Xl|apply Ascii.eqb_neq in Xl];
      [|destruct (Ascii.eqb x ">") eqn:Xg; [apply Ascii.eqb_eq in Xg|apply Ascii.eqb_neq in Xg]]];
    (destruct (Ascii.eqb y "&") eqn:Ya; [apply Ascii.eqb_eq in Ya|apply Ascii.eqb_neq in Ya];
     [|destruct (Ascii.eqb y "<") eqn:Yl; [apply Ascii.eqb_eq in Yl|apply Ascii.eqb_neq in Yl];
       [|destruct (Ascii.eqb y ">") eqn:Yg; [apply Ascii.eqb_eq in Yg|apply Ascii.eqb_neq in Yg]]]);
    rewrite ?append_cons, ?append_nil_l in H;
    try discriminate;
    try (injection H as H; subst; try congruence; f_equal; apply IH; assumption).
Qed.

(** X3: the three successive replaces act as one pass over the text:
    each character is replaced on its own ([&] by [&amp;], [<] by
    [&lt;], [>] by [&gt;], any other character by itself), an
    ampersand written by a replacement is not escaped again, and
    escaping distributes over concatenation. *)
Theorem escHtml_is_one_pass (x : ascii) (s a b : string) :
  escHtml (String x s) =
    (if Ascii.eqb x "&" then "&amp;"
     else if Ascii.eqb x "<" then "&lt;"
     else if Ascii.eqb x ">" then "&gt;"
     else String x EmptyString) +:+ escHtml s /\
  escHtml (a +:+ b) = escHtml a +:+ escHtml b.
Proof.
  split.
  - rewrite escHtml_cons, escHtml_char. reflexivity.
  - apply escHtml_append.
Qed.

End EscapingFacts.

(* ===================================================================== *)
(** ** Callback data *)
(* ===================================================================== *)

Section CallbackData.

Lemma substring_all (s : string) : substring 0 (String.length s) s = s.
Proof. induction s as [|a s IH]; [reflexivity|]. cbn. rewrite IH. reflexivity. Qed.

Lemma substring_zero (s : string) : substring 0 0 s = EmptyString.
Proof. destruct s; reflexivity. Qed.

Lemma indexOf_split (c : ascii) (s : string) (i : nat) :
  Js.indexOf c s = Some i ->
  s = Js.sliceTo i s +:+ String c (Js.sliceFrom (S i) s) /\
  Js.indexOf c (Js.sliceTo i s) = None.
Proof.
  revert i. induction s as [|a s IH]; intros i H; [discriminate|].
  cbn [Js.indexOf] in H. destruct (Ascii.eqb a c) eqn:Hac.
  - injection H as <-. apply Ascii.eqb_eq in Hac. subst a.
    unfold Js.sliceTo, Js.sliceFrom. cbn [String.length Nat.sub substring].
    rewrite Nat.sub_0_r, substring_all. split; reflexivity.
  - destruct (Js.indexOf c s) as [j|] eqn:Hj; [|discriminate].
    injection H as <-. destruct (IH j eq_refl) as [IH1 IH2].
    unfold Js.sliceTo, Js.sliceFrom in *.
    cbn [String.length Nat.sub substring]. rewrite append_cons. split.
    + f_equal. exact IH1.
    + cbn [Js.indexOf]. rewrite Hac, IH2. reflexivity.
Qed.

Lemma splitOn_nonempty (c : ascii) (s : string) : splitOn c s <> [].
Proof.
  induction s as [|a s IH]; cbn [splitOn]; [discriminate|].
  destruct (Ascii.eqb a c); [discriminate|].
  destruct (splitOn c s); [contradiction|discriminate].
Qed.

Lemma join_cons (sep p : string) (q : string) (ps : list string) :
  Js.join sep (p :: q :: ps) = p +:+ sep +:+ Js.join sep (q :: ps).
Proof. reflexivity. Qed.

Lemma join_splitOn (s : string) : Js.join ":" (splitOn ":" s) = s.
Proof.
  induction s as [|a s IH]; [reflexivity|].
  cbn [splitOn]. destruct (Ascii.eqb a ":") eqn:Ha.
  - apply Ascii.eqb_eq in Ha. subst a.
    destruct (splitOn ":" s) as [|p ps] eqn:Hs; [destruct (splitOn_nonempty _ _ Hs)|].
    rewrite join_cons, IH. reflexivity.
  - destruct (splitOn ":" s) as [|p ps] eqn:Hs; [destruct (splitOn_nonempty _ _ Hs)|].
    destruct ps as [|q ps].
    + cbn [Js.join] in *. rewrite IH. reflexivity.
    + rewrite join_cons in *. rewrite <- IH, append_cons. reflexivity.
Qed.

Lemma splitOn_none (s : string) :
  Js.indexOf ":" s = None -> splitOn ":" s = [s].
Proof.
  induction s as [|a s IH]; intros H; [reflexivity|].
  cbn [Js.indexOf] in H. cbn [splitOn].
  destruct (Ascii.eqb a ":"); [discriminate|].
  destruct (Js.indexOf ":" s); [discriminate|].
  rewrite (IH eq_refl). reflexivity.
Qed.

Lemma splitOn_some (s : string) (i : nat) :
  Js.indexOf ":" s = Some i ->
  splitOn ":" s = Js.sliceTo i s :: splitOn ":" (Js.sliceFrom (S i) s).
Proof.
  revert i. induction s as [|a s IH]; intros i H; [discriminate|].
  cbn [Js.indexOf] in H. cbn [splitOn].
  destruct (Ascii.eqb a ":") eqn:Ha.
  - injection H as <-. unfold Js.sliceTo, Js.sliceFrom.
    cbn [String.length Nat.sub substring]. rewrite Nat.sub_0_r, substring_all.
    reflexivity.
  - destruct (Js.indexOf ":" s) as [j|] eqn:Hj; [|discriminate].
    injection H as <-. rewrite (IH j eq_refl).
    unfold Js.sliceTo, Js.sliceFrom. cbn [String.length Nat.sub substring].
    reflexivity.
Qed.

(** X4: the action and the value [handleCallback] cuts callback data
    into lose nothing: with a colon in the data, action, colon and
    value put together are the data again, and the action holds no
    colon; without a colon the action is the whole data and the value
    is empty. *)
Theorem callback_action_and_value_rebuild_data (data : string) :
  match Js.indexOf ":" data with
  | Some _ => data = actionOf data +:+ ":" +:+ valueOf data
  | None => actionOf data = data /\ valueOf data = EmptyString
  end /\
  Js.indexOf ":" (actionOf data) = None.
Proof.
  unfold actionOf, valueOf.
  destruct (Js.indexOf ":" data) as [i|] eqn:Hi.
  - destruct (indexOf_split _ _ _ Hi) as [H1 H2]. split; assumption.
  - split; [split; reflexivity | exact Hi].
Qed.

(** X5: the two ways bot.js reads the action of callback data agree:
    [data.split(':')[0]], which [pollUpdates] compares with ['stop'],
    is the [data.slice(0, colonIdx)] (or the whole data) that
    [handleCallback] switches on; and the pivot case, which splits its
    value at every colon and joins all parts but the first again,
    gets the text before the first colon and the text after it, or
    nothing when the value holds no colon. *)
Theorem split_and_slice_read_the_same_action (data : string) :
  cbAction data = actionOf data /\
  Js.join ":" (splitOn ":" data) = data /\
  pivotArgs data =
    match Js.indexOf ":" data with
    | Some _ => Some (actionOf data, valueOf data)
    | None => None
    end.
Proof.
  unfold cbAction, pivotArgs, actionOf, valueOf.
  destruct (Js.indexOf ":" data) as [i|] eqn:Hi.
  - rewrite (splitOn_some _ _ Hi). cbn [hd tl length].
    split; [reflexivity|]. split.
    + rewrite <- (splitOn_some _ _ Hi). apply join_splitOn.
    + destruct (splitOn ":" (Js.sliceFrom (S i) data)) as [|p ps] eqn:Hs;
        [destruct (splitOn_nonempty _ _ Hs)|].
      cbn [length Nat.leb]. rewrite <- Hs, join_splitOn. reflexivity.
  - rewrite (splitOn_none _ Hi). cbn [hd tl length Nat.leb].
    repeat split; reflexivity.
Qed.

(** X6: [handleInterviewCallback] reads from its data the text between
    the first and the second colon as the action and everything after
    the second colon as the value, further colons included; data with
    fewer than two colons is ignored.  So a button's data
    [iv:a:<value>] comes back as the action [a] and exactly
    [<value>]. *)
Theorem interview_callback_keeps_the_value (value_ data : string) :
  interviewCallbackArgs data =
    match Js.indexOf ":" data with
    | None => None
    | Some i =>
        let rest := Js.sliceFrom (S i) data in
        match Js.indexOf ":" rest with
        | None => None
        | Some j => Some (Js.sliceTo j rest, Js.sliceFrom (S j) rest)
        end
    end /\
  interviewCallbackArgs ("iv:a:" +:+ value_) = Some ("a", value_).
Proof.
  split.
  - unfold interviewCallbackArgs.
    destruct (Js.indexOf ":" data) as [i|] eqn:Hi.
    + rewrite (splitOn_some _ _ Hi). cbv zeta.
      destruct (Js.indexOf ":" (Js.sliceFrom (S i) data)) as [j|] eqn:Hj.
      * rewrite (splitOn_some _ _ Hj).
        destruct (splitOn ":" (Js.sliceFrom (S j) (Js.sliceFrom (S i) data)))
          as [|p ps] eqn:Hs; [destruct (splitOn_nonempty _ _ Hs)|].
        cbn [length Nat.ltb Nat.leb nth skipn]. rewrite <- Hs, join_splitOn.
        reflexivity.
      * rewrite (splitOn_none _ Hj). reflexivity.
    + rewrite (splitOn_none _ Hi). reflexivity.
  - unfold interviewCallbackArgs.
    rewrite !append_cons, append_nil_l. cbn [splitOn Ascii.eqb Bool.eqb].
    destruct (splitOn ":" value_) as [|p ps] eqn:Hs;
      [destruct (splitOn_nonempty _ _ Hs)|].
    cbn [length Nat.ltb Nat.leb nth skipn]. rewrite <- Hs, join_splitOn. reflexivity.
Qed.

End CallbackData.

(* ===================================================================== *)
(** ** The dispatch of commands and callbacks *)
(* ===================================================================== *)

Ltac split_match :=
  repeat (cbv beta iota;
          match goal with
          | |- context [match ?x with _ => _ end] => is_var x; case x; clear x; try intros
          end).

Section Dispatch.

Variable E : Collaborators.

Lemma command_switch (P : Start -> Prop) (s : string) (b0 b1 b2 b3 b4 b5 b6 b7 b8 b9 b10 b11 b12 b13 b14 b15 b16 b17 other : Start) :
  P b0 -> P b1 -> P b2 -> P b3 -> P b4 -> P b5 -> P b6 -> P b7 -> P b8 -> P b9 -> P b10 -> P b11 -> P b12 -> P b13 -> P b14 -> P b15 -> P b16 -> P b17 -> P other ->
  P (match s with
     | "/start" => b0
     | "/help" => b1
     | "/menu" => b2
     | "/brain" => b3
     | "/topic" => b4
     | "/era" => b5
     | "/deep" => b6
     | "/bip39" => b7
     | "/batch" => b8
     | "/dictionary" => b9
     | "/suggest" => b10
     | "/history" => b11
     | "/export" => b12
     | "/settings" => b13
     | "/status" => b14
     | "/stop" => b15
     | "/watch" => b16
     | "/testnotify" => b17
     | _ => other
     end%string).
Proof. intros. split_match; assumption. Qed.

Lemma callback_switch (P : Start -> Prop) (s : string) (b0 b1 b2 b3 b4 b5 b6 b7 b8 b9 b10 b11 b12 b13 b14 b15 b16 b17 b18 b19 b20 b21 b22 b23 b24 b25 b26 b27 b28 b29 b30 b31 b32 b33 b34 b35 b36 b37 b38 b39 b40 b41 b42 b43 b44 b45 b46 other : Start) :
  P b0 -> P b1 -> P b2 -> P b3 -> P b4 -> P b5 -> P b6 -> P b7 -> P b8 -> P b9 -> P b10 -> P b11 -> P b12 -> P b13 -> P b14 -> P b15 -> P b16 -> P b17 -> P b18 -> P b19 -> P b20 -> P b21 -> P b22 -> P b23 -> P b24 -> P b25 -> P b26 -> P b27 -> P b28 -> P b29 -> P b30 -> P b31 -> P b32 -> P b33 -> P b34 -> P b35 -> P b36 -> P b37 -> P b38 -> P b39 -> P b40 -> P b41 -> P b42 -> P b43 -> P b44 -> P b45 -> P b46 -> P other ->
  P (match s with
     | "explore" => b0
     | "cat" => b1
     | "cat_page" => b2
     | "cat_group" => b3
     | "cat_grp_pg" => b4
     | "ai_organize" => b5
     | "lucky" => b6
     | "keyhunt" => b7
     | "era" => b8
     | "eras" => b9
     | "deep" => b10
     | "prompt" => b11
     | "memory" => b12
     | "keys" => b13
     | "set" => b14
     | "more" => b15
     | "smart_batch" => b16
     | "smart_ai" => b17
     | "interview" => b18
     | "ai_topic" => b19
     | "batch_ai_more" => b20
     | "ai_cat_topics" => b21
     | "batch_random" => b22
     | "aisuggest" => b23
     | "batch_ai" => b24
     | "pick_ai" => b25
     | "ai_page" => b26
     | "check_word" => b27
     | "common" => b28
     | "pivot" => b29
     | "dictionary" => b30
     | "export" => b31
     | "menu" => b32
     | "topics_page" => b33
     | "help" => b34
     | "settings" => b35
     | "status" => b36
     | "history" => b37
     | "start" => b38
     | "guide" => b39
     | "stop" => b40
     | "ai_fb_add" => b41
     | "ai_fb_rm" => b42
     | "ai_fb_info" => b43
     | "ai_fb_set" => b44
     | "explorer_key" => b45
     | "onboard" => b46
     | _ => other
     end%string).
Proof. intros. split_match; assumption. Qed.

(** Every way out of the [switch] of [handleCommand]. *)
Lemma handleCommand_route_cases (P : Start -> Prop) (chatId : ChatId) (text : string) :
  (forall name arg, P (Awaited (Menu name arg))) ->
  (forall t, P (Awaited (Reply t))) ->
  (forall r, P (Awaited (SetStop r))) ->
  P (Awaited Nothing) ->
  (forall a, P (Awaited (BrainWallet a))) ->
  (forall a, P (Awaited (TopicExplore a))) ->
  (forall a, P (Awaited (DeepCheck a))) ->
  (forall a, P (ViaRunLongOp (Batch a))) ->
  P (ViaRunLongOp Dictionary) ->
  (forall a, P (ViaRunLongOp (Menu "handleAISuggest" a))) ->
  (isAdmin E chatId = true -> forall on, P (Awaited (SetTestNotify on))) ->
  P (handleCommand_route E chatId text).
Proof.
  intros HMenu HReply HStop HNothing HBrain HTopic HDeep HBatch HDict HSuggest HTest.
  unfold handleCommand_route. cbv zeta.
  apply (command_switch P);
    repeat match goal with
           | |- P (if ?b then _ else _) => destruct b eqn:?
           end;
    auto.
  all: apply HTest; destruct (isAdmin E chatId); [reflexivity | discriminate].
Qed.

(** Every way out of the [switch] of [handleCallback]. *)
Lemma handleCallback_route_cases (P : Start -> Prop) (chatId : ChatId) (data : string) :
  (forall name arg, P (Awaited (Menu name arg))) ->
  (forall name arg, P (ViaRunLongOp (Menu name arg))) ->
  P (Awaited Nothing) ->
  P (Awaited (SetStop None)) ->
  (forall k, P (ViaRunLongOp (TopicExplore k))) ->
  P (ViaRunLongOp FeelingLucky) ->
  (forall v, P (ViaRunLongOp (RandomKeyHunt (huntCount v)))) ->
  (forall w, P (ViaRunLongOp (DeepCheck w))) ->
  P (ViaRunLongOp SmartBatch) ->
  (forall k, P (ViaRunLongOp (AITopicExpand k))) ->
  P (ViaRunLongOp BatchRandom) ->
  (forall w, P (ViaRunLongOp (BatchAI w))) ->
  P (ViaRunLongOp Dictionary) ->
  (forall w, P (ViaRunLongOp (WordCheck w))) ->
  (forall t, P (ViaRunLongOp (CommonWords t))) ->
  P (Awaited InterviewBatchCheck) ->
  (forall k v, P (Awaited (ContextPivot k v))) ->
  P (Awaited Dictionary) ->
  (getTopicInfo E data <> None -> P (Awaited (TopicExplore data))) ->
  P (handleCallback_route E chatId data).
Proof.
  intros. unfold handleCallback_route.
  destruct (Js.startsWith "mem:" data); [auto|].
  destruct (Js.startsWith "iv:" data); [auto|].
  cbv zeta.
  apply (callback_switch P);
    repeat match goal with
           | |- P (if ?b then _ else _) => destruct b eqn:?
           | |- P (match ?b with Some _ => _ | None => _ end) => destruct b eqn:?
           end;
    auto.
Qed.

(** X7: only the admin chat reaches the two assignments to
    [testNotifyMode]: for any other chat no text message, command or
    callback is dispatched to them ([/testnotify] answers "Admin
    only.", and no callback action sets the mode). *)
Theorem test_mode_is_switched_by_the_admin_only
    (chatId : ChatId) (text data : string) (on : bool) :
  isAdmin E chatId = false ->
  Forall (fun s => s <> Awaited (SetTestNotify on) /\ s <> ViaRunLongOp (SetTestNotify on))
    [ handleMessage_route E chatId text;
      handleCommand_route E chatId text;
      handleCallback_route E chatId data ].
Proof.
  intros Hadm.
  assert (Hc : handleCommand_route E chatId text <> Awaited (SetTestNotify on) /\
               handleCommand_route E chatId text <> ViaRunLongOp (SetTestNotify on)).
  { apply (handleCommand_route_cases
             (fun s => s <> Awaited (SetTestNotify on) /\
                       s <> ViaRunLongOp (SetTestNotify on)));
      try (intros; split; discriminate).
    intros Ht. rewrite Ht in Hadm. discriminate. }
  apply List.Forall_cons; [|apply List.Forall_cons; [exact Hc|apply List.Forall_cons; [|apply List.Forall_nil]]].
  - unfold handleMessage_route. cbv zeta.
    repeat match goal with
           | |- context [if ?b then _ else _] => destruct b
           end;
      try exact Hc; split; discriminate.
  - apply (handleCallback_route_cases
             (fun s => s <> Awaited (SetTestNotify on) /\
                       s <> ViaRunLongOp (SetTestNotify on)));
      intros; split; discriminate.
Qed.

(** X8: the complete list of balance-checking handlers that are
    awaited inside the polling loop instead of being started through
    [runLongOp]: among the commands [/brain], [/topic] and [/deep];
    among the callbacks the dictionary button, the interview's
    "check extracted" button, the pivot button, and callback data that
    is itself a topic key.  Of the balance-checking handlers the
    commands start through [runLongOp] only [handleBatch] and
    [handleDictionary]. *)
Theorem balance_checks_started_without_runLongOp
    (chatId : ChatId) (text data : string) (c : Call) :
  checksBalances c = true ->
  (handleCommand_route E chatId text = Awaited c ->
     exists args, c = BrainWallet args \/ c = TopicExplore args \/ c = DeepCheck args) /\
  (handleCallback_route E chatId data = Awaited c ->
     c = Dictionary \/ c = InterviewBatchCheck \/
     (c = TopicExplore data /\ getTopicInfo E data <> None) \/
     exists key value_, c = ContextPivot key value_) /\
  (handleCommand_route E chatId text = ViaRunLongOp c ->
     (exists args, c = Batch args) \/ c = Dictionary).
Proof.
  intros Hc. split; [|split].
  - apply (handleCommand_route_cases
             (fun s => s = Awaited c ->
                exists args, c = BrainWallet args \/ c = TopicExplore args \/
                             c = DeepCheck args));
      intros; try discriminate;
      match goal with H : Awaited _ = Awaited c |- _ => injection H as <- end;
      try discriminate; eauto.
  - apply (handleCallback_route_cases
             (fun s => s = Awaited c ->
                c = Dictionary \/ c = InterviewBatchCheck \/
                (c = TopicExplore data /\ getTopicInfo E data <> None) \/
                exists key value_, c = ContextPivot key value_));
      intros; try discriminate;
      match goal with H : Awaited _ = Awaited c |- _ => injection H as <- end;
      try discriminate; eauto 6.
  - apply (handleCommand_route_cases
             (fun s => s = ViaRunLongOp c ->
                (exists args, c = Batch args) \/ c = Dictionary));
      intros; try discriminate;
      match goal with H : ViaRunLongOp _ = ViaRunLongOp c |- _ => injection H as <- end;
      try discriminate; eauto.
Qed.

(** X9: a key hunt started from a callback hunts between 1 and 100
    keys, whatever the callback data says: the count is clamped
    ([Math.min(Math.max(parseInt(value) || 5, 1), 100)]), and data
    without a number, or with the number 0, hunts 5. *)
Theorem key_hunt_count_is_clamped (chatId : ChatId) (data : string) (n : nat) :
  (handleCallback_route E chatId data = ViaRunLongOp (RandomKeyHunt n) \/
   handleCallback_route E chatId data = Awaited (RandomKeyHunt n)) ->
  (1 <= n <= 100)%nat.
Proof.
  assert (Hb : forall v, (1 <= huntCount v <= 100)%nat).
  { intros v. unfold huntCount.
    destruct (parseInt v) as [z|]; [destruct (z =? 0)|]; lia. }
  apply (handleCallback_route_cases
           (fun s => s = ViaRunLongOp (RandomKeyHunt n) \/ s = Awaited (RandomKeyHunt n) ->
                     (1 <= n <= 100)%nat));
    intros; try (intuition discriminate).
  match goal with H : _ \/ _ |- _ => destruct H as [H|H]; [|discriminate] end.
  injection H as <-. apply Hb.
Qed.

Lemma sliceFrom_prefix (p s : string) :
  Js.sliceFrom (String.length p) (p +:+ s) = s.
Proof.
  unfold Js.sliceFrom. induction p as [|a p IH].
  - rewrite append_nil_l. cbn [String.length]. rewrite Nat.sub_0_r. apply substring_all.
  - rewrite append_cons. cbn [String.length Nat.sub substring]. exact IH.
Qed.

Lemma sliceTo_prefix (p s : string) :
  Js.sliceTo (String.length p) (p +:+ s) = p.
Proof.
  unfold Js.sliceTo. induction p as [|a p IH].
  - rewrite append_nil_l. apply substring_zero.
  - rewrite append_cons. cbn [String.length substring]. rewrite IH. reflexivity.
Qed.

(** The action and the value of data that starts with an action name
    and a colon. *)
Lemma action_value_of (act rest : string) :
  Js.indexOf ":" act = None ->
  actionOf (act +:+ ":" +:+ rest) = act /\ valueOf (act +:+ ":" +:+ rest) = rest.
Proof.
  intros Hact.
  assert (Hi : Js.indexOf ":" (act +:+ ":" +:+ rest) = Some (String.length act)).
  { clear - Hact. induction act as [|a act IH].
    - reflexivity.
    - cbn [Js.indexOf] in Hact. rewrite append_cons. cbn [Js.indexOf String.length].
      destruct (Ascii.eqb a ":"); [discriminate|].
      destruct (Js.indexOf ":" act); [discriminate|].
      rewrite (IH eq_refl). reflexivity. }
  unfold actionOf, valueOf. rewrite Hi. split.
  - apply sliceTo_prefix.
  - change (S (String.length act)) with (String.length (String ":" act)).
    replace (String.length (String ":" act)) with (String.length (act +:+ ":")).
    + rewrite <- append_assoc. apply sliceFrom_prefix.
    + clear. induction act as [|a act IH]; [reflexivity|].
      rewrite append_cons. cbn [String.length]. rewrite IH. reflexivity.
Qed.

(** X10: the buttons a result message carries lead back to the
    handler that fits the word or topic they were built for, whatever
    characters it holds: [deep:<word>] starts a deep check of
    [<word>], [keys:<word>] shows its keys, [aisuggest:<word>] asks
    the AI about it, [explore:<key>] explores and [ai_topic:<key>]
    expands the topic [<key>]; [check_word:<word>] checks [<word>],
    except that the word [dictionary] starts the dictionary scan. *)
Theorem result_buttons_lead_back (chatId : ChatId) (word topicKey : string) :
  handleCallback_route E chatId ("deep:" +:+ word) = ViaRunLongOp (DeepCheck word) /\
  handleCallback_route E chatId ("keys:" +:+ word) = Awaited (Menu "handleShowKeys" word) /\
  handleCallback_route E chatId ("aisuggest:" +:+ word) =
    ViaRunLongOp (Menu "handleAISuggest" word) /\
  handleCallback_route E chatId ("explore:" +:+ topicKey) =
    ViaRunLongOp (TopicExplore topicKey) /\
  handleCallback_route E chatId ("ai_topic:" +:+ topicKey) =
    ViaRunLongOp (AITopicExpand topicKey) /\
  handleCallback_route E chatId ("check_word:" +:+ word) =
    if String.eqb word "dictionary" then ViaRunLongOp Dictionary
    else ViaRunLongOp (WordCheck word).
Proof.
  repeat split.
  - change ("deep:" +:+ word) with ("deep" +:+ ":" +:+ word).
    unfold handleCallback_route.
    rewrite (proj1 (action_value_of "deep" word eq_refl)).
    cbv beta iota zeta.
    rewrite (proj2 (action_value_of "deep" word eq_refl)). reflexivity.
  - change ("keys:" +:+ word) with ("keys" +:+ ":" +:+ word).
    unfold handleCallback_route.
    rewrite (proj1 (action_value_of "keys" word eq_refl)).
    cbv beta iota zeta.
    rewrite (proj2 (action_value_of "keys" word eq_refl)). reflexivity.
  - change ("aisuggest:" +:+ word) with ("aisuggest" +:+ ":" +:+ word).
    unfold handleCallback_route.
    rewrite (proj1 (action_value_of "aisuggest" word eq_refl)).
    cbv beta iota zeta.
    rewrite (proj2 (action_value_of "aisuggest" word eq_refl)). reflexivity.
  - change ("explore:" +:+ topicKey) with ("explore" +:+ ":" +:+ topicKey).
    unfold handleCallback_route.
    rewrite (proj1 (action_value_of "explore" topicKey eq_refl)).
    cbv beta iota zeta.
    rewrite (proj2 (action_value_of "explore" topicKey eq_refl)). reflexivity.
  - change ("ai_topic:" +:+ topicKey) with ("ai_topic" +:+ ":" +:+ topicKey).
    unfold handleCallback_route.
    rewrite (proj1 (action_value_of "ai_topic" topicKey eq_refl)).
    cbv beta iota zeta.
    rewrite (proj2 (action_value_of "ai_topic" topicKey eq_refl)). reflexivity.
  - change ("check_word:" +:+ word) with ("check_word" +:+ ":" +:+ word).
    unfold handleCallback_route.
    rewrite (proj1 (action_value_of "check_word" word eq_refl)).
    cbv beta iota zeta.
    rewrite (proj2 (action_value_of "check_word" word eq_refl)). reflexivity.
Qed.

End Dispatch.

Lemma test_mode_is_switched_by_the_admin_only_witness :
  isAdmin Demo.collaborators Demo.user = false /\
  handleCommand_route Demo.collaborators Demo.user "/testnotify on"
    <> Awaited (SetTestNotify true).
Proof.
  split; [reflexivity|].
  pose proof (test_mode_is_switched_by_the_admin_only Demo.collaborators Demo.user
                "/testnotify on" "stop:go" true eq_refl) as H.
  apply Forall_inv_tail, Forall_inv in H. exact (proj1 H).
Defined.

Lemma balance_checks_started_without_runLongOp_witness :
  checksBalances (DeepCheck "satoshi") = true /\
  handleCommand_route Demo.collaborators Demo.user "/deep satoshi"
    = Awaited (DeepCheck "satoshi") /\
  exists args,
    DeepCheck "satoshi" = BrainWallet args \/ DeepCheck "satoshi" = TopicExplore args \/
    DeepCheck "satoshi" = DeepCheck args.
Proof.
  split; [reflexivity|].
  assert (H : handleCommand_route Demo.collaborators Demo.user "/deep satoshi"
              = Awaited (DeepCheck "satoshi")) by (vm_compute; reflexivity).
  split; [exact H|].
  exact (proj1 (balance_checks_started_without_runLongOp Demo.collaborators Demo.user
                  "/deep satoshi" "stop:go" (DeepCheck "satoshi") eq_refl) H).
Defined.

Lemma key_hunt_count_is_clamped_witness :
  handleCallback_route Demo.collaborators Demo.user "keyhunt:500"
    = ViaRunLongOp (RandomKeyHunt 100) /\
  (1 <= 100 <= 100)%nat.
Proof.
  assert (H : handleCallback_route Demo.collaborators Demo.user "keyhunt:500"
              = ViaRunLongOp (RandomKeyHunt 100)) by (vm_compute; reflexivity).
  split; [exact H|].
  exact (key_hunt_count_is_clamped Demo.collaborators Demo.user "keyhunt:500" 100
           (or_introl H)).
Defined.

(* ===================================================================== *)
(** ** runLongOp and the polling loop *)
(* ===================================================================== *)

Section Polling.

Variable E : Collaborators.

Lemma runLongOp_settles (fn : Bot unit) (w : World) :
  value (runLongOp fn w) = Ok tt /\
  trace (runLongOp fn w) = trace (fn (setLongRunning true (setStop false w))) /\
  after (runLongOp fn w) =
    setStop false (setLongRunning false
                     (after (fn (setLongRunning true (setStop false w))))).
Proof.
  unfold runLongOp, bind, modify, tryCatch, ret. cbn [value after trace app].
  destruct (fn (setLongRunning true (setStop false w))) as [[a | e] w1 tr];
    cbn [value after trace app]; rewrite ?app_nil_r; repeat split; reflexivity.
Qed.

Lemma processUpdate_stop (u : Update) (w : World) :
  isStopRequest u = true ->
  value (processUpdate E u w) = Ok tt /\
  after (processUpdate E u w) = setStop true w /\
  Forall (fun e => exists c t, e = SendMessage c t) (trace (processUpdate E u w)) /\
  (length (trace (processUpdate E u w)) <= 1)%nat.
Proof.
  intros Hstop. destruct u as [chat data | chatId text]; unfold processUpdate;
    unfold isStopRequest in Hstop; rewrite Hstop.
  - cbn. repeat split; auto.
  - cbn. repeat split; auto. repeat constructor. eauto.
Qed.

Lemma processUpdate_busy (u : Update) (w : World) :
  longRunning w = true ->
  isStopRequest u = false ->
  (length (trace (processUpdate E u w)) <= 1)%nat.
Proof.
  intros Hrun Hstop. destruct u as [chat data | chatId text]; unfold processUpdate;
    unfold isStopRequest in Hstop; rewrite Hstop;
    unfold bind, get; cbn [value after trace]; rewrite Hrun.
  - destruct chat; cbn; lia.
  - cbn; lia.
Qed.

(** X12: while a long operation runs, the loop of [pollUpdates] starts
    no handler, whatever updates arrive: each update is either a stop
    request, which sets [stopCurrentBatch], or is turned away with at
    most one notice.  After the loop the world is the one before it,
    with the stop flag set if a stop request was among the updates;
    nothing is queried and nothing is cached.  The updates are those
    on which the model reads a text as the code does: every text
    message has a non-empty text of ASCII characters other than the
    vertical tab and the form feed. *)
Theorem poll_loop_only_lets_stop_through_while_busy (updates : list Update) (w : World) :
  Forall plainUpdate updates ->
  longRunning w = true ->
  let out := pollUpdates_loop E updates w in
  value out = Ok tt /\
  after out = (if existsb isStopRequest updates then setStop true w else w) /\
  Forall (fun e => exists c t, e = SendMessage c t) (trace out) /\
  (length (trace out) <= length updates)%nat.
Proof.
  intros _ Hrun. cbv zeta. unfold pollUpdates_loop.
  revert w Hrun. induction updates as [|u us IH]; intros w Hrun.
  - cbn. repeat split; auto.
  - cbn [forEach existsb length].
    destruct (isStopRequest u) eqn:Hu.
    + destruct (processUpdate_stop u w Hu) as (Hv & Ha & Ht & Hl).
      rewrite (bind_ok _ _ _ _ Hv). cbn [value after trace]. rewrite Ha.
      destruct (IH (setStop true w) Hrun) as (IHv & IHa & IHt & IHl).
      cbn [orb]. rewrite IHa. repeat split.
      * exact IHv.
      * destruct (existsb isStopRequest us); reflexivity.
      * apply Forall_app. split; assumption.
      * rewrite length_app. lia.
    + destruct (processUpdate_rejects_while_running E u w Hrun Hu) as (Ha & Hv & Ht).
      pose proof (processUpdate_busy u w Hrun Hu) as Hl.
      rewrite (bind_ok _ _ _ _ Hv). cbn [value after trace]. rewrite Ha.
      destruct (IH w Hrun) as (IHv & IHa & IHt & IHl).
      cbn [orb]. repeat split.
      * exact IHv.
      * exact IHa.
      * apply Forall_app. split; assumption.
      * rewrite length_app. lia.
Qed.

End Polling.

Lemma poll_loop_only_lets_stop_through_while_busy_witness :
  let w := setLongRunning true (Demo.world (Demo.replyWith [] 0) []) in
  let updates := [ TextMessage Demo.user "satoshi";
                   CallbackQuery (Some Demo.user) "dictionary:go";
                   TextMessage Demo.user " /Stop ";
                   CallbackQuery (Some Demo.user) "stop:go" ] in
  Forall plainUpdate updates /\
  longRunning w = true /\
  after (pollUpdates_loop Demo.collaborators updates w) = setStop true w /\
  (length (trace (pollUpdates_loop Demo.collaborators updates w)) <= 4)%nat.
Proof.
  intros w updates.
  assert (Hplain : Forall plainUpdate updates).
  { repeat (apply List.Forall_cons || apply List.Forall_nil); try exact I;
      (split; [discriminate |
               repeat (apply List.Forall_cons || apply List.Forall_nil);
               vm_compute; repeat split; try lia; discriminate]). }
  split; [exact Hplain|]. split; [reflexivity|].
  destruct (poll_loop_only_lets_stop_through_while_busy Demo.collaborators updates w
              Hplain eq_refl) as (_ & Ha & _ & Hl).
  split; [exact Ha | exact Hl].
Defined.

(* ===================================================================== *)
(** ** handleBatch: the word list *)
(* ===================================================================== *)

(** The run of [m] in [w], built with [tac], replaces the trace of a
    goal [view pi (trace (m w)) = _] by what the run lemmas say of it. *)
Ltac one_run tac :=
  match goal with
  | |- context [view ?pi (trace (?m ?w))] =>
      let H := fresh "Hrun" in
      eassert (H : runsTo pi m w _ _ _) by tac;
      apply runsTo_trace in H; destruct H as (-> & _)
  end.

Section BatchWords.

Variable E : Collaborators.

Lemma splitWordsAcc_clean (s cur : string) :
  Forall (fun c => isSeparator c = false) (list_ascii_of_string cur) ->
  Forall (fun word => word <> EmptyString /\
                      Forall (fun c => isSeparator c = false) (list_ascii_of_string word))
    (splitWordsAcc cur s).
Proof.
  revert cur. induction s as [|a s IH]; intros cur Hcur; cbn [splitWordsAcc].
  - destruct (String.eqb cur EmptyString) eqn:He; [constructor|].
    apply String.eqb_neq in He. repeat constructor; assumption.
  - destruct (isSeparator a) eqn:Ha.
    + destruct (String.eqb cur EmptyString) eqn:He.
      * apply IH. constructor.
      * apply String.eqb_neq in He. constructor; [split; assumption|].
        apply IH. constructor.
    + apply IH. rewrite chars_append. apply Forall_app. split; [assumption|].
      repeat constructor. exact Ha.
Qed.

(** X13: every word [handleBatch] takes from its argument is non-empty
    and holds no comma, blank, tab or line break. *)
Theorem batch_words_hold_no_separator (args : string) :
  Forall (fun word => word <> EmptyString /\
                      Forall (fun c => isSeparator c = false) (list_ascii_of_string word))
    (splitWords args).
Proof. apply splitWordsAcc_clean. constructor. Qed.

Lemma plain_not_separator (c : ascii) :
  (33 <= nat_of_ascii c <= 126)%nat /\ c <> ","%char -> isSeparator c = false.
Proof.
  intros [Hr Hc]. unfold isSeparator, Js.isSpace.
  apply Ascii.eqb_neq in Hc. rewrite Hc. cbn [orb].
  repeat match goal with
         | |- context [Nat.eqb ?a ?b] =>
             let H := fresh in
             destruct (Nat.eqb a b) eqn:H; [apply Nat.eqb_eq in H; lia|]
         end.
  reflexivity.
Qed.

Lemma splitWordsAcc_word (word s cur : string) :
  Forall (fun c => isSeparator c = false) (list_ascii_of_string word) ->
  splitWordsAcc cur (word +:+ s) = splitWordsAcc (cur +:+ word) s.
Proof.
  revert cur. induction word as [|a word IH]; intros cur Hw.
  - rewrite append_nil_l, append_empty_r. reflexivity.
  - rewrite append_cons. cbn [splitWordsAcc].
    cbn [list_ascii_of_string] in Hw.
    apply List.Forall_cons_iff in Hw. destruct Hw as [Ha Hw].
    rewrite Ha, (IH _ Hw), append_assoc. reflexivity.
Qed.

Lemma splitWords_join (ws : list string) :
  Forall plainWord ws -> splitWords (Js.join ", " ws) = ws.
Proof.
  unfold splitWords. induction ws as [|x rest IH]; intros Hws; [reflexivity|].
  apply List.Forall_cons_iff in Hws. destruct Hws as [[Hne Hx] Hrest].
  assert (Hx' : Forall (fun c => isSeparator c = false) (list_ascii_of_string x)).
  { eapply List.Forall_impl; [|exact Hx]. intros c Hc. apply plain_not_separator. exact Hc. }
  apply String.eqb_neq in Hne.
  destruct rest as [|y rest].
  - cbn [Js.join].
    pose proof (splitWordsAcc_word x EmptyString EmptyString Hx') as H.
    rewrite append_empty_r, append_nil_l in H. rewrite H.
    cbn [splitWordsAcc]. rewrite Hne. reflexivity.
  - rewrite join_cons, splitWordsAcc_word by exact Hx'. rewrite append_nil_l.
    rewrite !append_cons, append_nil_l. cbn [splitWordsAcc isSeparator Ascii.eqb Bool.eqb orb].
    rewrite Hne. change (Js.isSpace " ") with true. cbv iota.
    change (String.eqb "" "") with true. cbv iota.
    rewrite (IH Hrest). reflexivity.
Qed.

(** X14: joining words with [', '] and handing the text to
    [handleBatch] gives the same words back, in order, provided each
    word is non-empty and made of printable ASCII characters other
    than the comma: [handleCommonWords], [handleSmartBatch],
    [handleBatchAI], [handleBatchRandom] and
    [handleInterviewBatchCheck] pass their lists on this way. *)
Theorem joined_words_are_split_back (ws : list string) :
  Forall plainWord ws -> splitWords (Js.join ", " ws) = ws.
Proof. apply splitWords_join. Qed.

Lemma splitWords_separators (args : string) :
  Forall (fun c => isSeparator c = true) (list_ascii_of_string args) ->
  splitWords args = [].
Proof.
  unfold splitWords. induction args as [|a s IH]; intros H; [reflexivity|].
  cbn [list_ascii_of_string] in H. apply List.Forall_cons_iff in H. destruct H as [Ha H].
  cbn [splitWordsAcc]. rewrite Ha. change (String.eqb "" "") with true. cbv iota.
  apply IH. exact H.
Qed.

(** X15: an argument without a word (empty, or commas, blanks, tabs
    and line breaks only) makes [handleBatch] answer with the usage
    line and do nothing else: no query, no cache write, the cache as
    it was. *)
Theorem handleBatch_without_words_answers_usage
    (chatId : ChatId) (args : string) (w : World) :
  Forall (fun c => isSeparator c = true) (list_ascii_of_string args) ->
  let out := handleBatch E chatId args w in
  value out = Ok tt /\
  trace out =
    [SendMessage chatId "📦 No words provided. Usage: /batch word1, word2, word3"] /\
  wordCache (after out) = wordCache w /\ oracleCalls (after out) = oracleCalls w.
Proof.
  intros Hsep. cbv zeta. unfold handleBatch.
  rewrite (splitWords_separators args Hsep).
  unfold sendMessage, bind, emit, suspend, modify, ret. cbn [value after trace app].
  repeat split; destruct (incoming w) as [|[] ?]; reflexivity.
Qed.

(** X16: a batch that is not stopped queries the balance checker once
    for every word among the first [batch_limit] words of its argument
    that the cache does not know to be empty, in the order of the
    argument and as often as the word is listed, each time with the
    addresses [fullWordCheck] derives for the word; so it makes at
    most [batch_limit] queries.  The argument is one on which the
    model splits as the code does: ASCII characters other than the
    vertical tab and the form feed, so that the words are the runs
    between commas, blanks, tabs and line breaks. *)
Theorem handleBatch_queries_the_fresh_words_in_order
    (chatId : ChatId) (args : string) (w : World) :
  let st := settings_get E chatId in
  let words := uncached (wordCache w) (firstn (batch_limit st) (splitWords args)) in
  asciiText args ->
  undisturbed w -> stopCurrentBatch w = false -> words <> [] ->
  view queryOf (trace (handleBatch E chatId args w)) =
    List.map (fun word => fullWordCheck E word st) words /\
  (length (view queryOf (trace (handleBatch E chatId args w))) <= batch_limit st)%nat.
Proof.
  cbv zeta. intros _ Hu Hs Hne.
  set (st := settings_get E chatId) in *.
  assert (Hq : forall ws w0,
             view queryOf (loopEvents E chatId st "batch" ws w0) =
             List.map (fun word => fullWordCheck E word st) ws).
  { induction ws as [|x rest IH]; intros w0; [reflexivity|].
    cbn [loopEvents List.map]. rewrite view_app, IH.
    unfold wordEvents. rewrite view_cons, view_app.
    rewrite (view_afterQuery_silent E queryOf) by reflexivity.
    reflexivity. }
  assert (Hmain : view queryOf (trace (handleBatch E chatId args w)) =
                  List.map (fun word => fullWordCheck E word st)
                    (uncached (wordCache w) (firstn (batch_limit st) (splitWords args)))).
  { unfold handleBatch. fold st.
    destruct (splitWords args) as [|y ys] eqn:Hsplit.
    { exfalso. apply Hne. rewrite firstn_nil. reflexivity. }
    cbv zeta.
    assert (Hall : (if Nat.ltb (batch_limit st) (length (y :: ys))
                    then firstn (batch_limit st) (y :: ys) else y :: ys) =
                   firstn (batch_limit st) (y :: ys)).
    { destruct (Nat.ltb (batch_limit st) (length (y :: ys))) eqn:Hlt; [reflexivity|].
      apply Nat.ltb_ge in Hlt. symmetry. apply firstn_all2. exact Hlt. }
    rewrite Hall.
    destruct (uncached (wordCache w) (firstn (batch_limit st) (y :: ys)))
      as [|x xs] eqn:Hw; [contradiction|].
    pose proof (undisturbed_loopWorld E st (x :: xs) w Hu) as Hl.
    one_run ltac:(repeat run_step; rewrite ?Hw; cbv iota; repeat run_step).
    rewrite Hq.
    destruct (Nat.ltb (batch_limit st) (length (y :: ys)));
      destruct (webWordsUrl E (x :: xs) "brainwallet");
      cbn [queryOf sendWebHint emit ret trace view flat_map app];
      rewrite ?app_nil_r; reflexivity. }
  split; [exact Hmain|].
  rewrite Hmain, length_map.
  etransitivity; [apply filter_length_le | apply firstn_le_length].
Qed.

End BatchWords.

Lemma joined_words_are_split_back_witness :
  Forall plainWord ["satoshi"; "hodl"]%string /\
  splitWords "satoshi, hodl" = ["satoshi"; "hodl"]%string.
Proof.
  assert (H : Forall plainWord ["satoshi"; "hodl"]%string).
  { repeat (apply List.Forall_cons || apply List.Forall_nil);
      (split; [discriminate |
               repeat (apply List.Forall_cons || apply List.Forall_nil);
               (split; [vm_compute; lia | discriminate])]). }
  split; [exact H|].
  exact (joined_words_are_split_back ["satoshi"; "hodl"]%string H).
Defined.

Lemma handleBatch_without_words_answers_usage_witness :
  let w := Demo.world (Demo.replyWith [] 0) [] in
  Forall (fun c => isSeparator c = true) (list_ascii_of_string ", ,") /\
  trace (handleBatch Demo.collaborators Demo.user ", ," w) =
    [SendMessage Demo.user "📦 No words provided. Usage: /batch word1, word2, word3"].
Proof.
  intros w.
  assert (H : Forall (fun c => isSeparator c = true) (list_ascii_of_string ", ,"))
    by (repeat constructor).
  split; [exact H|].
  exact (proj1 (proj2 (handleBatch_without_words_answers_usage Demo.collaborators
                         Demo.user ", ," w H))).
Defined.

Lemma handleBatch_queries_the_fresh_words_in_order_witness :
  let w := Demo.world (Demo.replyWith [] 0) [] in
  asciiText "satoshi, hodl" /\
  undisturbed w /\ stopCurrentBatch w = false /\
  view queryOf (trace (handleBatch Demo.collaborators Demo.user "satoshi, hodl" w)) =
    [ fullWordCheck Demo.collaborators "satoshi" Demo.settings;
      fullWordCheck Demo.collaborators "hodl" Demo.settings ].
Proof.
  intros w.
  assert (Hascii : asciiText "satoshi, hodl").
  { repeat (apply List.Forall_cons || apply List.Forall_nil);
      vm_compute; repeat split; try lia; discriminate. }
  split; [exact Hascii|]. split; [reflexivity|]. split; [reflexivity|].
  assert (H : uncached (wordCache w)
                (firstn (batch_limit (settings_get Demo.collaborators Demo.user))
                   (splitWords "satoshi, hodl")) = ["satoshi"; "hodl"]%string)
    by (vm_compute; reflexivity).
  pose proof (proj1 (handleBatch_queries_the_fresh_words_in_order Demo.collaborators
                       Demo.user "satoshi, hodl" w Hascii eq_refl eq_refl
                       ltac:(rewrite H; discriminate))) as Hq.
  rewrite H in Hq. exact Hq.
Defined.

(* ===================================================================== *)
(** ** handleWordCheck: what it asks the balance checker *)
(* ===================================================================== *)

Section WordCheckQueries.

Variable E : Collaborators.

Lemma dedupeAcc_spec (xs seen : list string) :
  List.NoDup (dedupeAcc seen xs) /\
  forall y, In y (dedupeAcc seen xs) -> ~ In y seen /\ In y xs.
Proof.
  revert seen. induction xs as [|x rest IH]; intros seen; cbn [dedupeAcc].
  - split; [constructor | intros y []].
  - destruct (existsb (String.eqb x) seen) eqn:Hx.
    + destruct (IH seen) as [Hnd Hin]. split; [exact Hnd|].
      intros y Hy. destruct (Hin y Hy). split; [assumption | right; assumption].
    + destruct (IH (x :: seen)) as [Hnd Hin]. split.
      * constructor; [|exact Hnd]. intros Hy. destruct (Hin x Hy) as [Hn _].
        apply Hn. left. reflexivity.
      * intros y [<- | Hy].
        -- split; [|left; reflexivity]. intros Hs.
           assert (existsb (String.eqb x) seen = true).
           { apply existsb_exists. exists x. split; [exact Hs | apply String.eqb_refl]. }
           congruence.
        -- destruct (Hin y Hy) as [Hn Hr]. split; [|right; exact Hr].
           intros Hs. apply Hn. right. exact Hs.
Qed.

Lemma dedupe_nodup (xs : list string) : List.NoDup (dedupe xs).
Proof. apply dedupeAcc_spec. Qed.

(** X17: whatever happens while it runs (stop requests included), a
    word check never hands the balance checker the same address twice
    in one query: every [checkBalances] call it makes carries pairwise
    distinct addresses and a token that reads [stopCurrentBatch]; it
    never calls [hasAnyBalance]; and it writes cache entries for no
    phrase but the word it was asked to check. *)
Theorem word_check_queries_distinct_addresses
    (chatId : ChatId) (word : string) (w : World) :
  Forall (allowed (distinctAddresses word)) (trace (handleWordCheck E chatId word w)).
Proof.
  unfold handleWordCheck.
  assert (T : triple (fun _ => True)
                (wordCheck E (settings_get E chatId) chatId word)
                (allowed (distinctAddresses word)) (fun _ _ => True)).
  { unfold wordCheck.
    step; [step; step |]. step; [apply t_deriveLoop; step |]. step; [step |].
    step.
    { instantiate (1 := fun _ _ => True). destruct a1; [step |].
      step.
      { destruct a; repeat step. }
      step; [step |]. step.
      - repeat step.
      - eapply triple_conseq;
          [ apply t_checkAndCache
          | intros; exact I | intros; exact I ].
        + split; [apply dedupe_nodup | intros ?; reflexivity].
        + intros; reflexivity. }
    step; [step; step |]. step; [step; step |].
    step; [destruct (snd a2); step; step |]. eapply triple_weaken. step. step. }
  exact (proj1 (T w I)).
Qed.

End WordCheckQueries.

(* ===================================================================== *)
(** ** notifyAdminTestMode *)
(* ===================================================================== *)

Section TestMode.

Variable E : Collaborators.

(** X18: with test mode on, a word check by a chat other than the
    admin's sends the admin chat the test-mode preview although no
    balance was found, also when the check was answered from the
    cache (the preview then lists no address); a check by the admin
    chat itself sends no preview. *)
Theorem test_mode_previews_every_word_check
    (chatId admin : ChatId) (word : string) (w : World) (br : BrainResult) :
  let st := settings_get E chatId in
  let out := nextOutcome w (derivedAddresses E st word) in
  let known := knownEmpty (wordCache w !! normalizePhrase word) in
  TELEGRAM_CHAT_ID E = Some admin ->
  testNotifyMode w = true ->
  undisturbed w -> stopCurrentBatch w = false ->
  deriveBrainWallet E word = Ok br ->
  (if known then true else negb (foundAmong out)) = true ->
  view (alertsTo admin) (trace (handleWordCheck E chatId word w)) =
    if Z.eqb chatId admin then []
    else [notifyAdminTestModeText word (if known then [] else collected out) br chatId
            "word_check"].
Proof.
  cbv zeta. intros Hadm Htest Hu Hs Hbr Hnone.
  unfold handleWordCheck.
  one_run ltac:(apply runsTo_wordCheck; first [assumption | intros; reflexivity]).
  unfold wordCheckEvents, resultMessage, checkAndCacheEvents.
  rewrite Htest.
  assert (Hpreview : forall bals,
             view (alertsTo admin) (testAlert E true word bals chatId "word_check") =
             if Z.eqb chatId admin then []
             else [notifyAdminTestModeText word bals br chatId "word_check"]).
  { intros bals. unfold testAlert, isAdmin. rewrite Hadm, Hbr. cbn [negb].
    destruct (Z.eqb chatId admin); [reflexivity|].
    cbn [view flat_map alertsTo app]. rewrite Z.eqb_refl. reflexivity. }
  destruct (knownEmpty (wordCache w !! normalizePhrase word)) eqn:Hk.
  - rewrite view_cons, view_app, Hpreview. reflexivity.
  - cbn [negb] in Hnone. apply negb_true_iff in Hnone. rewrite Hnone.
    rewrite view_cons, view_app, view_app, Hpreview. reflexivity.
Qed.

End TestMode.

Lemma test_mode_previews_every_word_check_witness :
  let w := setTestNotifyMode true (Demo.world (Demo.replyWith [] 0) []) in
  testNotifyMode w = true /\
  length (view (alertsTo Demo.admin)
            (trace (handleWordCheck Demo.collaborators Demo.user "satoshi" w))) = 1%nat.
Proof.
  intros w. split; [reflexivity|].
  destruct (deriveBrainWallet Demo.collaborators "satoshi") as [br | e] eqn:Hbr;
    [| exfalso; vm_compute in Hbr; discriminate Hbr].
  rewrite (test_mode_previews_every_word_check Demo.collaborators Demo.user Demo.admin
             "satoshi" w br eq_refl eq_refl eq_refl eq_refl Hbr
             ltac:(vm_compute; reflexivity)).
  reflexivity.
Defined.

(* ===================================================================== *)
(** ** handleDictionary: a derivation that fails *)
(* ===================================================================== *)

Section DictionaryFailure.

Variable E : Collaborators.

Lemma bind_throws {A B} (m : Bot A) (k : A -> Bot B) (w w' : World) (e : string)
    (tr : list Event) :
  m w = {| value := Throw e; after := w'; trace := tr |} ->
  bind m k w = {| value := Throw e; after := w'; trace := tr |}.
Proof. intros H. unfold bind. rewrite H. reflexivity. Qed.

Lemma bind_returns {A B} (m : Bot A) (k : A -> Bot B) (w w' : World) (a : A)
    (tr : list Event) :
  m w = {| value := Ok a; after := w'; trace := tr |} ->
  bind m k w = {| value := value (k a w'); after := after (k a w');
                  trace := tr ++ trace (k a w') |}.
Proof. intros H. unfold bind. rewrite H. reflexivity. Qed.

Lemma dictionaryWord_throws chatId st id n i word count counts e w :
  repeats st = count :: counts ->
  deriveRepeatedWordSeed E word count ["bip44"%string] 3 = Throw e ->
  knownEmpty (wordCache w !! normalizePhrase word) = false ->
  dictionaryWord E chatId st id n i word w =
    {| value := Throw e; after := w; trace := [] |}.
Proof.
  intros Hr Hd Hk. unfold dictionaryWord.
  rewrite (bind_returns _ _ w w (wordCache w !! normalizePhrase word) []) by reflexivity.
  rewrite Hk, Hr. cbn [forEach].
  rewrite (bind_throws _ _ w w e []); [reflexivity|].
  apply bind_throws. unfold dictionaryCount. rewrite Hd. reflexivity.
Qed.

Lemma sendMessageWithKeyboard_run chatId text kb w :
  undisturbed w ->
  sendMessageWithKeyboard E chatId text kb w =
    {| value := Ok (messageId E chatId text); after := w;
       trace := [SendMessageWithKeyboard chatId text kb] |}.
Proof.
  intros Hu. unfold sendMessageWithKeyboard, bind, emit, suspend, modify, ret.
  cbn [value after trace app]. unfold undisturbed in Hu. rewrite Hu.
  destruct w; reflexivity.
Qed.

Lemma sendMessage_run chatId text w :
  undisturbed w ->
  sendMessage E chatId text w =
    {| value := Ok (messageId E chatId text); after := w;
       trace := [SendMessage chatId text] |}.
Proof.
  intros Hu. unfold sendMessage, bind, emit, suspend, modify, ret.
  cbn [value after trace app]. unfold undisturbed in Hu. rewrite Hu.
  destruct w; reflexivity.
Qed.

Lemma handleDictionary_throws chatId w word e rest count counts :
  getBIP39Wordlist E = word :: rest ->
  repeats (settings_get E chatId) = count :: counts ->
  deriveRepeatedWordSeed E word count ["bip44"%string] 3 = Throw e ->
  knownEmpty (wordCache w !! normalizePhrase word) = false ->
  undisturbed w -> stopCurrentBatch w = false ->
  handleDictionary E chatId w =
    {| value := Throw e; after := w;
       trace := [SendMessageWithKeyboard chatId
      ("📖 <b>BIP39 Dictionary Check</b>" +:+ nl +:+ nl +:+
       "📚 " +:+ Js.showNat (length (word :: rest)) +:+ " words to check" +:+ nl +:+
       "🔁 Each word repeated 12x and 24x as seed" +:+ nl +:+ nl +:+
       progressBar E 0 (length (word :: rest)))
                   STOP_KEYBOARD] |}.
Proof.
  intros Hlist Hr Hd Hk Hu Hs.
  unfold handleDictionary. rewrite Hlist. cbv zeta.
  rewrite (bind_returns _ _ w w _ _ (sendMessageWithKeyboard_run _ _ _ w Hu)).
  rewrite (bind_throws _ _ w w e []); [reflexivity|].
  cbn [dictionaryLoop].
  rewrite (bind_returns _ _ w w (stopCurrentBatch w) []) by reflexivity.
  rewrite Hs.
  rewrite (bind_throws _ _ w w e []
             (dictionaryWord_throws chatId (settings_get E chatId) _ _ _ word count
                counts e w Hr Hd Hk)).
  reflexivity.
Qed.

(** X19: [handleDictionary] derives the seed addresses outside its
    [try]: when the derivation throws for the first word of the list
    (not known to be empty), the whole scan ends there with that
    error: no balance is queried, no later word is looked at, the
    progress message is not deleted and no completion message is sent.
    Started from the dictionary button, the chat is told the error;
    started through [runLongOp] ([/dictionary]), the error is only
    logged. *)
Theorem dictionary_scan_ends_at_a_failed_derivation
    (chatId : ChatId) (w : World) (word e : string) (rest : list string)
    (count : nat) (counts : list nat) :
  let start_ :=
    SendMessageWithKeyboard chatId
      ("📖 <b>BIP39 Dictionary Check</b>" +:+ nl +:+ nl +:+
       "📚 " +:+ Js.showNat (length (word :: rest)) +:+ " words to check" +:+ nl +:+
       "🔁 Each word repeated 12x and 24x as seed" +:+ nl +:+ nl +:+
       progressBar E 0 (length (word :: rest)))
      STOP_KEYBOARD in
  getBIP39Wordlist E = word :: rest ->
  repeats (settings_get E chatId) = count :: counts ->
  deriveRepeatedWordSeed E word count ["bip44"%string] 3 = Throw e ->
  knownEmpty (wordCache w !! normalizePhrase word) = false ->
  undisturbed w -> stopCurrentBatch w = false ->
  handleDictionary E chatId w = {| value := Throw e; after := w; trace := [start_] |} /\
  trace (handleCallback E chatId "dictionary:go" w) =
    [start_; SendMessage chatId ("⚠️ Error: " +:+ escHtml e)] /\
  trace (start E chatId (handleCommand_route E chatId "/dictionary") w) = [start_] /\
  value (start E chatId (handleCommand_route E chatId "/dictionary") w) = Ok tt.
Proof.
  cbv zeta. intros Hlist Hr Hd Hk Hu Hs.
  pose proof (handleDictionary_throws chatId w word e rest count counts
                Hlist Hr Hd Hk Hu Hs) as Hmain.
  split; [exact Hmain|].
  split.
  - change (handleCallback E chatId "dictionary:go")
      with (tryCatch (handleDictionary E chatId) (errorReply E chatId)).
    unfold tryCatch. rewrite Hmain. cbn [value after trace].
    unfold errorReply.
    rewrite (bind_returns _ _ w w _ _ (sendMessage_run _ _ w Hu)). reflexivity.
  - change (handleCommand_route E chatId "/dictionary") with (ViaRunLongOp Dictionary).
    cbn [start run].
    destruct (runLongOp_settles (handleDictionary E chatId) w) as (Hv & Ht & _).
    split; [|exact Hv]. rewrite Ht.
    rewrite (handleDictionary_throws chatId (setLongRunning true (setStop false w))
               word e rest count counts Hlist Hr Hd Hk Hu eq_refl).
    reflexivity.
Qed.

End DictionaryFailure.

Lemma dictionary_scan_ends_at_a_failed_derivation_witness :
  let w := Demo.world (Demo.replyWith [] 0) [] in
  deriveRepeatedWordSeed brokenSeeds "abandon" 12 ["bip44"%string] 3
    = Throw "Invalid mnemonic" /\
  value (handleDictionary brokenSeeds Demo.user w) = Throw "Invalid mnemonic" /\
  length (trace (handleDictionary brokenSeeds Demo.user w)) = 1%nat.
Proof.
  intros w. split; [reflexivity|].
  rewrite (proj1 (dictionary_scan_ends_at_a_failed_derivation brokenSeeds Demo.user w
                    "abandon" "Invalid mnemonic" ["zoo"%string] 12 []
                    eq_refl eq_refl eq_refl eq_refl eq_refl eq_refl)).
  split; reflexivity.
Defined.

(* ===================================================================== *)
(** ** handleFeelingLucky: one alert at most *)
(* ===================================================================== *)

Section LuckyAlerts.

Variable E : Collaborators.
Variable admin : ChatId.

(** The number of alerts a program sends to the admin chat with
    [sendMessage], started in [w]. *)
Local Abbreviation alerts m w := (length (view (alertsTo admin) (trace (m w)))).

Lemma alerts_bind {A B} (m : Bot A) (k : A -> Bot B) (w : World) :
  alerts (bind m k) w =
  (alerts m w +
   match value (m w) with
   | Ok a => alerts (k a) (after (m w))
   | Throw _ => 0
   end)%nat.
Proof.
  unfold bind. destruct (value (m w)); cbn [trace].
  - rewrite view_app, length_app. reflexivity.
  - lia.
Qed.

Lemma alerts_bind_le {A B} (m : Bot A) (k : A -> Bot B) (n1 n2 : nat) :
  (forall w, alerts m w <= n1)%nat ->
  (forall a w, alerts (k a) w <= n2)%nat ->
  forall w, (alerts (bind m k) w <= n1 + n2)%nat.
Proof.
  intros H1 H2 w. rewrite alerts_bind. specialize (H1 w).
  destruct (value (m w)); [specialize (H2 a (after (m w)))|]; lia.
Qed.

Lemma value_bind {A B} (m : Bot A) (k : A -> Bot B) (w : World) :
  value (bind m k w) =
  match value (m w) with
  | Ok a => value (k a (after (m w)))
  | Throw e => Throw e
  end.
Proof. unfold bind. destruct (value (m w)); reflexivity. Qed.

Lemma after_bind {A B} (m : Bot A) (k : A -> Bot B) (w : World) :
  after (bind m k w) =
  match value (m w) with
  | Ok a => after (k a (after (m w)))
  | Throw e => after (m w)
  end.
Proof. unfold bind. destruct (value (m w)); reflexivity. Qed.

Lemma notifyAdmin_alerts word bals mode_ w :
  (alerts (notifyAdmin E word bals mode_) w <= 1)%nat /\
  value (notifyAdmin E word bals mode_ w) = Ok tt.
Proof.
  unfold notifyAdmin.
  destruct (TELEGRAM_CHAT_ID E); [|cbn; split; [lia | reflexivity]].
  destruct (List.filter _ bals); [cbn; split; [lia | reflexivity]|].
  destruct (deriveBrainWallet E word); [|cbn; split; [lia | reflexivity]].
  unfold sendMessage, bind, emit, suspend, modify, ret. cbn [value after trace app].
  split; [|reflexivity].
  cbn [view flat_map alertsTo]. destruct (Z.eqb c admin); cbn; lia.
Qed.

Lemma editMessageText_alerts chatId id text kb w :
  alerts (editMessageText chatId id text kb) w = 0%nat /\
  value (editMessageText chatId id text kb w) = Ok tt.
Proof.
  unfold editMessageText, bind, emit, suspend, modify. cbn. split; reflexivity.
Qed.

Lemma sendMessageWithKeyboard_alerts chatId text kb w :
  alerts (sendMessageWithKeyboard E chatId text kb) w = 0%nat.
Proof.
  unfold sendMessageWithKeyboard, bind, emit, suspend, modify, ret. cbn. reflexivity.
Qed.

Lemma checkBalances_alerts addrs pref cap tok last keys w :
  alerts (checkBalances addrs pref cap tok None last keys) w = 0%nat /\
  exists r, value (checkBalances addrs pref cap tok None last keys w) = Ok r.
Proof. unfold checkBalances. cbn. split; [reflexivity | eauto]. Qed.

(** One iteration: at most one alert, none once a jackpot is
    recorded; an alert records the jackpot. *)
Lemma luckyWord_alerts chatId st id source lw i word s w :
  let out := luckyWord E chatId st id source lw i word s w in
  match value out with
  | Ok s' =>
      (jackpot s <> None -> alerts (luckyWord E chatId st id source lw i word s) w = 0%nat /\
                            jackpot s' <> None) /\
      (jackpot s = None ->
         (alerts (luckyWord E chatId st id source lw i word s) w <= 1)%nat /\
         (alerts (luckyWord E chatId st id source lw i word s) w = 1%nat ->
            jackpot s' <> None))
  | Throw _ => alerts (luckyWord E chatId st id source lw i word s) w = 0%nat
  end.
Proof.
  cbv zeta. unfold luckyWord.
  destruct (deriveBrainWallet E word) as [br|e]; [|reflexivity].
  set (cb := checkBalances _ _ _ _ None 0 _).
  destruct (checkBalances_alerts (getBrainWalletAddresses E br)
              match preferred_api st with Some a => a | None => "auto" end
              match max_addresses st with
              | Some m => if Nat.eqb m 0 then 150%nat else m
              | None => 150%nat
              end (fun w => stopCurrentBatch w) 0 (explorerApiKeys st) w)
    as [Hc0 [q Hq]].
  fold cb in Hc0, Hq.
  rewrite value_bind, alerts_bind, Hq, Hc0. cbn [Nat.add].
  set (w1 := after (cb w)).
  set (wordBalance := match fst q with Ok bMap => wordBalanceOf bMap | Throw _ => 0 end).
  set (hit := match fst q, jackpot s with Ok _, None => 0 <? wordBalance | _, _ => false end).
  set (na := if hit then match fst q with
                         | Ok bMap => notifyAdmin E word bMap "feeling_lucky"
                         | Throw _ => ret tt
                         end else ret tt).
  assert (Hna : (alerts na w1 <= (if hit then 1 else 0))%nat /\ value (na w1) = Ok tt).
  { unfold na. destruct hit; [|cbn; split; [lia|reflexivity]].
    destruct (fst q); [apply notifyAdmin_alerts | cbn; split; [lia|reflexivity]]. }
  destruct Hna as [Hn Hv].
  rewrite value_bind, alerts_bind, Hv.
  rewrite value_bind, alerts_bind.
  change (value (recordCheck chatId word (getBrainWalletAddresses E br) [] "lucky" (after (na w1))))
    with (@Ok unit tt).
  cbv iota.
  change (alerts (recordCheck chatId word (getBrainWalletAddresses E br) [] "lucky") (after (na w1)))
    with 0%nat.
  rewrite value_bind, alerts_bind.
  set (w2 := after (recordCheck chatId word (getBrainWalletAddresses E br) [] "lucky" (after (na w1)))).
  set (ed := match id with Some id0 => editMessageText chatId id0 _ None | None => ret tt end).
  assert (Hed : alerts ed w2 = 0%nat /\ value (ed w2) = Ok tt).
  { unfold ed. destruct id; [apply editMessageText_alerts | cbn; split; reflexivity]. }
  destruct Hed as [He Hev]. rewrite He, Hev. cbn [value ret alerts trace view flat_map length Nat.add jackpot].
  rewrite !Nat.add_0_r.
  split.
  - intros Hj. assert (hit = false) as Hh.
    { unfold hit. destruct (fst q); [|reflexivity]. destruct (jackpot s); [reflexivity|congruence]. }
    rewrite Hh in *. split; [lia | exact Hj].
  - intros Hj. split; [destruct hit; lia|].
    intros H1. destruct hit; [discriminate | lia].
Qed.

Lemma luckyLoop_alerts chatId st id source lw ws :
  forall i s w,
    (alerts (luckyLoop E chatId st id source lw i ws s) w <=
     match jackpot s with Some _ => 0 | None => 1 end)%nat.
Proof.
  induction ws as [|word rest IH]; intros i s w; cbn [luckyLoop].
  - cbn. destruct (jackpot s); lia.
  - rewrite alerts_bind. cbn [value after trace readStop view flat_map length Nat.add].
    destruct (stopCurrentBatch w); [cbn; destruct (jackpot s); lia|].
    rewrite alerts_bind.
    pose proof (luckyWord_alerts chatId st id source lw i word s w) as Hw.
    cbv zeta in Hw.
    destruct (value (luckyWord E chatId st id source lw i word s w)) as [s'|e].
    + destruct Hw as [Hsome Hnone].
      specialize (IH (S i) s' (after (luckyWord E chatId st id source lw i word s w))).
      destruct (jackpot s) as [j|] eqn:Hj.
      * destruct (Hsome ltac:(discriminate)) as [H0 Hs'].
        destruct (jackpot s'); [lia | congruence].
      * destruct (Hnone eq_refl) as [Hle H1].
        destruct (jackpot s') eqn:Hs'; [lia|].
        assert (alerts (luckyWord E chatId st id source lw i word s) w = 0)%nat.
        { destruct (Nat.eq_dec (alerts (luckyWord E chatId st id source lw i word s) w)
                      1%nat) as [H|H]; [destruct (H1 H eq_refl) | lia]. }
        lia.
    + rewrite Hw. destruct (jackpot s); lia.
Qed.

(** X20: Feeling Lucky alerts the admin chat for one pick at most,
    the first one found with a balance: once [jackpot] is set, no
    later pick is reported, whatever it holds.  This holds in every
    world, stop requests included. *)
Theorem feeling_lucky_alerts_the_admin_once_at_most
    (chatId : ChatId) (luckyWords : list string) (source : string) (w : World) :
  (length (view (alertsTo admin) (trace (luckyCheck E chatId luckyWords source w))) <= 1)%nat /\
  (forall st id lw i ws (found : string * Z) rs,
      view (alertsTo admin)
        (trace (luckyLoop E chatId st id source lw i ws
                  {| luckyResults := rs; jackpot := Some found |} w)) = []).
Proof.
  split.
  - unfold luckyCheck. destruct luckyWords as [|x xs].
    + rewrite alerts_bind, sendMessageWithKeyboard_alerts.
      destruct (value _); cbn; lia.
    + rewrite alerts_bind, sendMessageWithKeyboard_alerts. cbn [Nat.add].
      destruct (value (sendMessageWithKeyboard E chatId _ STOP_KEYBOARD w)) as [id|];
        [|lia].
      rewrite alerts_bind.
      change (alerts suspend ?w0) with 0%nat. cbn [Nat.add value suspend modify].
      rewrite alerts_bind.
      match goal with
      | |- context [luckyLoop E chatId ?st ?id ?src ?lw ?i ?ws ?s ?w0] =>
          pose proof (luckyLoop_alerts chatId st id src lw ws i s w0) as Hl;
          destruct (value (luckyLoop E chatId st id src lw i ws s w0)) as [s'|]
      end; cbn [jackpot] in Hl; [|lia].
      rewrite alerts_bind.
      match goal with
      | |- context [alerts (match id with Some i0 => editMessageText chatId i0 ?t None
                                        | None => ret tt end) ?w0] =>
          assert (He : alerts (match id with Some i0 => editMessageText chatId i0 t None
                                           | None => ret tt end) w0 = 0%nat)
            by (destruct id; [apply editMessageText_alerts | reflexivity]);
          rewrite He
      end.
      destruct (value _); [|lia].
      rewrite alerts_bind, sendMessageWithKeyboard_alerts.
      destruct (value _); [change (alerts (ret tt) ?w0) with 0%nat|]; lia.
  - intros st id lw i ws found rs.
    pose proof (luckyLoop_alerts chatId st id source lw ws i
                  {| luckyResults := rs; jackpot := Some found |} w) as H.
    cbn [jackpot] in H. destruct (view _ _); [reflexivity | cbn in H; lia].
Qed.

End LuckyAlerts.

(* ===================================================================== *)
(** ** handleRandomKeyHunt *)
(* ===================================================================== *)

Section TraceOfBind.

Context {X : Type}.
Variable pi : Event -> list X.

Lemma view_bind {A B} (m : Bot A) (k : A -> Bot B) (w : World) :
  view pi (trace (bind m k w)) =
  view pi (trace (m w)) ++
  match value (m w) with
  | Ok a => view pi (trace (k a (after (m w))))
  | Throw _ => []
  end.
Proof.
  unfold bind. destruct (value (m w)); cbn [trace].
  - apply view_app.
  - rewrite app_nil_r. reflexivity.
Qed.

End TraceOfBind.

Section KeyHunt.

Variable E : Collaborators.

Lemma no_query_events (tr : list Event) :
  Forall (allowed nothingAllowed) tr -> view queryOf tr = [].
Proof.
  induction 1 as [|e tr He _ IH]; [reflexivity|].
  unfold view in *. cbn [flat_map]. rewrite IH, app_nil_r.
  destruct e; try reflexivity; destruct He.
Qed.

Lemma drawKeys_length (count i : nat) : (length (drawKeys E i count) <= count)%nat.
Proof.
  revert i. induction count as [|k IH]; intros i; cbn [drawKeys length]; [lia|].
  destruct (deriveRandomKey E i); cbn [length]; specialize (IH (S i)); lia.
Qed.

Lemma huntAddresses_length (keys : list BrainResult) :
  (length (List.concat (List.map huntAddressesOf keys)) <= 2 * length keys)%nat.
Proof.
  induction keys as [|k rest IH]; [cbn; lia|].
  cbn [List.map List.concat length]. rewrite length_app.
  assert (length (huntAddressesOf k) <= 2)%nat.
  { unfold huntAddressesOf. etransitivity; [apply filter_length_le | cbn; lia]. }
  lia.
Qed.

(** X21: a key hunt asks the balance checker exactly once, for the
    addresses of the keys it drew (two per key at most, so at most
    twice [count] addresses), with a token that never stops the
    checker; it never calls [hasAnyBalance], writes nothing to the
    word cache and leaves the cache as it was.  This holds in every
    world, whatever the checker answers. *)
Theorem key_hunt_makes_one_query_and_caches_nothing
    (chatId : ChatId) (count : nat) (w : World) :
  let addrs := List.concat (List.map huntAddressesOf (drawKeys E 0 count)) in
  let out := handleRandomKeyHunt E chatId count w in
  view queryOf (trace out) = [addrs] /\
  Forall (allowed (huntOnly addrs)) (trace out) /\
  (length addrs <= 2 * count)%nat /\
  match value out with
  | Ok _ => wordCache (after out) = wordCache w
  | Throw _ => True
  end.
Proof.
  cbv zeta.
  set (addrs := List.concat (List.map huntAddressesOf (drawKeys E 0 count))).
  assert (T : triple (fun w0 => wordCache w0 = wordCache w)
                (handleRandomKeyHunt E chatId count)
                (allowed (huntOnly addrs)) (fun _ w0 => wordCache w0 = wordCache w)).
  { unfold handleRandomKeyHunt. cbv zeta. fold addrs.
    step; [step; step|]. step.
    { apply t_checkBalances; [apply robust_cache | | exact I].
      split; [reflexivity | intros; reflexivity]. }
    step.
    { instantiate (1 := fun _ w0 => wordCache w0 = wordCache w).
      destruct (List.find _ _) as [e|]; [|step].
      destruct (TELEGRAM_CHAT_ID E) as [adm|]; [|step].
      destruct (addrToKey _ _); [|step].
      step; [step; step | step]. }
    step.
    { instantiate (1 := fun _ w0 => wordCache w0 = wordCache w).
      destruct a; [step; step | step]. }
    step; [step; step | step]. }
  destruct (T w eq_refl) as [Hev Hpost].
  split; [|split; [exact Hev|split; [|exact Hpost]]].
  - unfold handleRandomKeyHunt. cbv zeta. fold addrs.
    rewrite view_bind.
    change (view queryOf (trace (sendMessage E chatId ?t w))) with (@nil (list string)).
    change (value (sendMessage E chatId ?t w)) with (Ok (messageId E chatId t)).
    cbv iota. cbn [app].
    rewrite view_bind.
    cbn [view flat_map queryOf checkBalances trace value app fst].
    f_equal.
    match goal with
    | |- view queryOf (trace (?m ?w1)) = [] =>
        apply no_query_events;
        refine (proj1 ((_ : triple (fun _ => True) m (allowed nothingAllowed)
                             (fun _ _ => True)) w1 I))
    end.
    step.
    { instantiate (1 := fun _ _ => True).
      destruct (List.find _ _) as [e|]; [|step].
      destruct (TELEGRAM_CHAT_ID E) as [adm|]; [|step].
      destruct (addrToKey _ _); [|step].
      step; [step; step | step]. }
    step.
    { instantiate (1 := fun _ _ => True).
      destruct (messageId _ _ _); [step; step | step]. }
    step; [step; step | step].
  - etransitivity; [apply huntAddresses_length|].
    pose proof (drawKeys_length count 0). lia.
Qed.

End KeyHunt.

(* ===================================================================== *)
(** ** setAICache *)
(* ===================================================================== *)

Section AICacheFacts.

Context {V : Type}.
Implicit Types (m : AICache V) (key : string).

Lemma cacheSet_length m key (value_ : V) :
  length (cacheSet key value_ m) =
  if existsb (String.eqb key) (List.map fst m) then length m else Datatypes.S (length m).
Proof.
  induction m as [|[k v] rest IH]; [reflexivity|].
  cbn [cacheSet List.map fst existsb]. rewrite (String.eqb_sym key k).
  destruct (String.eqb k key); cbn [orb length]; [reflexivity|].
  rewrite IH. destruct (existsb _ _); reflexivity.
Qed.

Lemma cacheSet_keys m key (value_ : V) :
  List.map fst (cacheSet key value_ m) =
  if existsb (String.eqb key) (List.map fst m) then List.map fst m
  else List.map fst m ++ [key].
Proof.
  induction m as [|[k v] rest IH]; [reflexivity|].
  cbn [cacheSet List.map fst existsb]. rewrite (String.eqb_sym key k).
  destruct (String.eqb k key); cbn [orb List.map fst]; [reflexivity|].
  rewrite IH. destruct (existsb _ _); reflexivity.
Qed.

Lemma existsb_key key (l : list string) :
  existsb (String.eqb key) l = true <-> In key l.
Proof.
  rewrite existsb_exists. split.
  - intros [x [Hx He]]. apply String.eqb_eq in He. subst. exact Hx.
  - intros H. exists key. split; [exact H | apply String.eqb_refl].
Qed.

Lemma NoDup_snoc (l : list string) key :
  List.NoDup l -> ~ In key l -> List.NoDup (l ++ [key]).
Proof.
  induction 1 as [|x l Hx Hl IH]; cbn [app In]; intros Hk.
  - constructor; [intros [] | constructor].
  - constructor; [|apply IH; tauto].
    rewrite in_app_iff. cbn [In]. intros [H|[H|[]]]; [tauto | subst; tauto].
Qed.

Lemma cacheSet_NoDup m key (value_ : V) :
  List.NoDup (List.map fst m) -> List.NoDup (List.map fst (cacheSet key value_ m)).
Proof.
  intros H. rewrite cacheSet_keys.
  destruct (existsb (String.eqb key) (List.map fst m)) eqn:Hk; [exact H|].
  apply NoDup_snoc; [exact H|].
  intros Hin. apply existsb_key in Hin. congruence.
Qed.

Lemma cacheGet_set_same m key (value_ : V) :
  cacheGet key (cacheSet key value_ m) = Some value_.
Proof.
  unfold cacheGet. induction m as [|[k v] rest IH]; cbn [cacheSet List.find fst].
  - rewrite String.eqb_refl. reflexivity.
  - destruct (String.eqb k key) eqn:Hk; cbn [List.find fst]; rewrite Hk; [reflexivity | exact IH].
Qed.

Lemma cacheGet_set_other m key (value_ : V) k :
  k <> key -> cacheGet k (cacheSet key value_ m) = cacheGet k m.
Proof.
  intros Hne. unfold cacheGet.
  induction m as [|[k1 v] rest IH]; cbn [cacheSet List.find fst].
  - apply String.eqb_neq in Hne. rewrite String.eqb_sym, Hne. reflexivity.
  - destruct (String.eqb k1 key) eqn:Hk; cbn [List.find fst].
    + apply String.eqb_eq in Hk. subst k1.
      apply not_eq_sym, String.eqb_neq in Hne. rewrite Hne. reflexivity.
    + destruct (String.eqb k1 k); [reflexivity | exact IH].
Qed.

Lemma cacheGet_delete m key k :
  cacheGet k (cacheDelete key m) = if String.eqb k key then None else cacheGet k m.
Proof.
  unfold cacheGet, cacheDelete.
  induction m as [|[k1 v] rest IH]; cbn [List.filter List.find fst].
  - destruct (String.eqb k key); reflexivity.
  - destruct (String.eqb k1 key) eqn:Hk1; cbn [negb List.find fst].
    + apply String.eqb_eq in Hk1. subst k1. rewrite IH.
      rewrite (String.eqb_sym key k). destruct (String.eqb k key); reflexivity.
    + destruct (String.eqb k1 k) eqn:Hk; [|exact IH].
      apply String.eqb_eq in Hk. subst k1. rewrite Hk1. reflexivity.
Qed.

Lemma cacheDelete_keys m key :
  List.map fst (cacheDelete key m) =
  List.filter (fun k => negb (String.eqb k key)) (List.map fst m).
Proof.
  unfold cacheDelete. induction m as [|[k v] rest IH]; [reflexivity|].
  cbn [List.filter List.map fst]. destruct (String.eqb k key); cbn [negb List.map fst];
    rewrite IH; reflexivity.
Qed.

Lemma cacheDelete_absent m key :
  ~ In key (List.map fst m) -> cacheDelete key m = m.
Proof.
  unfold cacheDelete. induction m as [|[k v] rest IH]; [reflexivity|].
  cbn [List.map fst In List.filter]. intros H.
  destruct (String.eqb k key) eqn:Hk.
  - apply String.eqb_eq in Hk. tauto.
  - cbn [negb]. rewrite IH; [reflexivity | tauto].
Qed.

Lemma cacheDelete_first k0 v0 (rest : AICache V) :
  List.NoDup (List.map fst ((k0, v0) :: rest)) -> cacheDelete k0 ((k0, v0) :: rest) = rest.
Proof.
  intros H. inversion H as [|? ? Hnot _]; subst.
  unfold cacheDelete. cbn [List.filter fst]. rewrite String.eqb_refl. cbn [negb].
  apply cacheDelete_absent. exact Hnot.
Qed.

(** X22: [setAICache] keeps the cache a map of at most 500 entries
    and the entry it stores is the one read back; while the cache
    holds fewer than 500 entries no other key is touched. *)
Theorem setAICache_keeps_the_bound m key (value_ : V) :
  List.NoDup (List.map fst m) ->
  (length m <= MAX_AI_CACHE)%nat ->
  List.NoDup (List.map fst (setAICache key value_ m)) /\
  (length (setAICache key value_ m) <= MAX_AI_CACHE)%nat /\
  cacheGet key (setAICache key value_ m) = Some value_ /\
  ((length m < MAX_AI_CACHE)%nat ->
   forall k, k <> key -> cacheGet k (setAICache key value_ m) = cacheGet k m).
Proof.
  intros Hnd Hlen. unfold setAICache. cbv zeta.
  destruct (Nat.leb MAX_AI_CACHE (length m)) eqn:Hfull.
  - apply Nat.leb_le in Hfull.
    destruct m as [|[k0 v0] rest]; [cbn [length] in Hfull; unfold MAX_AI_CACHE in Hfull; lia|].
    rewrite (cacheDelete_first k0 v0 rest Hnd).
    inversion Hnd as [|? ? _ Hrest]; subst.
    split; [apply cacheSet_NoDup; exact Hrest|].
    split; [|split; [apply cacheGet_set_same | intros; cbn [length] in *; lia]].
    rewrite cacheSet_length. cbn [length] in Hlen.
    destruct (existsb _ _); lia.
  - apply Nat.leb_gt in Hfull.
    split; [apply cacheSet_NoDup; exact Hnd|].
    split; [|split; [apply cacheGet_set_same | intros _ k Hk; apply cacheGet_set_other; exact Hk]].
    rewrite cacheSet_length. destruct (existsb _ _); lia.
Qed.

(** X23: when the cache is full, [setAICache] drops the oldest entry
    before it stores the new one, also when the key is already
    cached: the oldest key is lost (unless it is the key being
    stored, which then moves to the end), every other entry stays,
    and updating a key that was cached behind the oldest one leaves
    the cache one entry smaller. *)
Theorem setAICache_drops_the_oldest_entry_when_full
    (k0 : string) (v0 : V) (rest : AICache V) key (value_ : V) :
  let m := (k0, v0) :: rest in
  List.NoDup (List.map fst m) ->
  (MAX_AI_CACHE <= length m)%nat ->
  cacheGet k0 (setAICache key value_ m) =
    (if String.eqb key k0 then Some value_ else None) /\
  (forall k, k <> key -> k <> k0 ->
     cacheGet k (setAICache key value_ m) = cacheGet k m) /\
  List.map fst (setAICache key value_ m) =
    (if existsb (String.eqb key) (List.map fst rest)
     then List.map fst rest
     else List.map fst rest ++ [key]).
Proof.
  cbv zeta. intros Hnd Hfull. unfold setAICache. cbv zeta.
  apply Nat.leb_le in Hfull. rewrite Hfull.
  rewrite (cacheDelete_first k0 v0 rest Hnd).
  inversion Hnd as [|? ? Hnot _]; subst.
  split; [|split].
  - destruct (String.eqb key k0) eqn:Hk.
    + apply String.eqb_eq in Hk. subst key. apply cacheGet_set_same.
    + apply String.eqb_neq in Hk. rewrite cacheGet_set_other by congruence.
      unfold cacheGet.
      destruct (List.find _ rest) as [[k v]|] eqn:Hf; [|reflexivity].
      apply find_some in Hf. destruct Hf as [Hin He]. cbn [fst] in He.
      apply String.eqb_eq in He. subst k.
      exfalso. apply Hnot. change k0 with (fst (k0, v)). apply in_map. exact Hin.
  - intros k Hk Hk0. rewrite cacheGet_set_other by exact Hk.
    unfold cacheGet. cbn [List.find fst].
    apply not_eq_sym, String.eqb_neq in Hk0. rewrite Hk0. reflexivity.
  - apply cacheSet_keys.
Qed.

End AICacheFacts.

Lemma distinctKeys_NoDup (l : list string) : distinctKeys l = true -> List.NoDup l.
Proof.
  induction l as [|x rest IH]; cbn [distinctKeys]; [constructor|].
  intros H. apply andb_true_iff in H. destruct H as [Hx Hrest].
  constructor; [|apply IH; exact Hrest].
  intros Hin. apply negb_true_iff in Hx.
  assert (existsb (String.eqb x) rest = true); [|congruence].
  apply existsb_exists. exists x. split; [exact Hin | apply String.eqb_refl].
Qed.

Lemma setAICache_keeps_the_bound_witness :
  let almostFull := tl fullCache in
  (List.NoDup (List.map fst fullCache) /\ (length fullCache <= MAX_AI_CACHE)%nat) /\
  (length almostFull < MAX_AI_CACHE)%nat /\
  (length (setAICache "500" 7%nat fullCache) <= MAX_AI_CACHE)%nat /\
  (length (setAICache "500" 7%nat almostFull) <= MAX_AI_CACHE)%nat /\
  cacheGet "500" (setAICache "500" 7%nat almostFull) = Some 7%nat /\
  (forall k, k <> "500"%string ->
     cacheGet k (setAICache "500" 7%nat almostFull) = cacheGet k almostFull).
Proof.
  intros almostFull.
  assert (Hnd : List.NoDup (List.map fst fullCache))
    by (apply distinctKeys_NoDup; vm_compute; reflexivity).
  assert (Hlen : (length fullCache <= MAX_AI_CACHE)%nat)
    by (apply Nat.leb_le; vm_compute; reflexivity).
  assert (Hnd' : List.NoDup (List.map fst almostFull))
    by (apply distinctKeys_NoDup; vm_compute; reflexivity).
  assert (Hlt : (length almostFull < MAX_AI_CACHE)%nat)
    by (apply Nat.ltb_lt; vm_compute; reflexivity).
  destruct (setAICache_keeps_the_bound fullCache "500" 7%nat Hnd Hlen)
    as (_ & Hfull & _).
  destruct (setAICache_keeps_the_bound almostFull "500" 7%nat Hnd' (Nat.lt_le_incl _ _ Hlt))
    as (_ & Hbound & Hget & Hother).
  split; [split; [exact Hnd | exact Hlen]|]. split; [exact Hlt|].
  split; [exact Hfull|]. split; [exact Hbound|]. split; [exact Hget|].
  exact (Hother Hlt).
Defined.

Lemma setAICache_drops_the_oldest_entry_when_full_witness :
  List.NoDup (List.map fst fullCache) /\
  (MAX_AI_CACHE <= length fullCache)%nat /\
  cacheGet "0" fullCache = Some 0%nat /\
  cacheGet "0" (setAICache "7" 1%nat fullCache) = None.
Proof.
  assert (Hnd : List.NoDup (List.map fst fullCache))
    by (apply distinctKeys_NoDup; vm_compute; reflexivity).
  assert (Hlen : (MAX_AI_CACHE <= length fullCache)%nat)
    by (apply Nat.leb_le; vm_compute; reflexivity).
  split; [exact Hnd|]. split; [exact Hlen|]. split; [vm_compute; reflexivity|].
  exact (proj1 (setAICache_drops_the_oldest_entry_when_full "0" 0%nat (tl fullCache)
                  "7" 1%nat Hnd Hlen)).
Defined.
